(** * Static-site post-processing scripts: canonical links, Metrika
      snippet, sitemap and RSS.

    Shallow embedding of
      - scripts/fix_canonical.py
      - tools/inject_metrika.py
      - tools/generate_sitemap.py
      - tools/generate_rss.py
      - tools/generate_pages.py   ([detect_base_url], [_split],
        [normalize_path], [absolutize], [make_related])

    A Python [str] is a list of characters.  Characters are the code
    points below 256 (Rocq's [ascii]); on that range the Unicode-aware
    primitives used by the scripts ([str.lower], [str.strip], the regex
    classes [\s] and [\d], the flag [(?i)]) are written out below.
    Texts with other code points are outside the embedding: what is
    proved of a function holds for the texts below 256 only.  This
    matters for [str.lower]: below 256 it maps each code point to one
    code point, so a lowered text has the length and the indices of
    the text; the one code point whose lower-case form is longer
    (U+0130, two code points) is not below 256. *)

From Stdlib Require Import String Ascii.
From Stdlib Require Import List ZArith Lia Bool Arith.
From Stdlib Require Import Sorting.Sorted Sorting.Permutation.
Import ListNotations.
Open Scope list_scope.

Set Implicit Arguments.

(* ================================================================== *)
(** ** Python string primitives *)
(* ================================================================== *)

Module Py.

Definition text := list ascii.

(** String literal of the source as a [text]. *)
Definition T (s : string) : text := list_ascii_of_string s.

(** The double-quote and single-quote characters. *)
Definition dq : ascii := ascii_of_nat 34.
Definition sq : ascii := ascii_of_nat 39.
(** Line feed. *)
Definition nl : ascii := ascii_of_nat 10.

Definition code (c : ascii) : nat := nat_of_ascii c.

Definition in_range (lo hi : nat) (c : ascii) : bool :=
  (lo <=? code c) && (code c <=? hi).

(** [str.lower] on one code point below 256: A-Z and the Latin-1
    capitals 0xC0-0xDE (except the multiplication sign 0xD7) move to
    their small letters, every other code point below 256 stays. *)
Definition lower_char (c : ascii) : ascii :=
  if in_range 65 90 c then ascii_of_nat (code c + 32)
  else if in_range 192 222 c && negb (code c =? 215)
       then ascii_of_nat (code c + 32)
       else c.

(** [t.lower()] for a text below 256, where it works code point by
    code point and keeps the length. *)
Definition lower (t : text) : text := map lower_char t.

(** [str.isspace], which is also the regex class [\s] on [str]
    patterns: TAB..CR, FS..US, space, NEL (0x85) and NBSP (0xA0). *)
Definition is_space (c : ascii) : bool :=
  in_range 9 13 c || in_range 28 32 c || (code c =? 133) || (code c =? 160).

(** The regex class [\d] below 256. *)
Definition is_digit (c : ascii) : bool := in_range 48 57 c.

(** [0-9a-zA-Z]. *)
Definition is_alnum (c : ascii) : bool :=
  in_range 48 57 c || in_range 97 122 c || in_range 65 90 c.

Definition is_quote (c : ascii) : bool :=
  Ascii.eqb c dq || Ascii.eqb c sq.

(** A literal pattern character under [(?i)]. *)
Definition ci_eqb (p c : ascii) : bool :=
  Ascii.eqb (lower_char p) (lower_char c).

(** [t.startswith(p)]. *)
Fixpoint startswith (p t : text) : bool :=
  match p, t with
  | [], _ => true
  | _ :: _, [] => false
  | a :: p', b :: t' => Ascii.eqb a b && startswith p' t'
  end.

(** A literal [p] matched at the head of [t] under [(?i)]. *)
Fixpoint ci_startswith (p t : text) : bool :=
  match p, t with
  | [], _ => true
  | _ :: _, [] => false
  | a :: p', b :: t' => ci_eqb a b && ci_startswith p' t'
  end.

(** [t.endswith(p)]. *)
Definition endswith (p t : text) : bool :=
  (length p <=? length t) &&
  startswith p (skipn (length t - length p) t).

(** [t.find(p)]: index of the first occurrence, [None] for -1. *)
Fixpoint find (p t : text) : option nat :=
  if startswith p t then Some 0
  else match t with
       | [] => None
       | _ :: t' => option_map S (find p t')
       end.

(** [p in t]. *)
Definition contains (p t : text) : bool :=
  match find p t with Some _ => true | None => false end.

(** [t.rfind(p)]: index of the last occurrence, [None] for -1. *)
Fixpoint rfind (p t : text) : option nat :=
  match t with
  | [] => if startswith p [] then Some 0 else None
  | _ :: t' =>
      match rfind p t' with
      | Some i => Some (S i)
      | None => if startswith p t then Some 0 else None
      end
  end.

(** [t.rstrip("/")] and friends: drop the trailing characters that
    satisfy [f]. *)
Definition rstrip_by (f : ascii -> bool) (t : text) : text :=
  fold_right (fun c acc =>
                match acc with
                | [] => if f c then [] else [c]
                | _ => c :: acc
                end) [] t.

Fixpoint lstrip_by (f : ascii -> bool) (t : text) : text :=
  match t with
  | c :: t' => if f c then lstrip_by f t' else t
  | [] => []
  end.

(** [t.strip()]. *)
Definition strip (t : text) : text := rstrip_by is_space (lstrip_by is_space t).

Definition is_slash (c : ascii) : bool := Ascii.eqb c "/"%char.

(** Text equality, [a == b]. *)
Definition text_eqb (a b : text) : bool :=
  (length a =? length b) && startswith a b.

(** *** Regex substitution and search

    A compiled pattern is represented by its anchored matcher: a
    function that, given the remaining text, returns the length of the
    match starting there.  All patterns of the scripts match at least
    one character. *)
Definition matcher := text -> option nat.

(** [re.sub(pattern, repl, t)]: leftmost non-overlapping matches, each
    replaced by [repl] applied to the matched text.  [skip] counts the
    characters of the current match that remain to be consumed. *)
Fixpoint re_sub_from (m : matcher) (repl : text -> text)
         (skip : nat) (t : text) : text :=
  match t with
  | [] => []
  | c :: t' =>
      match skip with
      | S k => re_sub_from m repl k t'
      | O =>
          match m t with
          | Some n => repl (firstn n t) ++ re_sub_from m repl (n - 1) t'
          | None => c :: re_sub_from m repl 0 t'
          end
      end
  end.

Definition re_sub (m : matcher) (repl : text -> text) (t : text) : text :=
  re_sub_from m repl 0 t.

(** [re.search(pattern, t)]: start and length of the leftmost match. *)
Fixpoint re_search (m : matcher) (t : text) : option (nat * nat) :=
  match m t with
  | Some n => Some (0, n)
  | None =>
      match t with
      | [] => None
      | _ :: t' =>
          match re_search m t' with
          | Some (i, n) => Some (S i, n)
          | None => None
          end
      end
  end.

(** [m.group(0)] for every match of [re.finditer(pattern, t)]. *)
Fixpoint re_findall_from (m : matcher) (skip : nat) (t : text) : list text :=
  match t with
  | [] => []
  | _ :: t' =>
      match skip with
      | S k => re_findall_from m k t'
      | O =>
          match m t with
          | Some n => firstn n t :: re_findall_from m (n - 1) t'
          | None => re_findall_from m 0 t'
          end
      end
  end.

Definition re_findall (m : matcher) (t : text) : list text :=
  re_findall_from m 0 t.

(** [s.replace(old, new)] for a non-empty [old]. *)
Definition str_replace (old new s : text) : text :=
  re_sub (fun t => if startswith old t then Some (length old) else None)
         (fun _ => new) s.

(** [s.split("/", 1)]: the text before the first slash and, when there
    is a slash, the text after it. *)
Fixpoint split_first_slash (t : text) : text * option text :=
  match t with
  | [] => ([], None)
  | c :: t' =>
      if is_slash c then ([], Some t')
      else let '(a, b) := split_first_slash t' in (c :: a, b)
  end.

Definition is_some {A} (o : option A) : bool :=
  match o with Some _ => true | None => false end.

(** Texts without a slash. *)
Definition no_slash (t : text) : Prop := forallb (fun c => negb (is_slash c)) t = true.

End Py.

(* ================================================================== *)
(** ** Regular expressions as backtracking matchers

    Each combinator takes the remaining text and a continuation for the
    rest of the pattern and returns what the continuation returns (the
    text left after the whole match).  Greedy repetition tries the
    longest repetition first and gives characters back one at a time,
    as Python's [re] does. *)
(* ================================================================== *)

Module Re.
Import Py.

Definition cont := text -> option text.
Definition pat := text -> cont -> option text.

(** A literal, case-sensitive. *)
Definition lit (p : text) : pat :=
  fun t k => if startswith p t then k (skipn (length p) t) else None.

(** A literal under [(?i)]. *)
Definition lit_ci (p : text) : pat :=
  fun t k => if ci_startswith p t then k (skipn (length p) t) else None.

(** One character of a class. *)
Definition cls (f : ascii -> bool) : pat :=
  fun t k => match t with
             | c :: t' => if f c then k t' else None
             | [] => None
             end.

(** Greedy repetition of a class, at least [lo] times: [[..]*] is
    [many f 0], [[..]+] is [many f 1], [x{2,}] is [many f 2]. *)
Fixpoint many (f : ascii -> bool) (lo : nat) (t : text) (k : cont)
  : option text :=
  let stop := if lo =? 0 then k t else None in
  match t with
  | c :: t' =>
      if f c then
        match many f (pred lo) t' k with
        | Some r => Some r
        | None => stop
        end
      else stop
  | [] => stop
  end.

(** [x?] for one character class, greedy. *)
Definition opt (f : ascii -> bool) : pat :=
  fun t k =>
    match t with
    | c :: t' => if f c then match k t' with
                             | Some r => Some r
                             | None => k t
                             end
                 else k t
    | [] => k t
    end.

(** [a|b]: the first alternative that lets the rest match. *)
Definition alt (a b : pat) : pat :=
  fun t k => match a t k with Some r => Some r | None => b t k end.

(** [$] without [re.M]: at the end, or just before a final line feed. *)
Definition eos : pat :=
  fun t k => match t with
             | [] => k t
             | [c] => if Ascii.eqb c nl then k t else None
             | _ => None
             end.

Definition seq (a b : pat) : pat := fun t k => a t (fun r => b r k).

(** The empty pattern. *)
Definition eps : pat := fun t k => k t.

(** The anchored matcher of a pattern: the length of its match at the
    head of the text. *)
Definition compile (p : pat) : matcher :=
  fun t => match p t (fun r => Some r) with
           | Some r => Some (length t - length r)
           | None => None
           end.

Definition not_gt (c : ascii) : bool := negb (Ascii.eqb c ">"%char).
Definition not_quote (c : ascii) : bool := negb (is_quote c).
Definition chr (a : ascii) (c : ascii) : bool := Ascii.eqb a c.
Definition chr_ci (a : ascii) (c : ascii) : bool := ci_eqb a c.

End Re.

Declare Scope re_scope.
Delimit Scope re_scope with re.
Infix ";;" := Re.seq (at level 61, right associativity) : re_scope.

(* ================================================================== *)
(** ** scripts/fix_canonical.py *)
(* ================================================================== *)

Module FixCanonical.
Import Py Re.
Local Open Scope re_scope.

(** Exceptions that leave [main]. *)
Inductive exn :=
| SystemExit (msg : string)
| IndexError.

Inductive outcome (A : Type) :=
| Return (a : A)
| Raise (e : exn).
Arguments Return {A} a.
Arguments Raise {A} e.

(** Process exit status of an uncaught exception: [SystemExit] with a
    string argument prints it and exits with 1, a traceback exits with 1. *)
Definition exit_status {A} (o : outcome A) : Z :=
  match o with
  | Return _ => 0%Z
  | Raise _ => 1%Z
  end.

(** The environment variables read at import time. *)
Record environ := {
  env_BASE_URL : option text;
  env_SITE_ROOT : option text;
  env_GITHUB_REPOSITORY : option text
}.

Definition getenv (v : option text) (default : text) : text :=
  match v with Some x => x | None => default end.

Definition BASE_URL (e : environ) : text := strip (getenv (env_BASE_URL e) []).
Definition SITE_ROOT (e : environ) : text := strip (getenv (env_SITE_ROOT e) (T ".")).
Definition REPO (e : environ) : text := getenv (env_GITHUB_REPOSITORY e) [].

(** [OWNER, REPO_NAME]: the repository identifier split at its first
    slash, padded with an empty name when there is no slash. *)
Definition owner_and_name (repo : text) : text * text :=
  match split_first_slash repo with
  | (a, Some b) => (a, b)
  | (a, None) => (a, [])
  end.

Definition OWNER (e : environ) : text := fst (owner_and_name (REPO e)).
Definition REPO_NAME (e : environ) : text := snd (owner_and_name (REPO e)).

(** Line boundaries of [str.splitlines] below 256. *)
Definition is_linebreak (c : ascii) : bool :=
  in_range 10 13 c || in_range 28 30 c || (code c =? 133).

(** [t.splitlines()[0]]; [None] when the list of lines is empty. *)
Fixpoint take_line (t : text) : text :=
  match t with
  | c :: t' => if is_linebreak c then [] else c :: take_line t'
  | [] => []
  end.

Definition first_line (t : text) : option text :=
  match t with
  | [] => None
  | _ => Some (take_line t)
  end.

(** [detect_base_url()].  [cname] is the content of the file CNAME of
    the working directory, [None] when it does not exist. *)
Definition detect_base_url (e : environ) (cname : option text) : outcome text :=
  let by_repo :=
    if endswith (T ".github.io") (REPO_NAME e) then
      Return (T "https://" ++ REPO_NAME e)
    else if negb (text_eqb (OWNER e) []) && negb (text_eqb (REPO_NAME e) []) then
      Return (T "https://" ++ OWNER e ++ T ".github.io/" ++ REPO_NAME e)
    else Return [] in
  match cname with
  | Some content =>
      match first_line (strip content) with
      | None => Raise IndexError
      | Some l =>
          let domain := strip l in
          if negb (text_eqb domain []) then
            if negb (startswith (T "http") domain)
            then Return (T "https://" ++ domain)
            else Return domain
          else by_repo
      end
  | None => by_repo
  end.

(** A path below ROOT, as its components; [as_posix] joins them. *)
Definition path := list text.

Fixpoint as_posix (p : path) : text :=
  match p with
  | [] => T "."
  | [a] => a
  | a :: p' => a ++ T "/" ++ as_posix p'
  end.

(** [path.name]. *)
Definition name (p : path) : text := last p [].

(** [/{2,}]. *)
Definition RE_SLASHES : matcher := compile (many is_slash 2).

(** [build_canonical_for(path, base)], with [path] relative to ROOT. *)
Definition build_canonical_for (p : path) (base : text) : text :=
  let base := rstrip_by is_slash base in
  let rel := as_posix p in
  let name := lower (name p) in
  if text_eqb name (T "404.html")
     || startswith (T "yandex_") name
     || startswith (T "google") name
  then []
  else
    let url_path :=
      if endswith (T "index.html") rel
      then T "/" ++ firstn (length rel - 10) rel
      else T "/" ++ rel in
    let url_path := re_sub RE_SLASHES (fun _ => T "/") url_path in
    base ++ url_path.

(** [(?is)<link[^>]+rel=[Q]canonical[Q][^>]*>], where [Q] stands for
    the class of the single and the double quote. *)
Definition RE_CANONICAL : matcher :=
  compile (lit_ci (T "<link") ;; many not_gt 1 ;; lit_ci (T "rel=") ;;
           cls is_quote ;; lit_ci (T "canonical") ;; cls is_quote ;;
           many not_gt 0 ;; lit (T ">")).

(** [(?is)</head\s*>]. *)
Definition RE_HEAD_CLOSE : matcher :=
  compile (lit_ci (T "</head") ;; many is_space 0 ;; lit (T ">")).

(** [(?is)<meta[^>]+name=[Q]robots[Q][^>]+content=[Q]https?://[^Q]+[Q][^>]*>]. *)
Definition RE_ROBOTS_URL : matcher :=
  compile (lit_ci (T "<meta") ;; many not_gt 1 ;; lit_ci (T "name=") ;;
           cls is_quote ;; lit_ci (T "robots") ;; cls is_quote ;;
           many not_gt 1 ;; lit_ci (T "content=") ;; cls is_quote ;;
           lit_ci (T "http") ;; opt (chr_ci "s") ;; lit (T "://") ;;
           many not_quote 1 ;; cls is_quote ;; many not_gt 0 ;; lit (T ">")).

(** The f-string [<link rel=canonical href={canonical_url}>], both
    attribute values in double quotes. *)
Definition canonical_tag (canonical_url : text) : text :=
  T "<link rel=" ++ [dq] ++ T "canonical" ++ [dq] ++ T " href=" ++ [dq]
    ++ canonical_url ++ [dq] ++ T ">".

Definition ROBOTS_DEFAULT : text :=
  T "<meta name=" ++ [dq] ++ T "robots" ++ [dq] ++ T " content=" ++ [dq]
    ++ T "index, follow" ++ [dq] ++ T ">".

Definition remove_canonical (html : text) : text :=
  re_sub RE_CANONICAL (fun _ => []) html.

Definition fix_robots (html : text) : text :=
  re_sub RE_ROBOTS_URL (fun _ => ROBOTS_DEFAULT) html.

(** Step 2 of [ensure_canonical]: the text after the search for the
    closing head tag, and the flag [inserted]. *)
Definition insert_before_head (html tag : text) : text * bool :=
  match re_search RE_HEAD_CLOSE html with
  | Some (pos, _) => (firstn pos html ++ tag ++ [nl] ++ skipn pos html, true)
  | None => (html, false)
  end.

(** [ensure_canonical(html, canonical_url)]. *)
Definition ensure_canonical (html canonical_url : text) : text :=
  let html := remove_canonical html in
  let tag := canonical_tag canonical_url in
  let '(html, inserted) := insert_before_head html tag in
  let html := fix_robots html in
  if negb inserted then tag ++ [nl] ++ html else html.

(** *** [main]

    The tree below ROOT is the list of its entries in the order of
    [ROOT.rglob]; an entry that cannot be read as UTF-8 text has no
    content.  Writing is assumed to succeed. *)
Definition entry := (path * option text)%type.

Inductive event :=
| ERead (p : path)
| EWrite (p : path) (new_html : text).

Record counts := { changed_files : nat; skipped_files : nat }.

Definition MSG_NO_BASE_URL : string :=
  "Не удалось определить BASE_URL. Задайте переменную среды BASE_URL или добавьте CNAME/проверьте GITHUB_REPOSITORY.".

Definition MSG_NO_SITE_ROOT : string := "Каталог SITE_ROOT не найден: ".

(** The body of the loop for one entry. *)
Definition step (base : text) (st : counts) (f : entry) : counts * list event :=
  let '(p, content) := f in
  match content with
  | None =>
      ({| changed_files := changed_files st;
          skipped_files := S (skipped_files st) |}, [ERead p])
  | Some html =>
      let can_url := build_canonical_for p base in
      if text_eqb can_url [] then (st, [ERead p])
      else
        let new_html := ensure_canonical html can_url in
        if negb (text_eqb new_html html) then
          ({| changed_files := S (changed_files st);
              skipped_files := skipped_files st |},
           [ERead p; EWrite p new_html])
        else (st, [ERead p])
  end.

Fixpoint loop (base : text) (st : counts) (fs : list entry)
  : counts * list event :=
  match fs with
  | [] => (st, [])
  | f :: rest =>
      let '(st1, ev) := step base st f in
      let '(st2, evs) := loop base st1 rest in
      (st2, ev ++ evs)
  end.

(** [ROOT.rglob("*.html")]. *)
Definition rglob_html (tree : list entry) : list entry :=
  filter (fun f => endswith (T ".html") (name (fst f))) tree.

(** [BASE_URL or detect_base_url()]. *)
Definition resolve_base (e : environ) (cname : option text) : outcome text :=
  if negb (text_eqb (BASE_URL e) []) then Return (BASE_URL e)
  else detect_base_url e cname.

(** [main()]: how it ends, and the file accesses it made.
    [root] is the printed form of ROOT, [tree] is [None] when ROOT does
    not exist. *)
Definition main (e : environ) (cname : option text) (root : string)
           (tree : option (list entry)) : outcome counts * list event :=
  match resolve_base e cname with
  | Raise x => (Raise x, [])
  | Return base =>
      if text_eqb base [] then (Raise (SystemExit MSG_NO_BASE_URL), [])
      else
        match tree with
        | None => (Raise (SystemExit (MSG_NO_SITE_ROOT ++ root)%string), [])
        | Some tree =>
            let '(st, evs) :=
              loop base {| changed_files := 0; skipped_files := 0 |}
                   (rglob_html tree) in
            (Return st, evs)
        end
  end.

End FixCanonical.
(* ================================================================== *)
(** ** tools/inject_metrika.py *)
(* ================================================================== *)

Module InjectMetrika.
Import Py Re.
Local Open Scope re_scope.

(** A literal in which the double quote is written as a backquote. *)
Definition TQ (s : string) : text :=
  map (fun c => if Ascii.eqb c "`"%char then dq else c) (T s).

Definition TARGET_ID : text := T "103602117".

Definition SNIPPET : text :=
  TQ "<!-- Yandex.Metrika counter -->
<script type=`text/javascript`>
    (function(m,e,t,r,i,k,a){
        m[i]=m[i]||function(){(m[i].a=m[i].a||[]).push(arguments)};
        m[i].l=1*new Date();
        for (var j = 0; j < document.scripts.length; j++) {if (document.scripts[j].src === r) { return; }}
        k=e.createElement(t),a=e.getElementsByTagName(t)[0],k.async=1,k.src=r,a.parentNode.insertBefore(k,a)
    })(window, document,'script','https://mc.yandex.ru/metrika/tag.js?id=103602117', 'ym');

    ym(103602117, 'init', {ssr:true, webvisor:true, clickmap:true, ecommerce:`dataLayer`, accurateTrackBounce:true, trackLinks:true});
</script>
<noscript><div><img src=`https://mc.yandex.ru/watch/103602117` style=`position:absolute; left:-9999px;` alt=`` /></div></noscript>
<!-- /Yandex.Metrika counter -->
".

Definition TAG_JS_PREFIX : text := T "https://mc.yandex.ru/metrika/tag.js?id=".
Definition WATCH_PREFIX : text := T "https://mc.yandex.ru/watch/".

(** [https://mc\.yandex\.ru/metrika/tag\.js\?id=(\d+)]; group 1 is the
    match without the literal prefix. *)
Definition RE_TAG_JS : matcher := compile (lit TAG_JS_PREFIX ;; many is_digit 1).

(** [https://mc\.yandex\.ru/watch/(\d+)]. *)
Definition RE_WATCH : matcher := compile (lit WATCH_PREFIX ;; many is_digit 1).

(** [ym\(\s*(\d+)\s*,\s*'init']. *)
Definition RE_YM_INIT : matcher :=
  compile (lit (T "ym(") ;; many is_space 0 ;; many is_digit 1 ;;
           many is_space 0 ;; lit (T ",") ;; many is_space 0 ;; lit (T "'init'")).

(** The pattern of [has_target_id]: [ym\(\s*103602117\s*,\s*'init']. *)
Definition RE_YM_TARGET : matcher :=
  compile (lit (T "ym(") ;; many is_space 0 ;; lit TARGET_ID ;;
           many is_space 0 ;; lit (T ",") ;; many is_space 0 ;; lit (T "'init'")).

(** [has_target_id(text)]. *)
Definition has_target_id (txt : text) : bool :=
  contains (T "metrika/tag.js?id=" ++ TARGET_ID) txt
  || contains (T "watch/" ++ TARGET_ID) txt
  || is_some (re_search RE_YM_TARGET txt).

(** [pattern.sub(callback, t)] for a callback that may set the
    enclosing [changed] flag: the new text, and whether some call set
    the flag. *)
Fixpoint re_sub_flag_from (m : matcher) (repl : text -> text * bool)
         (skip : nat) (t : text) : text * bool :=
  match t with
  | [] => ([], false)
  | c :: t' =>
      match skip with
      | S k => re_sub_flag_from m repl k t'
      | O =>
          match m t with
          | Some n =>
              let '(r, f) := repl (firstn n t) in
              let '(rest, g) := re_sub_flag_from m repl (n - 1) t' in
              (r ++ rest, f || g)
          | None =>
              let '(rest, g) := re_sub_flag_from m repl 0 t' in
              (c :: rest, g)
          end
      end
  end.

Definition re_sub_flag m repl t := re_sub_flag_from m repl 0 t.

(** [repl_tag] and [repl_watch]: [g0] is [m.group(0)], [old] is
    [m.group(1)]. *)
Definition repl_id (prefix : text) (g0 : text) : text * bool :=
  let old := skipn (length prefix) g0 in
  if negb (text_eqb old TARGET_ID)
  then (str_replace old TARGET_ID g0, true)
  else (g0, false).

Definition repl_tag := repl_id TAG_JS_PREFIX.
Definition repl_watch := repl_id WATCH_PREFIX.

(** [replace_other_id(text)].  The third substitution uses the lambda
    of the source, which does not touch [changed]. *)
Definition replace_other_id (txt : text) : text * bool :=
  let '(text_new, c1) := re_sub_flag RE_TAG_JS repl_tag txt in
  let '(text_new, c2) := re_sub_flag RE_WATCH repl_watch text_new in
  let text_new :=
    re_sub RE_YM_INIT (fun _ => T "ym(" ++ TARGET_ID ++ T ", 'init'") text_new in
  (text_new, c1 || c2).

(** [inject(text)]. *)
Definition inject (txt : text) : text * bool :=
  let lower := lower txt in
  let head_idx := rfind (T "</head>") lower in
  let body_idx := rfind (T "</body>") lower in
  let insert_at :=
    match head_idx with
    | Some i => Some i
    | None => body_idx
    end in
  match insert_at with
  | Some i => (firstn i txt ++ [nl] ++ SNIPPET ++ [nl] ++ skipn i txt, true)
  | None => (txt ++ [nl] ++ SNIPPET ++ [nl], true)
  end.

(** The body of the loop of [main] for one file. *)
Inductive kind := KUpdate | KAdd.

Record tally := {
  added : nat;
  updated : nat;
  skipped : nat;
  touched : list (kind * list text)
}.

Definition tally0 : tally :=
  {| added := 0; updated := 0; skipped := 0; touched := [] |}.

(** One file: its path, and its decoded content. *)
Definition file := (list text * text)%type.

(** One iteration: the tally after it, and the text written to the
    file ([None] when the file is not written). *)
Definition step (dry_run : bool) (st : tally) (f : file) : tally * option text :=
  let '(p, txt) := f in
  if has_target_id txt then
    ({| added := added st; updated := updated st;
        skipped := S (skipped st); touched := touched st |}, None)
  else
    let '(text2, changed) := replace_other_id txt in
    if changed then
      ({| added := added st; updated := S (updated st);
          skipped := skipped st; touched := touched st ++ [(KUpdate, p)] |},
       if negb dry_run then Some text2 else None)
    else
      let '(text3, injected) := inject txt in
      if injected then
        ({| added := S (added st); updated := updated st;
            skipped := skipped st; touched := touched st ++ [(KAdd, p)] |},
         if negb dry_run then Some text3 else None)
      else (st, None).

(** The file after an iteration. *)
Definition written (f : file) (w : option text) : file :=
  match w with
  | Some t => (fst f, t)
  | None => f
  end.

Definition member (a : text) (l : list text) : bool :=
  existsb (text_eqb a) l.

(** What [main] finds at a path that [rglob] yields.  [e_content] is
    the text [read_text] returns, after the retry that ignores the
    bytes that do not decode; it is [None] when reading raises another
    exception (a directory named like a page, a file that cannot be
    opened), which [main] does not catch.  [e_writable] tells whether
    [write_text] can open the file. *)
Record entry := {
  e_path : list text;
  e_content : option text;
  e_writable : bool
}.

(** The paths [main] visits: those named [*.html], then those named
    [*.htm], without those below [node_modules] or [.git]. *)
Definition selected (files : list entry) : list entry :=
  filter (fun f => negb (member (T "node_modules") (e_path f))
                   && negb (member (T ".git") (e_path f)))
         (filter (fun f => endswith (T ".html") (last (e_path f) [])) files
          ++ filter (fun f => endswith (T ".htm") (last (e_path f) [])) files).

(** How the loop of [main] ends: normally, with its counters, or with
    the exception raised at a path, before the summary is printed. *)
Inductive ending :=
| Finished (st : tally)
| Crashed (p : list text).

(** One iteration over an entry: [None] when an exception ends the
    run, else the tally and the entry as it is left. *)
Definition visit (dry_run : bool) (st : tally) (f : entry)
  : option (tally * entry) :=
  match e_content f with
  | None => None
  | Some txt =>
      let '(st1, w) := step dry_run st (e_path f, txt) in
      match w with
      | None => Some (st1, f)
      | Some t =>
          if e_writable f
          then Some (st1, {| e_path := e_path f; e_content := Some t;
                             e_writable := true |})
          else None
      end
  end.

(** The loop of [main]: how it ends, and the entries as they are left
    on disk. *)
Fixpoint run (dry_run : bool) (st : tally) (files : list entry)
  : ending * list entry :=
  match files with
  | [] => (Finished st, [])
  | f :: rest =>
      match visit dry_run st f with
      | None => (Crashed (e_path f), files)
      | Some (st1, f') =>
          let '(r, out) := run dry_run st1 rest in (r, f' :: out)
      end
  end.

Definition main (dry_run : bool) (files : list entry) : ending * list entry :=
  run dry_run tally0 (selected files).

End InjectMetrika.

(* ================================================================== *)
(** ** tools/generate_sitemap.py *)
(* ================================================================== *)

Module GenerateSitemap.
Import Py Re.
Local Open Scope re_scope.

Definition EXCLUDE_DIRS : list text :=
  [T ".git"; T ".github"; T "tools"; T "assets"; T "images"; T "img";
   T "fonts"; T "css"; T "js"; T "vendor"; T "node_modules"].

(** [EXCLUDE_FILES_RE], flags [(?xi)]:
    [^404\.html$ | ^CNAME$ | ^sitemap(\-index)?\.xml$ | ^rss\.xml$ |
     ^feed\.xml$ | ^atom\.xml$ | ^google[0-9a-zA-Z]+\.html$ |
     ^yandex_[0-9a-zA-Z]+\.html$], used with [.match(name)]. *)
Definition EXCLUDE_FILES_RE : matcher :=
  compile
    (alt (lit_ci (T "404.html") ;; eos)
    (alt (lit_ci (T "CNAME") ;; eos)
    (alt (lit_ci (T "sitemap") ;; alt (lit_ci (T "-index")) eps ;;
          lit_ci (T ".xml") ;; eos)
    (alt (lit_ci (T "rss.xml") ;; eos)
    (alt (lit_ci (T "feed.xml") ;; eos)
    (alt (lit_ci (T "atom.xml") ;; eos)
    (alt (lit_ci (T "google") ;; many is_alnum 1 ;; lit_ci (T ".html") ;; eos)
         (lit_ci (T "yandex_") ;; many is_alnum 1 ;; lit_ci (T ".html") ;; eos)))))))).

(** The alternatives of the pattern that can accept a name ending with
    [.html]. *)
Definition ALT_404 : pat := lit_ci (T "404.html") ;; eos.
Definition ALT_GOOGLE : pat :=
  lit_ci (T "google") ;; many is_alnum 1 ;; lit_ci (T ".html") ;; eos.
Definition ALT_YANDEX : pat :=
  lit_ci (T "yandex_") ;; many is_alnum 1 ;; lit_ci (T ".html") ;; eos.

(** A [datetime] in UTC without microseconds. *)
Record datetime := {
  year : Z; month : Z; day : Z; hour : Z; minute : Z; second : Z
}.

Definition digit (n : Z) : ascii := ascii_of_nat (48 + Z.to_nat (n mod 10)).
Definition d2 (n : Z) : text := [digit (n / 10); digit n].

(** Decimal form of a natural number, [str(n)]. *)
Fixpoint decimal_fuel (fuel : nat) (n : Z) (acc : text) : text :=
  match fuel with
  | O => acc
  | S f => if (n <? 10)%Z then digit n :: acc
           else decimal_fuel f (n / 10) (digit n :: acc)
  end.

Definition decimal (n : Z) : text := decimal_fuel (S (Z.to_nat (Z.log2 n))) n [].

(** [fmt_w3c(dt)]: [strftime('%Y-%m-%dT%H:%M:%SZ')].  The C library
    the scripts run on (glibc) writes [%Y] as the year in decimal
    without padding, so the year takes four characters from the year
    1000 on and fewer before; the other fields are padded to two. *)
Definition fmt_w3c (dt : datetime) : text :=
  decimal (year dt) ++ T "-" ++ d2 (month dt) ++ T "-" ++ d2 (day dt) ++ T "T"
  ++ d2 (hour dt) ++ T ":" ++ d2 (minute dt) ++ T ":" ++ d2 (second dt) ++ T "Z".

(** Order of [datetime] values. *)
Definition dt_key (d : datetime) : list Z :=
  [year d; month d; day d; hour d; minute d; second d].

Fixpoint lex_ltb (a b : list Z) : bool :=
  match a, b with
  | x :: a', y :: b' => (x <? y)%Z || ((x =? y)%Z && lex_ltb a' b')
  | [], _ :: _ => true
  | _, [] => false
  end.

Definition dt_ltb (a b : datetime) : bool := lex_ltb (dt_key a) (dt_key b).

(** [xml.sax.saxutils.escape]. *)
Definition escape (data : text) : text :=
  let data := str_replace (T "&") (T "&amp;") data in
  let data := str_replace (T ">") (T "&gt;") data in
  str_replace (T "<") (T "&lt;") data.

Definition path := list text.

Fixpoint as_posix (p : path) : text :=
  match p with
  | [] => T "."
  | [a] => a
  | a :: p' => a ++ T "/" ++ as_posix p'
  end.

Definition name (p : path) : text := last p [].
Definition parent (p : path) : path := removelast p.

(** [to_url(rel)]. *)
Definition to_url (BASE_URL : text) (rel : path) : text :=
  let rel_posix := as_posix rel in
  let url :=
    if endswith (T "index.html") rel_posix
    then T "/" ++ rstrip_by is_slash (as_posix (parent rel)) ++ T "/"
    else T "/" ++ rel_posix in
  let full := str_replace (T ":/") (T "://")
                (str_replace (T "//") (T "/") (BASE_URL ++ url)) in
  escape full.

Record item := { loc : text; lastmod : text; dt : datetime }.

(** A file of the tree: its path below ROOT and the [file_lastmod] the
    version-control history or the file system gives for it. *)
Definition file := (path * datetime)%type.

Definition member (a : text) (l : list text) : bool := existsb (text_eqb a) l.

(** The body of the loop of [collect] for one file. *)
Definition collect_step (BASE_URL : text) (items : list item) (f : file)
  : list item :=
  let '(p, d) := f in
  if existsb (fun part => member part EXCLUDE_DIRS) p then items
  else if is_some (EXCLUDE_FILES_RE (name p)) then items
  else items ++ [{| loc := to_url BASE_URL p; lastmod := fmt_w3c d; dt := d |}].

(** [items.sort(key=dt, reverse=True)]: latest first, and stable:
    entries with the same [dt] keep their order.  An entry is put in
    front of the first later entry that is not newer than it. *)
Fixpoint insert_desc (x : item) (l : list item) : list item :=
  match l with
  | [] => [x]
  | y :: l' => if dt_ltb (dt x) (dt y) then y :: insert_desc x l'
               else x :: l
  end.

Definition sort_desc (l : list item) : list item :=
  fold_right insert_desc [] l.

Definition rglob_html (tree : list file) : list file :=
  filter (fun f => endswith (T ".html") (name (fst f))) tree.


(** [sep.join(lines)]. *)
Fixpoint join (sep : text) (lines : list text) : text :=
  match lines with
  | [] => []
  | [l] => l
  | l :: ls => l ++ sep ++ join sep ls
  end.

Definition XML_DECL : text :=
  InjectMetrika.TQ "<?xml version=`1.0` encoding=`UTF-8`?>" ++ [nl].

Definition URLSET_OPEN : text :=
  InjectMetrika.TQ "<urlset xmlns=`http://www.sitemaps.org/schemas/sitemap/0.9`>" ++ [nl].

Definition INDEX_OPEN : text :=
  InjectMetrika.TQ "<sitemapindex xmlns=`http://www.sitemaps.org/schemas/sitemap/0.9`>" ++ [nl].

(** The text [write_sitemap(path, items)] writes. *)
Definition write_sitemap (items : list item) : text :=
  let head := XML_DECL ++ URLSET_OPEN in
  let tail := T "</urlset>" ++ [nl] in
  join [nl]
    ([head]
     ++ flat_map (fun it =>
          [T "  <url>";
           T "    <loc>" ++ loc it ++ T "</loc>";
           T "    <lastmod>" ++ lastmod it ++ T "</lastmod>";
           T "  </url>"]) items
     ++ [tail]).

(** The four lines of one reference of the index. *)
Definition index_entry (BASE_URL now : text) (p : text) : list text :=
  [T "  <sitemap>";
   T "    <loc>" ++ escape (BASE_URL ++ T "/" ++ p) ++ T "</loc>";
   T "    <lastmod>" ++ now ++ T "</lastmod>";
   T "  </sitemap>"].

(** The text [write_sitemap_index(path, parts)] writes; [now] is the
    clock at the call. *)
Definition write_sitemap_index (BASE_URL : text) (now : datetime)
           (parts : list text) : text :=
  let head := XML_DECL ++ INDEX_OPEN in
  let tail := T "</sitemapindex>" ++ [nl] in
  let now := fmt_w3c now in
  join [nl] ([head] ++ flat_map (index_entry BASE_URL now) parts ++ [tail]).

(** [range(0, stop, step)] for a positive [step]. *)
Definition range0 (stop step : Z) : list Z :=
  map (fun k => (Z.of_nat k * step)%Z)
      (List.seq 0 (Z.to_nat ((stop + step - 1) / step))).

(** [items[i:i + n]] for [0 <= i] and [0 <= n]. *)
Definition slice {A} (l : list A) (i n : Z) : list A :=
  firstn (Z.to_nat n) (skipn (Z.to_nat i) l).

Inductive fs_event :=
| Write (file_name : text) (content : text)
| UnlinkIfExists (file_name : text).

(** The partitioned branch of [main]: the loop over
    [range(0, len(items), MAX_URLS)]. *)
Definition partition (MAX_URLS : Z) (items : list item)
  : list (text * list item) :=
  map (fun i => (T "sitemap-" ++ decimal (i / MAX_URLS + 1) ++ T ".xml",
                 slice items i MAX_URLS))
      (range0 (Z.of_nat (length items)) MAX_URLS).

Definition main_index (BASE_URL : text) (now : datetime) : text :=
  XML_DECL ++ INDEX_OPEN
  ++ T "  <sitemap>" ++ [nl] ++ T "    <loc>"
  ++ escape (BASE_URL ++ T "/sitemap_index.xml") ++ T "</loc>" ++ [nl]
  ++ T "    <lastmod>" ++ fmt_w3c now ++ T "</lastmod>" ++ [nl]
  ++ T "  </sitemap>" ++ [nl]
  ++ T "</sitemapindex>" ++ [nl].

(** [main()] after [collect()], for a positive [MAX_URLS]: the files it
    writes or removes, in order.  [now1] and [now2] are the clock at
    the two places it is read. *)
Definition main (BASE_URL : text) (MAX_URLS : Z) (now1 now2 : datetime)
           (items : list item) : list fs_event :=
  if (Z.of_nat (length items) <=? MAX_URLS)%Z then
    [Write (T "sitemap.xml") (write_sitemap items);
     UnlinkIfExists (T "sitemap_index.xml")]
  else
    let chunks := partition MAX_URLS items in
    map (fun c => Write (fst c) (write_sitemap (snd c))) chunks
    ++ [Write (T "sitemap_index.xml")
              (write_sitemap_index BASE_URL now1 (map fst chunks));
        Write (T "sitemap.xml") (main_index BASE_URL now2)].

(** [ensure_robots()]: the content of robots.txt after the call;
    [robots] is its content before, [None] when the file does not
    exist. *)
Definition ensure_robots (BASE_URL : text) (robots : option text) : text :=
  let line := T "Sitemap: " ++ BASE_URL ++ T "/sitemap.xml" ++ [nl] in
  match robots with
  | Some txt =>
      if negb (contains (T "Sitemap:") txt)
      then rstrip_by is_space txt ++ [nl] ++ line
      else txt
  | None => T "User-agent: *" ++ [nl] ++ T "Allow: /" ++ [nl] ++ line
  end.

(** The lines [write_sitemap] writes for one entry, each with its line
    feed. *)
Definition url_block (it : item) : text :=
  T "  <url>" ++ [nl]
  ++ T "    <loc>" ++ loc it ++ T "</loc>" ++ [nl]
  ++ T "    <lastmod>" ++ lastmod it ++ T "</lastmod>" ++ [nl]
  ++ T "  </url>" ++ [nl].





End GenerateSitemap.

(* ================================================================== *)
(** ** tools/generate_rss.py *)
(* ================================================================== *)

Module GenerateRss.
Import Py Re.
Local Open Scope re_scope.

Definition EXCLUDE_DIRS : list text := GenerateSitemap.EXCLUDE_DIRS.

(** [EXCLUDE_FILES_REGEX], flags [(?xi)]:
    [^404\.html$ | ^CNAME$ | ^sitemap\.xml$ | ^rss\.xml$ | ^feed\.xml$ |
     ^atom\.xml$ | ^google[0-9a-zA-Z]+\.html$ | ^yandex_[0-9a-zA-Z]+\.html$]. *)
Definition EXCLUDE_FILES_REGEX : matcher :=
  compile
    (alt (lit_ci (T "404.html") ;; eos)
    (alt (lit_ci (T "CNAME") ;; eos)
    (alt (lit_ci (T "sitemap.xml") ;; eos)
    (alt (lit_ci (T "rss.xml") ;; eos)
    (alt (lit_ci (T "feed.xml") ;; eos)
    (alt (lit_ci (T "atom.xml") ;; eos)
    (alt (lit_ci (T "google") ;; many is_alnum 1 ;; lit_ci (T ".html") ;; eos)
         (lit_ci (T "yandex_") ;; many is_alnum 1 ;; lit_ci (T ".html") ;; eos)))))))).

Definition path := GenerateSitemap.path.

(** A time given to the second in UTC, as the sitemap generator keeps
    it. *)
Definition datetime := GenerateSitemap.datetime.

(** [to_url(rel)]: as in the sitemap generator, without escaping. *)
Definition to_url (BASE_URL : text) (rel : path) : text :=
  let rel_posix := GenerateSitemap.as_posix rel in
  let url :=
    if endswith (T "index.html") rel_posix
    then T "/" ++ rstrip_by is_slash
                    (GenerateSitemap.as_posix (GenerateSitemap.parent rel)) ++ T "/"
    else T "/" ++ rel_posix in
  str_replace (T ":/") (T "://") (str_replace (T "//") (T "/") (BASE_URL ++ url)).

(** An item of the feed; [time] is the type of its [dt_sort]. *)
Record feed_item (time : Type) := {
  title : text; link : text; guid : text; pubDate : text;
  dt_sort : time; description : text
}.

(** An item whose time is given to the second. *)
Definition item := feed_item datetime.

(** A file of the tree: its path, its text as [read_text_safe] returns
    it, and the time of its last commit or modification. *)
Record file (time : Type) := { f_path : path; f_text : text; f_dt : time }.

(** The time of a file as [collect_items] gets it,
    [git_last_commit_iso(path) or file_mtime_dt(path)]: an aware
    [datetime], not truncated.  [utc] is its time in UTC,
    [microsecond] its microseconds (a modification time has them) and
    [utcoffset] the offset of its zone in minutes (a commit time has
    one), which the formatting of the date reads. *)
Record aware := {
  utc : GenerateSitemap.datetime;
  microsecond : Z;
  utcoffset : Z
}.

(** Two aware [datetime] values compare as their instants: by the
    fields of their time in UTC, the microseconds last. *)
Definition utc_key (d : aware) : list Z :=
  GenerateSitemap.dt_key (utc d) ++ [microsecond d].

Section Collect.

(** The type of the times of the files, and the key by which two of
    them compare ([utc_key] for the aware [datetime] values of the
    script). *)
Variable time : Type.
Variable instant : time -> list Z.

(** Title and description extraction ([get_title], [get_description])
    and the RFC 2822 date rest on [html.unescape] and
    [email.utils.format_datetime] of the Python library. *)
Variable get_title : text -> text.
Variable get_description : text -> text.
Variable to_rfc2822 : time -> text.
Variable BASE_URL : text.

(** The body of the loop of [collect_items] for one file. *)
Definition collect_step (items : list (feed_item time)) (f : file time)
  : list (feed_item time) :=
  if existsb (fun part => GenerateSitemap.member part EXCLUDE_DIRS) (f_path f)
  then items
  else if is_some (EXCLUDE_FILES_REGEX (GenerateSitemap.name (f_path f)))
  then items
  else
    let title := get_title (f_text f) in
    if text_eqb title [] then items
    else
      let desc := get_description (f_text f) in
      let link := to_url BASE_URL (f_path f) in
      items ++ [{| title := title; link := link; guid := link;
                   pubDate := to_rfc2822 (f_dt f); dt_sort := f_dt f;
                   description := if text_eqb desc [] then title else desc |}].

(** [items.sort(key=dt_sort, reverse=True)]: latest first, stable. *)
Fixpoint insert_desc (x : feed_item time) (l : list (feed_item time))
  : list (feed_item time) :=
  match l with
  | [] => [x]
  | y :: l' => if GenerateSitemap.lex_ltb (instant (dt_sort x)) (instant (dt_sort y))
               then y :: insert_desc x l'
               else x :: l
  end.

Definition rglob_html (tree : list (file time)) : list (file time) :=
  filter (fun f => endswith (T ".html") (GenerateSitemap.name (f_path f))) tree.

(** [collect_items()]. *)
Definition collect_items (MAX_ITEMS : Z) (tree : list (file time))
  : list (feed_item time) :=
  let items := fold_left collect_step (rglob_html tree) [] in
  let items := fold_right insert_desc [] items in
  if (0 <? MAX_ITEMS)%Z then firstn (Z.to_nat MAX_ITEMS) items else items.

(** The files of which the feed has an item: in no excluded
    directory, without an excluded name, with a title. *)
Definition has_item (f : file time) : bool :=
  negb (existsb (fun part => GenerateSitemap.member part EXCLUDE_DIRS) (f_path f))
  && negb (is_some (EXCLUDE_FILES_REGEX (GenerateSitemap.name (f_path f))))
  && negb (text_eqb (get_title (f_text f)) []).

(** The item of a file: the description falls back on the title. *)
Definition item_of (f : file time) : feed_item time :=
  {| title := get_title (f_text f);
     link := to_url BASE_URL (f_path f);
     guid := to_url BASE_URL (f_path f);
     pubDate := to_rfc2822 (f_dt f);
     dt_sort := f_dt f;
     description := if text_eqb (get_description (f_text f)) []
                    then get_title (f_text f)
                    else get_description (f_text f) |}.

End Collect.

End GenerateRss.

(* ================================================================== *)
(** ** tools/generate_pages.py: [detect_base_url] *)
(* ================================================================== *)

Module GeneratePages.
Import Py.

Record environ := {
  env_SITE_DOMAIN : option text;
  env_GITHUB_REPOSITORY : option text
}.

Definition FALLBACK : text := T "https://dostup-world.github.io".

(** [detect_base_url()]; [cname] is the content of REPO/CNAME, [None]
    when the file does not exist.  The result is [None] when indexing
    the empty list of lines raises [IndexError]. *)
Definition detect_base_url (e : environ) (cname : option text) : option text :=
  let rest :=
    let env_domain :=
      rstrip_by is_slash
        (strip (FixCanonical.getenv (env_SITE_DOMAIN e) [])) in
    if startswith (T "http") env_domain then Some env_domain
    else
      let repo := FixCanonical.getenv (env_GITHUB_REPOSITORY e) [] in
      match split_first_slash repo with
      | (owner, Some name) =>
          if endswith (T ".github.io") name
          then Some (rstrip_by is_slash (T "https://" ++ name))
          else Some (rstrip_by is_slash
                       (T "https://" ++ owner ++ T ".github.io/" ++ name))
      | (_, None) => Some FALLBACK
      end in
  match cname with
  | Some content =>
      match FixCanonical.first_line (strip content) with
      | None => None
      | Some l =>
          let host := strip l in
          if negb (text_eqb host [])
          then Some (rstrip_by is_slash (T "https://" ++ host))
          else rest
      end
  | None => rest
  end.

(** [normalize_path(url)]. *)
Definition normalize_path (url : text) : text :=
  let url := strip url in
  let url := if negb (startswith (T "/") url) then T "/" ++ url else url in
  if negb (endswith (T "/") url) then url ++ T "/" else url.

(** [absolutize(url_path)]. *)
Definition absolutize (BASE_URL url_path : text) : text :=
  rstrip_by is_slash BASE_URL ++ normalize_path url_path.

(** [s.split(sep)] for a one-character separator; [cur] is the piece
    being read. *)
Fixpoint split_from (sep : ascii) (cur : text) (t : text) : list text :=
  match t with
  | [] => [cur]
  | c :: t' => if Ascii.eqb c sep then cur :: split_from sep [] t'
               else split_from sep (cur ++ [c]) t'
  end.

Definition split (sep : ascii) (t : text) : list text := split_from sep [] t.

(** [_split(s)]. *)
Definition _split (s : text) : list text :=
  let s := strip s in
  if text_eqb s [] then []
  else filter (fun x => negb (text_eqb x []))
              (map strip (split "|" s)).

(** A field of a list column: not empty, without white space around
    it, without the separator. *)
Definition list_field (x : text) : Prop :=
  x <> [] /\ strip x = x /\ forallb (fun c => negb (Ascii.eqb c "|")) x = true.

(** A row of the table, as [csv.DictReader] yields it for a line that
    has all its columns; only the fields read by [make_related]. *)
Record row := {
  row_url : text;
  row_service : text;
  row_category : text
}.

(** [a < b] on [str]: lexicographic, by code point. *)
Fixpoint text_ltb (a b : text) : bool :=
  match a, b with
  | x :: a', y :: b' =>
      (nat_of_ascii x <? nat_of_ascii y)
      || ((nat_of_ascii x =? nat_of_ascii y) && text_ltb a' b')
  | [], _ :: _ => true
  | _, [] => false
  end.

(** The sort key [(r.get(service), r.get(url))] and [<] on such
    tuples. *)
Definition key (r : row) : text * text := (row_service r, row_url r).

Definition key_ltb (a b : text * text) : bool :=
  if text_eqb (fst a) (fst b) then text_ltb (snd a) (snd b)
  else text_ltb (fst a) (fst b).

(** [pool.sort(key=...)]: ascending and stable; a row is put before
    the rows of an equal key that followed it. *)
Fixpoint insert_asc (x : row) (l : list row) : list row :=
  match l with
  | [] => [x]
  | y :: l' => if key_ltb (key y) (key x) then y :: insert_asc x l'
               else x :: l
  end.

Definition sort_asc (l : list row) : list row := fold_right insert_asc [] l.

(** The test of the comprehension of [make_related]. *)
Definition in_pool (cat cur_url : text) (r : row) : bool :=
  text_eqb (lower (strip (row_category r))) cat
  && negb (text_eqb (normalize_path (row_url r)) cur_url).

(** [make_related(all_rows, current_row, limit)], for [limit >= 0]. *)
Definition make_related (all_rows : list row) (current_row : row) (limit : nat)
  : list row :=
  let cat := lower (strip (row_category current_row)) in
  let cur_url := normalize_path (row_url current_row) in
  let pool := filter (in_pool cat cur_url) all_rows in
  firstn limit (sort_asc pool).

End GeneratePages.

(* ================================================================== *)
(** ** A direct reading of the canonical-link pattern

    The pattern [RE_CANONICAL] never matches across a [>]: its match at
    the head of a text is decided by the text up to the first [>].
    These functions state that reading without backtracking; they are
    proved equal to the matcher below. *)
(* ================================================================== *)

Module CanonicalPattern.
Import Py Re.

(** A sequence of one-character tests at the head of a text. *)
Fixpoint fixed (ps : list (ascii -> bool)) (t : text) : bool :=
  match ps, t with
  | [], _ => true
  | _ :: _, [] => false
  | f :: ps', c :: t' => f c && fixed ps' t'
  end.

Definition LINK : list (ascii -> bool) := map ci_eqb (T "<link").

Definition REL : list (ascii -> bool) :=
  map ci_eqb (T "rel=") ++ [is_quote] ++ map ci_eqb (T "canonical") ++ [is_quote].

(** Tests that all reject [>]. *)
Definition reject_gt (ps : list (ascii -> bool)) : Prop :=
  Forall (fun f => f ">"%char = false) ps.

(** The text after the first [>]. *)
Fixpoint after_gt (t : text) : option text :=
  match t with
  | [] => None
  | c :: t' => if not_gt c then after_gt t' else Some t'
  end.

(** Whether [rel=Qcanonical Q] starts at some offset [n >= lo] of [t]
    with no [>] among the first [n] characters. *)
Fixpoint rel_within (lo : nat) (t : text) : bool :=
  match t with
  | [] => false
  | c :: t' =>
      (if not_gt c then rel_within (pred lo) t' else false)
      || ((lo =? 0) && fixed REL t)
  end.

(** The tag after its [rel] attribute and before its closing [>]. *)
Definition TAG_TAIL (url : text) : text :=
  T " href=" ++ [dq] ++ url ++ [dq].

Definition canonical_direct (t : text) : option nat :=
  if fixed LINK t && rel_within 1 (skipn 5 t)
  then option_map (fun r => length t - length r) (after_gt (skipn 5 t))
  else None.

End CanonicalPattern.

(* ================================================================== *)
(** ** Reading a trace of file accesses *)
(* ================================================================== *)

Module Trace.
Import Py FixCanonical.

(** The paths read, in order. *)
Fixpoint reads (evs : list event) : list path :=
  match evs with
  | [] => []
  | ERead p :: evs' => p :: reads evs'
  | EWrite _ _ :: evs' => reads evs'
  end.

(** The paths written with the text written, in order. *)
Fixpoint writes (evs : list event) : list (path * text) :=
  match evs with
  | [] => []
  | ERead _ :: evs' => writes evs'
  | EWrite p h :: evs' => (p, h) :: writes evs'
  end.

(** The entries that cannot be read. *)
Definition unreadable (fs : list entry) : list entry :=
  filter (fun f => match snd f with None => true | Some _ => false end) fs.

End Trace.

(* ================================================================== *)
(** ** Runs of characters and slashes *)
(* ================================================================== *)

Module Runs.
Import Py.

(** Length of the longest prefix whose characters satisfy [f]. *)
Fixpoint run (f : ascii -> bool) (t : text) : nat :=
  match t with
  | c :: t' => if f c then S (run f t') else 0
  | [] => 0
  end.

Definition head_slash (t : text) : bool :=
  match t with
  | c :: _ => is_slash c
  | [] => false
  end.

(** No two slashes in a row. *)
Fixpoint no_double_slash (t : text) : bool :=
  match t with
  | c :: t' => negb (is_slash c && head_slash t') && no_double_slash t'
  | [] => true
  end.

(** The normalisation step of [build_canonical_for]. *)
Definition collapse (t : text) : text :=
  re_sub FixCanonical.RE_SLASHES (fun _ => T "/") t.

(** A path component: not empty, without a slash. *)
Definition component (part : text) : Prop := part <> [] /\ no_slash part.

End Runs.

(* ================================================================== *)
(** ** Character-wise reading of the XML escaping *)
(* ================================================================== *)

Module Escaping.
Import Py.

(** What [xml.sax.saxutils.escape] makes of one character. *)
Definition escape_char (c : ascii) : text :=
  if Ascii.eqb c "&" then T "&amp;"
  else if Ascii.eqb c ">" then T "&gt;"
  else if Ascii.eqb c "<" then T "&lt;"
  else [c].

(** Neither [<] nor [>]. *)
Definition not_angle (c : ascii) : bool :=
  negb (Ascii.eqb c "<") && negb (Ascii.eqb c ">").

(** None of the three characters [escape] rewrites. *)
Definition plain_char (c : ascii) : bool :=
  negb (Ascii.eqb c "&") && not_angle c.

(** A character of a host name or of a path component that the URL
    functions leave alone: no slash, no colon, none of [&], [<], [>]. *)
Definition url_char (c : ascii) : bool :=
  negb (is_slash c) && negb (Ascii.eqb c ":") && plain_char c.

Definition url_word (w : text) : Prop := w <> [] /\ forallb url_char w = true.

End Escaping.

(* ================================================================== *)
(** ** Order of instants and the entries a crawl keeps *)
(* ================================================================== *)

Module Orderings.
Import Py GenerateSitemap.

(** Neither key is before the other. *)
Definition lex_eqb (a b : list Z) : bool :=
  negb (lex_ltb a b) && negb (lex_ltb b a).

(** [a] is not older than [b], for entries sorted by [key]. *)
Definition not_older {A : Type} (key : A -> list Z) (a b : A) : Prop :=
  lex_ltb (key a) (key b) = false.

(** The row [a] may stand before the row [b] in an ascending list. *)
Definition in_order (a b : GeneratePages.row) : Prop :=
  GeneratePages.key_ltb (GeneratePages.key b) (GeneratePages.key a) = false.

End Orderings.

Module Crawl.
Import Py GenerateSitemap.



(** The entry [collect] makes of a file. *)
Definition item_of (BASE_URL : text) (f : file) : item :=
  {| loc := to_url BASE_URL (fst f); lastmod := fmt_w3c (snd f); dt := snd f |}.

End Crawl.

(* ================================================================== *)
(** ** Concrete inputs used in the examples below *)
(* ================================================================== *)

Module Samples.
Import Py.

Definition env_of (repo : string) : FixCanonical.environ :=
  {| FixCanonical.env_BASE_URL := None;
     FixCanonical.env_SITE_ROOT := None;
     FixCanonical.env_GITHUB_REPOSITORY := Some (T repo) |}.

Definition genv_of (repo : string) : GeneratePages.environ :=
  {| GeneratePages.env_SITE_DOMAIN := None;
     GeneratePages.env_GITHUB_REPOSITORY := Some (T repo) |}.

Definition ACME : text := T "https://acme.github.io".

(** A page whose only Metrika marker is the [ym] call of another
    counter. *)
Definition PAGE_OTHER_INIT : text :=
  T "<html><head><script>ym(12345, 'init', {});</script></head><body></body></html>".

(** A page whose script URL carries the target counter while its [ym]
    call and its image URL carry another one. *)
Definition PAGE_MIXED : text :=
  T "<head><script src='https://mc.yandex.ru/metrika/tag.js?id=103602117'></script><script>ym(12345, 'init', {});</script><img src='https://mc.yandex.ru/watch/12345'></head>".

Definition PAGE_EMPTY_HEAD : text := T "<head></head>".

Definition NOON : GenerateSitemap.datetime :=
  {| GenerateSitemap.year := 2024; GenerateSitemap.month := 6;
     GenerateSitemap.day := 1; GenerateSitemap.hour := 12;
     GenerateSitemap.minute := 0; GenerateSitemap.second := 0 |}.

Definition AN_ITEM : GenerateSitemap.item :=
  {| GenerateSitemap.loc := T "https://acme.github.io/";
     GenerateSitemap.lastmod := GenerateSitemap.fmt_w3c NOON;
     GenerateSitemap.dt := NOON |}.


Definition VERIFICATION_FILE : list text := [T "google1a2b3c.html"].

(** A page in which the text of a closing head tag occurs in a
    comment before the closing head tag itself. *)
Definition PAGE_TWO_HEAD_CLOSES : text :=
  T "<head><!-- </head> --><title>t</title></head><body></body>".

Definition ACME_ROOT : text := T "https://acme.github.io/".

(** A page in which removing one canonical link splices the text
    around it into another one. *)
Definition PAGE_SPLICED : text :=
  T "<head><li<link rel='canonical' href='a'>nk rel='canonical' href='b'></head>".

(** A page whose canonical link, for another address, writes its
    attribute values without quotes. *)
Definition PAGE_UNQUOTED : text :=
  T "<html><head><title>t</title><link rel=canonical href=https://old.example/page></head><body></body></html>".

(** Three rows of a table: two of one category, written with
    different case, and one of another. *)
Definition ROW_VPN : GeneratePages.row :=
  {| GeneratePages.row_url := T "/vpn/netflix/";
     GeneratePages.row_service := T "netflix";
     GeneratePages.row_category := T "Video" |}.

Definition ROW_HULU : GeneratePages.row :=
  {| GeneratePages.row_url := T "vpn/hulu";
     GeneratePages.row_service := T "hulu";
     GeneratePages.row_category := T " video " |}.

Definition ROW_BANK : GeneratePages.row :=
  {| GeneratePages.row_url := T "/bank/";
     GeneratePages.row_service := T "bank";
     GeneratePages.row_category := T "money" |}.

(** A small tree: a page, an unreadable page, a verification file and a
    style sheet. *)
Definition SMALL_TREE : list FixCanonical.entry :=
  [([T "index.html"], Some (T "<head></head>"));
   ([T "docs"; T "broken.html"], None);
   ([T "google1a2b3c.html"], Some (T "verification"));
   ([T "css"; T "site.css"], Some (T "body{}"))].

(** Two instants of the same second. *)
Definition NOON_SHARP : GenerateRss.aware :=
  {| GenerateRss.utc := NOON; GenerateRss.microsecond := 0;
     GenerateRss.utcoffset := 180 |}.

Definition NOON_LATER : GenerateRss.aware :=
  {| GenerateRss.utc := NOON; GenerateRss.microsecond := 250000;
     GenerateRss.utcoffset := 0 |}.

(** A small tree for the feed: a page with a commit time, a page
    modified later in the same second, and a verification file. *)
Definition FEED_TREE : list (GenerateRss.file GenerateRss.aware) :=
  [{| GenerateRss.f_path := [T "index.html"];
      GenerateRss.f_text := T "Home"; GenerateRss.f_dt := NOON_SHARP |};
   {| GenerateRss.f_path := [T "guide"; T "index.html"];
      GenerateRss.f_text := T "Guide"; GenerateRss.f_dt := NOON_LATER |};
   {| GenerateRss.f_path := [T "google1a2b3c.html"];
      GenerateRss.f_text := T "verification"; GenerateRss.f_dt := NOON_SHARP |}].

Definition PAGE_PLAIN : text :=
  T "<html><head><title>t</title></head><body><p>x</p></body></html>".

(** A page with three conflicting canonical links. *)
Definition PAGE_THREE_LINKS : text :=
  T "<html><head><link rel='canonical' href='https://a.example/'><LINK href='https://b.example/' REL='canonical'><title>t</title><link id='x' rel='canonical' href='https://c.example/'></head><body></body></html>".

(** A page of the site as the Metrika script finds it. *)
Definition A_PAGE (file_name : string) : InjectMetrika.entry :=
  {| InjectMetrika.e_path := [T file_name];
     InjectMetrika.e_content := Some PAGE_PLAIN;
     InjectMetrika.e_writable := true |}.

(** What the Metrika script finds below the root: a page, a directory
    named like a page, and another page. *)
Definition METRIKA_TREE : list InjectMetrika.entry :=
  [A_PAGE "index.html";
   {| InjectMetrika.e_path := [T "old.html"];
      InjectMetrika.e_content := None;
      InjectMetrika.e_writable := false |};
   A_PAGE "about.html"].

End Samples.

(* ================================================================== *)
(** * Properties *)
(* ================================================================== *)

(** ** Facts about the string primitives *)

Module PyFacts.
Import Py.

Lemma startswith_app (p t : text) : startswith p (p ++ t) = true.
Proof.
  induction p as [|a p IH]; simpl; [reflexivity|].
  rewrite Ascii.eqb_refl. exact IH.
Qed.

Lemma startswith_iff (p t : text) :
  startswith p t = true <-> exists r, t = p ++ r.
Proof.
  split.
  - revert t. induction p as [|a p IH]; intros t H.
    + exists t. reflexivity.
    + destruct t as [|b t]; simpl in H; [discriminate|].
      apply andb_true_iff in H. destruct H as [Hab H].
      apply Ascii.eqb_eq in Hab. subst b.
      destruct (IH _ H) as [r ->]. exists r. reflexivity.
  - intros [r ->]. apply startswith_app.
Qed.

Lemma startswith_refl (t : text) : startswith t t = true.
Proof.
  rewrite <- (app_nil_r t) at 2. apply startswith_app.
Qed.

Lemma text_eqb_eq (a b : text) : text_eqb a b = true <-> a = b.
Proof.
  unfold text_eqb. split.
  - intros H. apply andb_true_iff in H. destruct H as [Hl Hp].
    apply Nat.eqb_eq in Hl. apply startswith_iff in Hp.
    destruct Hp as [r ->]. rewrite length_app in Hl.
    assert (length r = 0) by lia.
    destruct r; [|discriminate]. now rewrite app_nil_r.
  - intros ->. rewrite Nat.eqb_refl, startswith_refl. reflexivity.
Qed.

Lemma text_eqb_refl (a : text) : text_eqb a a = true.
Proof. now apply text_eqb_eq. Qed.

Lemma text_eqb_neq (a b : text) : text_eqb a b = false <-> a <> b.
Proof.
  split.
  - intros H E. apply text_eqb_eq in E. congruence.
  - intros H. destruct (text_eqb a b) eqn:E; [|reflexivity].
    apply text_eqb_eq in E. contradiction.
Qed.

Lemma endswith_app (p t : text) : endswith p (t ++ p) = true.
Proof.
  unfold endswith. rewrite length_app.
  replace (length t + length p - length p) with (length t) by lia.
  rewrite skipn_app, skipn_all, Nat.sub_diag. simpl.
  rewrite startswith_refl.
  replace (length p <=? length t + length p) with true; [reflexivity|].
  symmetry. apply Nat.leb_le. lia.
Qed.

Lemma split_first_slash_app (a b : text) :
  no_slash a ->
  split_first_slash (a ++ T "/" ++ b) = (a, Some b).
Proof.
  unfold no_slash. induction a as [|c a IH]; intros H.
  - reflexivity.
  - simpl in H. apply andb_true_iff in H. destruct H as [Hc Ha].
    simpl. apply negb_true_iff in Hc. rewrite Hc.
    simpl in IH. rewrite (IH Ha). reflexivity.
Qed.

Lemma rstrip_by_snoc (f : ascii -> bool) (t : text) (c : ascii) :
  f c = false -> rstrip_by f (t ++ [c]) = t ++ [c].
Proof.
  intros Hc. induction t as [|x t IH].
  - simpl. now rewrite Hc.
  - unfold rstrip_by in *. simpl. rewrite IH.
    destruct (t ++ [c]) eqn:E; [|reflexivity].
    destruct t; discriminate.
Qed.

Lemma rstrip_by_last (f : ascii -> bool) (t : text) :
  t <> [] -> f (last t "/"%char) = false -> rstrip_by f t = t.
Proof.
  intros Hne Hl.
  destruct (exists_last Hne) as [t' [c ->]].
  rewrite last_last in Hl. now apply rstrip_by_snoc.
Qed.

Lemma no_slash_last (t : text) :
  no_slash t -> t <> [] -> is_slash (last t "/"%char) = false.
Proof.
  intros H Hne. destruct (exists_last Hne) as [t' [c ->]].
  rewrite last_last. unfold no_slash in H.
  rewrite forallb_app in H. apply andb_true_iff in H.
  destruct H as [_ H]. simpl in H. rewrite andb_true_r in H.
  now apply negb_true_iff in H.
Qed.

End PyFacts.

(** ** Site identity: the fallback chain of the base URL *)

Module BaseUrlFacts.
Import Py PyFacts Samples.

Lemma owner_and_name_app (owner name : text) :
  no_slash owner ->
  FixCanonical.owner_and_name (owner ++ T "/" ++ name) = (owner, name).
Proof.
  intros H. unfold FixCanonical.owner_and_name.
  now rewrite split_first_slash_app.
Qed.

Lemma https_name_rstrip (name : text) :
  endswith (T ".github.io") name = true ->
  rstrip_by is_slash (T "https://" ++ name) = T "https://" ++ name.
Proof.
  intros H. unfold endswith in H. apply andb_true_iff in H.
  destruct H as [Hlen H]. apply Nat.leb_le in Hlen.
  apply startswith_iff in H. destruct H as [r Hr].
  assert (Hr' : r = []).
  { apply (f_equal (@length ascii)) in Hr. rewrite length_skipn, length_app in Hr.
    destruct r; [reflexivity|]. simpl in Hr, Hlen. simpl in Hr. lia. }
  subst r. rewrite app_nil_r in Hr.
  rewrite <- (firstn_skipn (length name - length (T ".github.io")) name).
  rewrite Hr. change (T ".github.io") with (T ".github.i" ++ ["o"%char]).
  rewrite !app_assoc. now apply rstrip_by_snoc.
Qed.

(** C5. With no explicit override and no marker file, the repository
    identifier [owner/name] resolves to [https://name] when [name] ends
    with [.github.io], and otherwise, for non-empty owner and name, to
    [https://owner.github.io/name]; this holds for the resolver of
    fix_canonical.py and for the one of generate_pages.py. *)
Theorem fallback_chain (e : FixCanonical.environ) (g : GeneratePages.environ)
        (owner name : text) :
  no_slash owner -> no_slash name ->
  FixCanonical.BASE_URL e = [] ->
  FixCanonical.env_GITHUB_REPOSITORY e = Some (owner ++ T "/" ++ name) ->
  startswith (T "http")
    (rstrip_by is_slash (strip (FixCanonical.getenv (GeneratePages.env_SITE_DOMAIN g) [])))
    = false ->
  GeneratePages.env_GITHUB_REPOSITORY g = Some (owner ++ T "/" ++ name) ->
  (endswith (T ".github.io") name = true ->
     FixCanonical.resolve_base e None = FixCanonical.Return (T "https://" ++ name)
     /\ GeneratePages.detect_base_url g None = Some (T "https://" ++ name))
  /\
  (endswith (T ".github.io") name = false -> owner <> [] -> name <> [] ->
     FixCanonical.resolve_base e None
       = FixCanonical.Return (T "https://" ++ owner ++ T ".github.io/" ++ name)
     /\ GeneratePages.detect_base_url g None
       = Some (T "https://" ++ owner ++ T ".github.io/" ++ name)).
Proof.
  intros Ho Hn Hb Hr Hd Hg.
  assert (Hon : FixCanonical.OWNER e = owner /\ FixCanonical.REPO_NAME e = name).
  { unfold FixCanonical.OWNER, FixCanonical.REPO_NAME, FixCanonical.REPO.
    rewrite Hr. unfold FixCanonical.getenv.
    rewrite (owner_and_name_app name Ho). split; reflexivity. }
  destruct Hon as [HO HN].
  unfold FixCanonical.resolve_base, FixCanonical.detect_base_url,
    GeneratePages.detect_base_url.
  rewrite Hb, HO, HN, Hd, Hg. unfold FixCanonical.getenv.
  rewrite (split_first_slash_app name Ho).
  change (negb (text_eqb [] [])) with false. cbv iota.
  split.
  - intros He. rewrite He. split; [reflexivity|].
    now rewrite https_name_rstrip.
  - intros He Hone Hnne. rewrite He.
    apply text_eqb_neq in Hone, Hnne. rewrite Hone, Hnne. simpl negb. simpl andb.
    split; [reflexivity|]. f_equal.
    apply rstrip_by_last.
    + discriminate.
    + pose proof (no_slash_last Hn) as Hl.
      apply text_eqb_neq in Hnne. specialize (Hl Hnne).
      destruct (exists_last Hnne) as [n' [c ->]].
      rewrite !app_assoc. rewrite last_last.
      rewrite last_last in Hl. exact Hl.
Qed.

Lemma fallback_chain_witness :
  (FixCanonical.resolve_base (env_of "acme/acme.github.io") None
     = FixCanonical.Return (T "https://acme.github.io")
   /\ GeneratePages.detect_base_url (genv_of "acme/acme.github.io") None
     = Some (T "https://acme.github.io"))
  /\
  (FixCanonical.resolve_base (env_of "acme/widgets") None
     = FixCanonical.Return (T "https://acme.github.io/widgets")
   /\ GeneratePages.detect_base_url (genv_of "acme/widgets") None
     = Some (T "https://acme.github.io/widgets")).
Proof.
  split.
  - apply (@fallback_chain (env_of "acme/acme.github.io")
             (genv_of "acme/acme.github.io") (T "acme") (T "acme.github.io"));
      reflexivity.
  - apply (@fallback_chain (env_of "acme/widgets") (genv_of "acme/widgets")
             (T "acme") (T "widgets")); try reflexivity; discriminate.
Defined.

End BaseUrlFacts.

(** ** The entry point of fix_canonical.py without a base URL *)

Module FixCanonicalMainFacts.
Import Py PyFacts FixCanonical Samples.

(** C6. With no override, no marker file and no usable repository
    identifier, [main] ends with [SystemExit] carrying a non-empty
    message, the exit status is not zero, and no file was read or
    written. *)
Theorem no_base_url_is_fatal (e : environ) (root : string)
        (tree : option (list entry)) :
  BASE_URL e = [] ->
  endswith (T ".github.io") (REPO_NAME e) = false ->
  OWNER e = [] \/ REPO_NAME e = [] ->
  main e None root tree = (Raise (SystemExit MSG_NO_BASE_URL), [])
  /\ exit_status (fst (main e None root tree)) <> 0%Z
  /\ MSG_NO_BASE_URL <> EmptyString.
Proof.
  intros Hb He Hon.
  assert (Hm : main e None root tree = (Raise (SystemExit MSG_NO_BASE_URL), [])).
  { unfold main, resolve_base, detect_base_url. rewrite Hb, He.
    change (negb (text_eqb [] [])) with false. cbv iota.
    destruct Hon as [H|H]; rewrite H.
    - reflexivity.
    - change (text_eqb [] []) with true.
      rewrite andb_false_r. reflexivity. }
  split; [exact Hm|]. rewrite Hm. split; discriminate.
Qed.

Lemma no_base_url_is_fatal_witness :
  main (env_of "") None "/srv/site"
       (Some [([T "index.html"], Some (T "<head></head>"))])
    = (Raise (SystemExit MSG_NO_BASE_URL), [])
  /\ exit_status (fst (main (env_of "") None "/srv/site"
       (Some [([T "index.html"], Some (T "<head></head>"))]))) <> 0%Z
  /\ MSG_NO_BASE_URL <> EmptyString.
Proof.
  apply (@no_base_url_is_fatal (env_of "") "/srv/site"
           (Some [([T "index.html"], Some (T "<head></head>"))]));
    [reflexivity | reflexivity | left; reflexivity].
Defined.

End FixCanonicalMainFacts.

(** ** Directory-index collapsing *)

Module CanonicalizerFacts.
Import Py PyFacts Samples.

(** C4. The canonicalizers test the whole relative path for the suffix
    [index.html]: on [foo/myindex.html], whose final segment is not the
    index filename, fix_canonical.py answers [<base>/foo/my] and the
    sitemap generator answers [<base>/foo/], while
    [foo/bar/index.html] gives [<base>/foo/bar/] in both. *)
Theorem index_suffix_is_not_segment :
  FixCanonical.build_canonical_for [T "foo"; T "myindex.html"] ACME
    = T "https://acme.github.io/foo/my"
  /\ GenerateSitemap.to_url ACME [T "foo"; T "myindex.html"]
    = T "https://acme.github.io/foo/"
  /\ FixCanonical.build_canonical_for [T "foo"; T "bar"; T "index.html"] ACME
    = T "https://acme.github.io/foo/bar/"
  /\ GenerateSitemap.to_url ACME [T "foo"; T "bar"; T "index.html"]
    = T "https://acme.github.io/foo/bar/".
Proof. repeat split; vm_compute; reflexivity. Qed.

End CanonicalizerFacts.

(** ** The Metrika injector *)

Module InjectMetrikaFacts.
Import Py PyFacts InjectMetrika Samples.

(** C10. A document for which [has_target_id] holds is left as it is:
    the iteration only counts it as skipped and writes nothing, whatever
    the other markers carry. *)
Theorem target_marker_skips (dry_run : bool) (st : tally) (p : list text)
        (txt : text) :
  has_target_id txt = true ->
  step dry_run st (p, txt)
    = ({| added := added st; updated := updated st;
          skipped := S (skipped st); touched := touched st |}, None)
  /\ written (p, txt) (snd (step dry_run st (p, txt))) = (p, txt).
Proof.
  intros H. unfold step. rewrite H. split; reflexivity.
Qed.

Lemma target_marker_skips_witness :
  step false tally0 ([T "index.html"], PAGE_MIXED)
    = ({| added := 0; updated := 0; skipped := 1; touched := [] |}, None)
  /\ written ([T "index.html"], PAGE_MIXED)
       (snd (step false tally0 ([T "index.html"], PAGE_MIXED)))
     = ([T "index.html"], PAGE_MIXED).
Proof.
  apply (@target_marker_skips false tally0 [T "index.html"] PAGE_MIXED).
  vm_compute. reflexivity.
Defined.

(** C3. On a page whose only marker is [ym(12345, 'init'],
    [replace_other_id] rewrites the call but reports no change, so the
    iteration discards that text and writes the page with a second
    snippet added and the old call still in it. *)
Theorem init_only_page_not_repaired :
  has_target_id PAGE_OTHER_INIT = false
  /\ snd (replace_other_id PAGE_OTHER_INIT) = false
  /\ contains (T "ym(12345, 'init'") (fst (replace_other_id PAGE_OTHER_INIT)) = false
  /\ snd (step false tally0 ([T "index.html"], PAGE_OTHER_INIT))
     = Some (fst (inject PAGE_OTHER_INIT))
  /\ contains (T "ym(12345, 'init'") (fst (inject PAGE_OTHER_INIT)) = true
  /\ added (fst (step false tally0 ([T "index.html"], PAGE_OTHER_INIT))) = 1
  /\ updated (fst (step false tally0 ([T "index.html"], PAGE_OTHER_INIT))) = 0.
Proof. repeat split; vm_compute; reflexivity. Qed.

End InjectMetrikaFacts.

(** ** Re-running the canonical-link injection *)

Module RerunFacts.
Import Py PyFacts FixCanonical Samples.

(** C1. [ensure_canonical] removes the tag it inserted on the previous
    run but not the line feed that followed it, so a second run on an
    unchanged page yields a different text and the page is written
    again. *)
Theorem ensure_canonical_second_run_changes :
  let once := ensure_canonical PAGE_EMPTY_HEAD (T "https://acme.github.io/") in
  let twice := ensure_canonical once (T "https://acme.github.io/") in
  once = T "<head>" ++ canonical_tag (T "https://acme.github.io/") ++ [nl] ++ T "</head>"
  /\ twice = T "<head>" ++ [nl] ++ canonical_tag (T "https://acme.github.io/")
               ++ [nl] ++ T "</head>"
  /\ twice <> once
  /\ step ACME {| changed_files := 0; skipped_files := 0 |}
          ([T "index.html"], Some once)
     = ({| changed_files := 1; skipped_files := 0 |},
        [ERead [T "index.html"]; EWrite [T "index.html"] twice]).
Proof.
  cbv zeta. split; [vm_compute; reflexivity|].
  split; [vm_compute; reflexivity|].
  split; [|vm_compute; reflexivity].
  vm_compute. discriminate.
Qed.

End RerunFacts.

(** ** Partitioning of the sitemap *)

Module SitemapFacts.
Import Py PyFacts GenerateSitemap Samples.
Local Open Scope Z_scope.




Lemma slice_0 {A} (l : list A) (n : Z) : slice l 0 n = firstn (Z.to_nat n) l.
Proof. reflexivity. Qed.

End SitemapFacts.

(** ** Facts about the matchers *)

Module ReFacts.
Import Py PyFacts Re.

Lemma lower_char_idem (c : ascii) : lower_char (lower_char c) = lower_char c.
Proof.
  destruct c as [[] [] [] [] [] [] [] []]; vm_compute; reflexivity.
Qed.

Lemma ci_startswith_lower (p t : text) :
  ci_startswith p t = startswith (lower p) (lower t).
Proof.
  revert t. induction p as [|a p IH]; intros [|b t]; simpl; try reflexivity.
  rewrite IH. reflexivity.
Qed.

Lemma ci_startswith_app (p q t : text) :
  ci_startswith p t = true ->
  ci_startswith q (skipn (length p) t) = true ->
  ci_startswith (p ++ q) t = true.
Proof.
  revert t. induction p as [|a p IH]; intros t Hp Hq.
  - exact Hq.
  - destruct t as [|b t]; simpl in *; [discriminate|].
    apply andb_true_iff in Hp. destruct Hp as [Hab Hp].
    rewrite Hab. simpl. now apply IH.
Qed.

Lemma startswith_length (p t : text) :
  startswith p t = true -> length p <= length t.
Proof.
  intros H. apply startswith_iff in H. destruct H as [r ->].
  rewrite length_app. lia.
Qed.

Lemma endswith_iff (p t : text) :
  endswith p t = true <-> exists a, t = a ++ p.
Proof.
  split.
  - unfold endswith. intros H. apply andb_true_iff in H.
    destruct H as [Hl H]. apply Nat.leb_le in Hl.
    apply startswith_iff in H. destruct H as [r Hr].
    assert (r = []).
    { apply (f_equal (@length ascii)) in Hr.
      rewrite length_skipn, length_app in Hr.
      destruct r; [reflexivity|simpl in Hr; lia]. }
    subst r. rewrite app_nil_r in Hr.
    exists (firstn (length t - length p) t).
    rewrite <- Hr at 2. symmetry. apply firstn_skipn.
  - intros [a ->]. apply endswith_app.
Qed.

Lemma endswith_lower (p t : text) :
  endswith p t = true -> endswith (lower p) (lower t) = true.
Proof.
  intros H. apply endswith_iff in H. destruct H as [a ->].
  unfold lower. rewrite map_app. apply endswith_app.
Qed.

Lemma endswith_snoc (p : text) (a : ascii) (t : text) (c : ascii) :
  endswith (p ++ [a]) (t ++ [c]) = true -> a = c.
Proof.
  intros H. apply endswith_iff in H. destruct H as [x Hx].
  rewrite app_assoc in Hx. apply app_inj_tail in Hx. now destruct Hx.
Qed.

(** A literal followed by the end of the text, in a name that ends
    with [.html]: the name is the literal up to case. *)
Lemma ci_full_match (p name : text) :
  ci_startswith p name = true ->
  skipn (length p) name = [] \/ skipn (length p) name = [nl] ->
  endswith (T ".html") name = true ->
  lower name = lower p.
Proof.
  intros Hp Hrest Hhtml.
  rewrite ci_startswith_lower in Hp.
  pose proof (startswith_length _ _ Hp) as Hlen.
  unfold lower in Hlen. rewrite !length_map in Hlen.
  destruct Hrest as [Hr|Hr].
  - apply startswith_iff in Hp. destruct Hp as [r Hr'].
    assert (length name <= length p).
    { destruct (Nat.le_gt_cases (length name) (length p)) as [|Hgt]; [assumption|].
      apply (f_equal (@length ascii)) in Hr. rewrite length_skipn in Hr.
      simpl in Hr. lia. }
    apply (f_equal (@length ascii)) in Hr' as Hl.
    rewrite length_app in Hl. unfold lower in Hl. rewrite !length_map in Hl.
    destruct r; [|simpl in Hl; lia]. now rewrite app_nil_r in Hr'.
  - exfalso.
    rewrite <- (firstn_skipn (length p) name) in Hhtml. rewrite Hr in Hhtml.
    change (T ".html") with (T ".htm" ++ ["l"%char]) in Hhtml.
    apply endswith_snoc in Hhtml. discriminate.
Qed.

Lemma is_some_compile (p : pat) (t : text) :
  is_some (compile p t) = is_some (p t (fun r => Some r)).
Proof. unfold compile. now destruct (p t _). Qed.

Lemma is_some_alt (a b : pat) (t : text) (k : cont) :
  is_some (alt a b t k) = is_some (a t k) || is_some (b t k).
Proof. unfold alt. now destruct (a t k). Qed.

Lemma eos_some (t : text) (k : cont) :
  is_some (eos t k) = true -> t = [] \/ t = [nl].
Proof.
  unfold eos. destruct t as [|c [|]]; intros H; try discriminate.
  - now left.
  - right. destruct (Ascii.eqb c nl) eqn:E; [|discriminate].
    apply Ascii.eqb_eq in E. now subst.
Qed.

(** An alternative [^literal$] of the exclusion patterns. *)
Lemma literal_alternative (p name : text) :
  is_some (seq (lit_ci p) eos name (fun r => Some r)) = true ->
  endswith (T ".html") name = true ->
  lower name = lower p.
Proof.
  unfold seq, lit_ci. intros H Hh.
  destruct (ci_startswith p name) eqn:Hp; [|discriminate].
  apply eos_some in H. now apply ci_full_match.
Qed.

End ReFacts.

(** ** Excluded files *)

Module ExclusionFacts.
Import Py PyFacts Re ReFacts Samples.
Import GenerateSitemap(ALT_404, ALT_GOOGLE, ALT_YANDEX).
Local Open Scope re_scope.

Ltac not_html H Hh :=
  apply (fun h => literal_alternative _ _ h Hh) in H;
  apply endswith_lower in Hh; rewrite H in Hh;
  vm_compute in Hh; discriminate Hh.

(** Among the names that end with [.html], the sitemap pattern accepts
    only the 404 page and the two kinds of verification files. *)
Lemma excluded_html_cases (name : text) :
  is_some (GenerateSitemap.EXCLUDE_FILES_RE name) = true ->
  endswith (T ".html") name = true ->
  is_some (ALT_404 name (fun r => Some r)) = true
  \/ is_some (ALT_GOOGLE name (fun r => Some r)) = true
  \/ is_some (ALT_YANDEX name (fun r => Some r)) = true.
Proof.
  intros H Hh. unfold GenerateSitemap.EXCLUDE_FILES_RE in H.
  rewrite is_some_compile in H. rewrite !is_some_alt in H.
  repeat (apply orb_true_iff in H; destruct H as [H|H]).
  - now left.
  - not_html H Hh.
  - exfalso. unfold seq at 1 in H. unfold lit_ci at 1 in H.
    destruct (ci_startswith (T "sitemap") name) eqn:H1; [|discriminate].
    unfold seq at 1 in H. rewrite is_some_alt in H.
    apply orb_true_iff in H. destruct H as [H|H].
    + unfold lit_ci at 1 in H.
      destruct (ci_startswith (T "-index") _) eqn:H2; [|discriminate].
      unfold seq, lit_ci in H.
      destruct (ci_startswith (T ".xml") _) eqn:H3; [|discriminate].
      apply eos_some in H.
      pose proof (ci_startswith_app _ _ _ H1 H2) as H12.
      rewrite skipn_skipn in H3, H.
      change (length (T "-index") + length (T "sitemap"))
        with (length (T "sitemap" ++ T "-index")) in H3, H.
      pose proof (ci_startswith_app _ _ _ H12 H3) as H123.
      rewrite skipn_skipn in H.
      change (length (T ".xml") + length (T "sitemap" ++ T "-index"))
        with (length ((T "sitemap" ++ T "-index") ++ T ".xml")) in H.
      pose proof (ci_full_match _ _ H123 H Hh) as E.
      apply endswith_lower in Hh. rewrite E in Hh.
      vm_compute in Hh. discriminate Hh.
    + unfold eps, seq, lit_ci in H.
      destruct (ci_startswith (T ".xml") _) eqn:H3; [|discriminate].
      apply eos_some in H.
      pose proof (ci_startswith_app _ _ _ H1 H3) as H13.
      rewrite skipn_skipn in H.
      change (length (T ".xml") + length (T "sitemap"))
        with (length (T "sitemap" ++ T ".xml")) in H.
      pose proof (ci_full_match _ _ H13 H Hh) as E.
      apply endswith_lower in Hh. rewrite E in Hh.
      vm_compute in Hh. discriminate Hh.
  - not_html H Hh.
  - not_html H Hh.
  - not_html H Hh.
  - right. now left.
  - right. now right.
Qed.

Lemma rss_pattern_agrees (name : text) :
  is_some (ALT_404 name (fun r => Some r)) = true
  \/ is_some (ALT_GOOGLE name (fun r => Some r)) = true
  \/ is_some (ALT_YANDEX name (fun r => Some r)) = true ->
  is_some (GenerateRss.EXCLUDE_FILES_REGEX name) = true.
Proof.
  intros H. unfold GenerateRss.EXCLUDE_FILES_REGEX.
  rewrite is_some_compile. rewrite !is_some_alt.
  fold ALT_404 ALT_GOOGLE ALT_YANDEX.
  destruct H as [H|[H|H]]; rewrite H; rewrite ?orb_true_r; reflexivity.
Qed.

Lemma canonical_exclusion (name : text) :
  endswith (T ".html") name = true ->
  is_some (ALT_404 name (fun r => Some r)) = true
  \/ is_some (ALT_GOOGLE name (fun r => Some r)) = true
  \/ is_some (ALT_YANDEX name (fun r => Some r)) = true ->
  text_eqb (lower name) (T "404.html")
  || startswith (T "yandex_") (lower name)
  || startswith (T "google") (lower name) = true.
Proof.
  intros Hh [H|[H|H]].
  - apply (fun h => literal_alternative _ _ h Hh) in H.
    rewrite H. reflexivity.
  - unfold ALT_GOOGLE, seq in H. unfold lit_ci at 1 in H.
    destruct (ci_startswith (T "google") name) eqn:H1; [|discriminate].
    rewrite ci_startswith_lower in H1.
    change (lower (T "google")) with (T "google") in H1.
    rewrite H1. apply orb_true_r.
  - unfold ALT_YANDEX, seq in H. unfold lit_ci at 1 in H.
    destruct (ci_startswith (T "yandex_") name) eqn:H1; [|discriminate].
    rewrite ci_startswith_lower in H1.
    change (lower (T "yandex_")) with (T "yandex_") in H1.
    rewrite H1. rewrite orb_true_r. reflexivity.
Qed.

(** C8. For an HTML file whose name matches the exclusion pattern (the
    404 page, a Google or a Yandex verification file),
    [build_canonical_for] returns the empty URL, fix_canonical.py reads
    the file at most and never writes it, and neither [collect] of the
    sitemap generator nor [collect_items] of the RSS generator adds an
    entry for it. *)
Theorem excluded_file_is_skipped (p : list text) (base : text)
        (st : FixCanonical.counts) (content : option text)
        (BASE_URL : text) (d : GenerateSitemap.datetime)
        (sitemap_items : list GenerateSitemap.item)
        (get_title get_description : text -> text)
        (to_rfc2822 : GenerateRss.datetime -> text)
        (html_text : text) (rss_items : list GenerateRss.item) :
  endswith (T ".html") (GenerateSitemap.name p) = true ->
  is_some (GenerateSitemap.EXCLUDE_FILES_RE (GenerateSitemap.name p)) = true ->
  FixCanonical.build_canonical_for p base = []
  /\ snd (FixCanonical.step base st (p, content)) = [FixCanonical.ERead p]
  /\ FixCanonical.changed_files (fst (FixCanonical.step base st (p, content)))
     = FixCanonical.changed_files st
  /\ GenerateSitemap.collect_step BASE_URL sitemap_items (p, d) = sitemap_items
  /\ GenerateRss.collect_step get_title get_description to_rfc2822 BASE_URL
       rss_items
       {| GenerateRss.f_path := p; GenerateRss.f_text := html_text;
          GenerateRss.f_dt := d |}
     = rss_items.
Proof.
  intros Hh Hx.
  pose proof (excluded_html_cases _ Hx Hh) as Hc.
  assert (Hb : FixCanonical.build_canonical_for p base = []).
  { unfold FixCanonical.build_canonical_for.
    change (FixCanonical.name p) with (GenerateSitemap.name p).
    now rewrite (canonical_exclusion _ Hh Hc). }
  split; [exact Hb|].
  split; [|split; [|split]].
  - unfold FixCanonical.step. destruct content; [|reflexivity].
    rewrite Hb. reflexivity.
  - unfold FixCanonical.step. destruct content; [|reflexivity].
    rewrite Hb. reflexivity.
  - unfold GenerateSitemap.collect_step. rewrite Hx.
    now destruct (existsb _ p).
  - unfold GenerateRss.collect_step. cbn [GenerateRss.f_path].
    rewrite (rss_pattern_agrees _ Hc). now destruct (existsb _ p).
Qed.

Lemma excluded_file_is_skipped_witness :
  FixCanonical.build_canonical_for VERIFICATION_FILE ACME = []
  /\ snd (FixCanonical.step ACME
            {| FixCanonical.changed_files := 0; FixCanonical.skipped_files := 0 |}
            (VERIFICATION_FILE, Some PAGE_EMPTY_HEAD))
     = [FixCanonical.ERead VERIFICATION_FILE]
  /\ FixCanonical.changed_files
       (fst (FixCanonical.step ACME
            {| FixCanonical.changed_files := 0; FixCanonical.skipped_files := 0 |}
            (VERIFICATION_FILE, Some PAGE_EMPTY_HEAD))) = 0
  /\ GenerateSitemap.collect_step ACME [] (VERIFICATION_FILE, NOON) = []
  /\ GenerateRss.collect_step (fun t => t) (fun t => t)
       GenerateSitemap.fmt_w3c ACME []
       {| GenerateRss.f_path := VERIFICATION_FILE;
          GenerateRss.f_text := PAGE_EMPTY_HEAD; GenerateRss.f_dt := NOON |}
     = [].
Proof.
  apply (@excluded_file_is_skipped VERIFICATION_FILE ACME
           {| FixCanonical.changed_files := 0; FixCanonical.skipped_files := 0 |}
           (Some PAGE_EMPTY_HEAD) ACME NOON [] (fun t => t) (fun t => t)
           GenerateSitemap.fmt_w3c PAGE_EMPTY_HEAD []);
    vm_compute; reflexivity.
Defined.

End ExclusionFacts.

(** ** Where the injectors insert *)

Module AnchorFacts.
Import Py PyFacts Re ReFacts Samples.

Lemma rfind_none (p t : text) :
  p <> [] -> rfind p t = None -> forall j, startswith p (skipn j t) = false.
Proof.
  intros Hp. induction t as [|c t IH]; intros H j.
  - rewrite skipn_nil. destruct p; [contradiction|reflexivity].
  - simpl in H. destruct (rfind p t) eqn:E; [discriminate|].
    destruct j as [|j].
    + simpl skipn. destruct (startswith p (c :: t)); [discriminate|reflexivity].
    + simpl skipn. now apply IH.
Qed.

Lemma rfind_some (p t : text) (i : nat) :
  p <> [] -> rfind p t = Some i ->
  startswith p (skipn i t) = true
  /\ forall j, i < j -> startswith p (skipn j t) = false.
Proof.
  intros Hp. revert i. induction t as [|c t IH]; intros i H.
  - simpl in H. destruct p; [contradiction|discriminate].
  - simpl in H. destruct (rfind p t) as [i'|] eqn:E.
    + injection H as <-. destruct (IH _ eq_refl) as [H1 H2].
      split; [exact H1|]. intros [|j] Hj; [lia|]. apply H2. lia.
    + destruct (startswith p (c :: t)) eqn:Es; [|discriminate].
      injection H as <-. split; [exact Es|].
      intros [|j] Hj; [lia|]. simpl skipn. now apply rfind_none.
Qed.

Lemma re_search_none (m : matcher) (t : text) :
  re_search m t = None -> forall q, m (skipn q t) = None.
Proof.
  induction t as [|c t IH]; intros H q.
  - rewrite skipn_nil. simpl in H. now destruct (m []).
  - simpl in H. destruct (m (c :: t)) eqn:E; [discriminate|].
    destruct q as [|q]; [exact E|]. simpl skipn. apply IH.
    destruct (re_search m t) as [[? ?]|]; [discriminate|reflexivity].
Qed.

Lemma re_search_some (m : matcher) (t : text) (i n : nat) :
  re_search m t = Some (i, n) ->
  m (skipn i t) = Some n /\ forall q, q < i -> m (skipn q t) = None.
Proof.
  revert i. induction t as [|c t IH]; intros i H.
  - simpl in H. destruct (m []) eqn:E; [|discriminate].
    injection H as <- <-. split; [exact E|]. intros q Hq. lia.
  - simpl in H. destruct (m (c :: t)) eqn:E.
    + injection H as <- <-. split; [exact E|]. intros q Hq. lia.
    + destruct (re_search m t) as [[i' n']|] eqn:Er; [|discriminate].
      injection H as <- <-. destruct (IH _ eq_refl) as [H1 H2].
      split; [exact H1|]. intros [|q] Hq; [exact E|].
      simpl skipn. apply H2. lia.
Qed.

(** Where the two injectors cut the text.  The Metrika injector cuts
    at the index of the last [</head>] of the lowered text, else of
    the last [</body>], else it appends.  The canonical-link injector
    cuts the text left by the removal pass before the first match of
    the closing-head pattern, searching from the start, else it
    prepends; the robots repair then runs over the whole text. *)
Theorem insertion_points (txt html url : text) :
  let cleaned := FixCanonical.remove_canonical html in
  let tag := FixCanonical.canonical_tag url in
  (forall i, rfind (T "</head>") (lower txt) = Some i ->
     InjectMetrika.inject txt
       = (firstn i txt ++ [nl] ++ InjectMetrika.SNIPPET ++ [nl] ++ skipn i txt, true)
     /\ startswith (T "</head>") (skipn i (lower txt)) = true
     /\ forall j, i < j -> startswith (T "</head>") (skipn j (lower txt)) = false)
  /\ (forall i, rfind (T "</head>") (lower txt) = None ->
      rfind (T "</body>") (lower txt) = Some i ->
     InjectMetrika.inject txt
       = (firstn i txt ++ [nl] ++ InjectMetrika.SNIPPET ++ [nl] ++ skipn i txt, true)
     /\ startswith (T "</body>") (skipn i (lower txt)) = true
     /\ forall j, (i < j -> startswith (T "</body>") (skipn j (lower txt)) = false)
                  /\ startswith (T "</head>") (skipn j (lower txt)) = false)
  /\ (rfind (T "</head>") (lower txt) = None ->
      rfind (T "</body>") (lower txt) = None ->
      InjectMetrika.inject txt
        = (txt ++ [nl] ++ InjectMetrika.SNIPPET ++ [nl], true))
  /\ (forall pos n, re_search FixCanonical.RE_HEAD_CLOSE cleaned = Some (pos, n) ->
      FixCanonical.ensure_canonical html url
        = FixCanonical.fix_robots
            (firstn pos cleaned ++ tag ++ [nl] ++ skipn pos cleaned)
      /\ FixCanonical.RE_HEAD_CLOSE (skipn pos cleaned) = Some n
      /\ forall q, q < pos -> FixCanonical.RE_HEAD_CLOSE (skipn q cleaned) = None)
  /\ (re_search FixCanonical.RE_HEAD_CLOSE cleaned = None ->
      FixCanonical.ensure_canonical html url
        = tag ++ [nl] ++ FixCanonical.fix_robots cleaned
      /\ forall q, FixCanonical.RE_HEAD_CLOSE (skipn q cleaned) = None).
Proof.
  intros cleaned tag.
  assert (Hh : T "</head>" <> []) by discriminate.
  assert (Hb : T "</body>" <> []) by discriminate.
  split; [|split; [|split; [|split]]].
  - intros i H. unfold InjectMetrika.inject. rewrite H.
    split; [reflexivity|]. now apply rfind_some.
  - intros i H1 H2. unfold InjectMetrika.inject. rewrite H1, H2.
    split; [reflexivity|]. destruct (rfind_some _ Hb H2) as [H3 H4].
    split; [exact H3|]. intros j. split; [apply H4|].
    now apply rfind_none.
  - intros H1 H2. unfold InjectMetrika.inject. now rewrite H1, H2.
  - intros pos n H. unfold FixCanonical.ensure_canonical,
      FixCanonical.insert_before_head.
    fold cleaned. fold tag. rewrite H. split; [reflexivity|].
    now apply re_search_some.
  - intros H. unfold FixCanonical.ensure_canonical,
      FixCanonical.insert_before_head.
    fold cleaned. fold tag. rewrite H. split; [reflexivity|].
    now apply re_search_none.
Qed.

Lemma insertion_points_witness :
  InjectMetrika.inject PAGE_PLAIN
    = (firstn 28 PAGE_PLAIN ++ [nl] ++ InjectMetrika.SNIPPET ++ [nl]
         ++ skipn 28 PAGE_PLAIN, true)
  /\ FixCanonical.ensure_canonical PAGE_PLAIN ACME_ROOT
     = FixCanonical.fix_robots
         (firstn 28 (FixCanonical.remove_canonical PAGE_PLAIN)
            ++ FixCanonical.canonical_tag ACME_ROOT ++ [nl]
            ++ skipn 28 (FixCanonical.remove_canonical PAGE_PLAIN)).
Proof.
  destruct (insertion_points PAGE_PLAIN PAGE_PLAIN ACME_ROOT)
    as (H1 & _ & _ & H4 & _).
  split.
  - apply (H1 28). vm_compute. reflexivity.
  - apply (H4 28 7). vm_compute. reflexivity.
Defined.

(** C9. The canonical-link injector does not search from the end.
    The page has no canonical link and the text of a closing head tag
    in a comment before the closing head tag itself, which is at offset
    38.  [ensure_canonical] cuts at offset 11, so the new link lands
    inside the comment and not before the closing tag; the Metrika
    injector, given the same page, cuts at offset 38. *)
Theorem canonical_uses_first_anchor :
  PAGE_TWO_HEAD_CLOSES
    = T "<head><!-- </head> --><title>t</title></head><body></body>"
  /\ FixCanonical.remove_canonical PAGE_TWO_HEAD_CLOSES = PAGE_TWO_HEAD_CLOSES
  /\ rfind (T "</head>") (lower PAGE_TWO_HEAD_CLOSES) = Some 38
  /\ FixCanonical.ensure_canonical PAGE_TWO_HEAD_CLOSES ACME_ROOT
     = T "<head><!-- "
       ++ InjectMetrika.TQ "<link rel=`canonical` href=`https://acme.github.io/`>"
       ++ [nl] ++ T "</head> --><title>t</title></head><body></body>"
  /\ FixCanonical.ensure_canonical PAGE_TWO_HEAD_CLOSES ACME_ROOT
     <> T "<head><!-- </head> --><title>t</title>"
        ++ InjectMetrika.TQ "<link rel=`canonical` href=`https://acme.github.io/`>"
        ++ [nl] ++ T "</head><body></body>"
  /\ fst (InjectMetrika.inject PAGE_TWO_HEAD_CLOSES)
     = T "<head><!-- </head> --><title>t</title>"
       ++ [nl] ++ InjectMetrika.SNIPPET ++ [nl] ++ T "</head><body></body>".
Proof.
  split; [reflexivity|].
  split; [vm_compute; reflexivity|].
  split; [vm_compute; reflexivity|].
  split; [vm_compute; reflexivity|].
  split; [vm_compute; discriminate|].
  vm_compute. reflexivity.
Qed.

End AnchorFacts.

(** ** The canonical-link pattern without backtracking *)

Module CanonicalPatternFacts.
Import Py PyFacts Re ReFacts CanonicalPattern.

Lemma ci_startswith_fixed (p t : text) :
  ci_startswith p t = fixed (map ci_eqb p) t.
Proof.
  revert t. induction p as [|a p IH]; intros [|c t]; simpl; try reflexivity.
  now rewrite IH.
Qed.

Lemma fixed_app (ps qs : list (ascii -> bool)) (t : text) :
  fixed (ps ++ qs) t = fixed ps t && fixed qs (skipn (length ps) t).
Proof.
  revert t. induction ps as [|f ps IH]; intros t.
  - reflexivity.
  - destruct t as [|c t]; simpl.
    + now destruct (ps ++ qs).
    + rewrite IH. now rewrite andb_assoc.
Qed.

Lemma reject_gt_LINK : reject_gt LINK.
Proof. repeat constructor. Qed.

Lemma reject_gt_REL : reject_gt REL.
Proof. repeat constructor. Qed.

Lemma not_gt_false (c : ascii) : not_gt c = false -> c = ">"%char.
Proof.
  unfold not_gt. intros H. apply negb_false_iff in H.
  now apply Ascii.eqb_eq in H.
Qed.

Lemma fixed_not_gt (ps : list (ascii -> bool)) (t : text) :
  reject_gt ps -> fixed ps t = true ->
  forallb not_gt (firstn (length ps) t) = true /\ length ps <= length t.
Proof.
  intros Hr. revert t. induction Hr as [|f ps Hf Hr IH]; intros t H.
  - split; [reflexivity|simpl; lia].
  - destruct t as [|c t]; simpl in H; [discriminate|].
    apply andb_true_iff in H. destruct H as [Hc H].
    destruct (IH _ H) as [H1 H2]. simpl. rewrite H1. split; [|lia].
    destruct (not_gt c) eqn:E; [reflexivity|].
    apply not_gt_false in E. subst c. congruence.
Qed.

(** Up to and including a [>], what follows does not matter. *)
Lemma fixed_gt_indep (ps : list (ascii -> bool)) (u z1 z2 : text) :
  reject_gt ps ->
  fixed ps (u ++ ">"%char :: z1) = fixed ps (u ++ ">"%char :: z2).
Proof.
  intros Hr. revert u. induction Hr as [|f ps Hf Hr IH]; intros u.
  - reflexivity.
  - destruct u as [|c u]; simpl.
    + now rewrite Hf.
    + now rewrite IH.
Qed.

Lemma fixed_gt_length (ps : list (ascii -> bool)) (u z : text) :
  reject_gt ps -> fixed ps (u ++ ">"%char :: z) = true -> length ps <= length u.
Proof.
  intros Hr. revert u. induction Hr as [|f ps Hf Hr IH]; intros u H.
  - simpl. lia.
  - destruct u as [|c u]; simpl in H.
    + rewrite Hf in H. discriminate.
    + apply andb_true_iff in H. destruct H as [_ H].
      apply IH in H. simpl. lia.
Qed.

Lemma fixed_prefix (ps : list (ascii -> bool)) (u z : text) :
  fixed ps u = true -> fixed ps (u ++ z) = true.
Proof.
  revert u. induction ps as [|f ps IH]; intros u H.
  - reflexivity.
  - destruct u as [|c u]; simpl in *; [discriminate|].
    apply andb_true_iff in H. destruct H as [Hc H].
    rewrite Hc. now apply IH.
Qed.

Lemma fixed_long (ps : list (ascii -> bool)) (u z : text) :
  length ps <= length u -> fixed ps (u ++ z) = fixed ps u.
Proof.
  revert u. induction ps as [|f ps IH]; intros u H.
  - reflexivity.
  - destruct u as [|c u]; simpl in *; [lia|].
    rewrite IH by lia. reflexivity.
Qed.

Lemma after_gt_app (u t : text) :
  forallb not_gt u = true -> after_gt (u ++ t) = after_gt t.
Proof.
  induction u as [|c u IH]; intros H; [reflexivity|].
  simpl in H. apply andb_true_iff in H. destruct H as [Hc H].
  simpl. rewrite Hc. now apply IH.
Qed.

Lemma after_gt_length (t r : text) :
  after_gt t = Some r -> length r < length t.
Proof.
  revert r. induction t as [|c t IH]; intros r H; [discriminate|].
  simpl in H. destruct (not_gt c).
  - apply IH in H. simpl. lia.
  - injection H as <-. simpl. lia.
Qed.

Lemma many_cons (f : ascii -> bool) (lo : nat) (c : ascii) (t : text) (k : cont) :
  many f lo (c :: t) k
  = if f c then
      match many f (pred lo) t k with
      | Some r => Some r
      | None => if lo =? 0 then k (c :: t) else None
      end
    else if lo =? 0 then k (c :: t) else None.
Proof. reflexivity. Qed.

Lemma lit_gt_cons (c : ascii) (t : text) (k : cont) :
  lit (T ">") (c :: t) k = if not_gt c then None else k t.
Proof.
  unfold lit, not_gt. cbn [T list_ascii_of_string startswith length skipn].
  rewrite Ascii.eqb_sym. destruct (Ascii.eqb c ">"); reflexivity.
Qed.

(** The closing part [[^>]*>] of the pattern. *)
Lemma close_gt (t : text) (k : cont) :
  many not_gt 0 t (fun r => lit (T ">") r k)
  = match after_gt t with Some r => k r | None => None end.
Proof.
  induction t as [|c t IH]; [reflexivity|].
  rewrite many_cons. change (pred 0) with 0. rewrite IH.
  change (0 =? 0) with true. cbv iota. rewrite lit_gt_cons.
  simpl after_gt. destruct (not_gt c).
  - now destruct (after_gt t) as [r|]; [destruct (k r)|].
  - reflexivity.
Qed.

(** The part [rel=Qcanonical Q] of the pattern. *)
Lemma rel_part (t : text) (k : cont) :
  lit_ci (T "rel=") t (fun r1 => cls is_quote r1 (fun r2 =>
    lit_ci (T "canonical") r2 (fun r3 => cls is_quote r3 k)))
  = if fixed REL t then k (skipn 15 t) else None.
Proof.
  unfold lit_ci, cls, REL.
  do 15 (destruct t as [|? t];
         [cbn -[ci_eqb is_quote];
          repeat (first [reflexivity
                        | rewrite andb_false_r
                        | match goal with
                          | |- context [ci_eqb ?a ?c] => destruct (ci_eqb a c)
                          | |- context [is_quote ?c] => destruct (is_quote c)
                          end; cbn -[ci_eqb is_quote]])|]).
  cbn -[ci_eqb is_quote].
  repeat (first [reflexivity
                | match goal with
                  | |- (if ?b && _ then _ else _) = _ => destruct b
                  | |- (if ?b then _ else _) = _ => destruct b
                  end; cbn -[ci_eqb is_quote]]).
Qed.

Lemma many_ext (f : ascii -> bool) (lo : nat) (t : text) (k1 k2 : cont) :
  (forall r, k1 r = k2 r) -> many f lo t k1 = many f lo t k2.
Proof.
  intros H. revert lo. induction t as [|c t IH]; intros lo.
  - simpl. now rewrite H.
  - rewrite !many_cons. rewrite (IH (pred lo)). now rewrite H.
Qed.

Lemma after_gt_fixed_REL (t : text) :
  fixed REL t = true -> after_gt (skipn 15 t) = after_gt t.
Proof.
  intros H. apply (@fixed_not_gt _ _ reject_gt_REL) in H. destruct H as [H _].
  rewrite <- (firstn_skipn 15 t) at 2. symmetry. now apply after_gt_app.
Qed.

(** What follows the first [[^>]+] of the pattern. *)
Lemma rel_and_close (t : text) :
  lit_ci (T "rel=") t (fun r1 => cls is_quote r1 (fun r2 =>
    lit_ci (T "canonical") r2 (fun r3 => cls is_quote r3 (fun r4 =>
      many not_gt 0 r4 (fun r5 => lit (T ">") r5 (fun r => Some r))))))
  = if fixed REL t then after_gt t else None.
Proof.
  rewrite rel_part. destruct (fixed REL t) eqn:E; [|reflexivity].
  rewrite close_gt. rewrite (after_gt_fixed_REL _ E).
  now destruct (after_gt t).
Qed.

Lemma many_rel (lo : nat) (t : text) :
  many not_gt lo t (fun r => if fixed REL r then after_gt r else None)
  = if rel_within lo t then after_gt t else None.
Proof.
  revert lo. induction t as [|c t IH]; intros lo.
  - simpl. now destruct (lo =? 0).
  - rewrite many_cons. rewrite IH. simpl rel_within. simpl after_gt.
    destruct (not_gt c) eqn:Ec.
    + destruct (rel_within (pred lo) t).
      * simpl orb. destruct (after_gt t); [reflexivity|].
        destruct (lo =? 0); [|reflexivity]. now destruct (fixed REL (c :: t)).
      * simpl orb. destruct (lo =? 0); [|reflexivity].
        simpl andb. reflexivity.
    + apply not_gt_false in Ec. subst c.
      simpl orb. replace (fixed REL (">"%char :: t)) with false by reflexivity.
      rewrite andb_false_r. now destruct (lo =? 0).
Qed.

(** The matcher and its direct reading agree. *)
Theorem canonical_direct_eq (t : text) :
  FixCanonical.RE_CANONICAL t = canonical_direct t.
Proof.
  unfold FixCanonical.RE_CANONICAL, compile, canonical_direct, seq.
  unfold lit_ci at 1. rewrite ci_startswith_fixed. unfold LINK.
  destruct (fixed (map ci_eqb (T "<link")) t); [|reflexivity]. cbn [andb].
  change (length (T "<link")) with 5.
  rewrite (many_ext _ _ _ _ _ rel_and_close).
  rewrite many_rel.
  destruct (rel_within 1 (skipn 5 t)); [|reflexivity].
  now destruct (after_gt (skipn 5 t)).
Qed.

Lemma rel_within_gt_indep (lo : nat) (u z1 z2 : text) :
  rel_within lo (u ++ ">"%char :: z1) = rel_within lo (u ++ ">"%char :: z2).
Proof.
  revert lo. induction u as [|c u IH]; intros lo.
  - reflexivity.
  - pose proof (fixed_gt_indep (c :: u) z1 z2 reject_gt_REL) as E.
    simpl app in *. cbn [rel_within]. rewrite (IH (pred lo)).
    now rewrite E.
Qed.

Lemma forallb_skipn {A} (f : A -> bool) (n : nat) (l : list A) :
  forallb f l = true -> forallb f (skipn n l) = true.
Proof.
  revert l. induction n as [|n IH]; intros [|x l] H; try assumption.
  simpl in H. apply andb_true_iff in H. simpl. now apply IH.
Qed.

(** Locality: up to a [>], the continuation of the text does not
    decide whether the pattern matches. *)
Lemma canonical_local (u z1 z2 : text) :
  forallb not_gt u = true ->
  canonical_direct (u ++ ">"%char :: z1) = None ->
  canonical_direct (u ++ ">"%char :: z2) = None.
Proof.
  intros Hu. unfold canonical_direct.
  rewrite (fixed_gt_indep u z1 z2 reject_gt_LINK).
  destruct (fixed LINK (u ++ ">"%char :: z2)) eqn:E; [|reflexivity].
  apply (fixed_gt_length _ _ reject_gt_LINK) in E. change (length LINK) with 5 in E.
  rewrite !skipn_app. replace (5 - length u) with 0 by lia.
  rewrite !skipn_O. rewrite (rel_within_gt_indep 1 (skipn 5 u) z1 z2).
  destruct (rel_within 1 (skipn 5 u ++ ">"%char :: z2)); [|reflexivity].
  rewrite !after_gt_app by now apply forallb_skipn.
  simpl. discriminate.
Qed.

Lemma rel_within_intro (lo : nat) (u v : text) :
  forallb not_gt u = true -> lo <= length u -> fixed REL v = true ->
  rel_within lo (u ++ v) = true.
Proof.
  revert lo. induction u as [|c u IH]; intros lo Hu Hlo Hv.
  - simpl in Hlo. assert (lo = 0) by lia. subst lo.
    destruct v as [|c v]; [discriminate|].
    cbn [app rel_within]. rewrite Hv. apply orb_true_r.
  - simpl in Hu. apply andb_true_iff in Hu. destruct Hu as [Hc Hu].
    cbn [app rel_within]. rewrite Hc.
    rewrite (IH (pred lo)); [reflexivity|assumption|simpl in Hlo; lia|assumption].
Qed.

Lemma canonical_tag_parts (url : text) :
  FixCanonical.canonical_tag url
  = T "<link " ++ (T "rel=" ++ [dq] ++ T "canonical" ++ [dq])
      ++ TAG_TAIL url ++ [">"%char].
Proof.
  unfold FixCanonical.canonical_tag, TAG_TAIL. simpl.
  now rewrite <- !app_assoc.
Qed.

(** The tag matches, together with an unclosed [<link] before it. *)
Lemma canonical_tag_match (pre url y : text) :
  forallb not_gt pre = true -> forallb not_gt url = true ->
  pre = [] \/ fixed LINK pre = true ->
  canonical_direct (pre ++ FixCanonical.canonical_tag url ++ y)
  = Some (length pre + length (FixCanonical.canonical_tag url)).
Proof.
  intros Hpre Hurl Hlink.
  assert (Hf : fixed LINK (pre ++ FixCanonical.canonical_tag url ++ y) = true).
  { destruct Hlink as [->|H]; [reflexivity|now apply fixed_prefix]. }
  unfold canonical_direct. rewrite Hf.
  set (w := pre ++ FixCanonical.canonical_tag url ++ y).
  assert (Hw : w = (pre ++ T "<link ")
                 ++ (T "rel=" ++ [dq] ++ T "canonical" ++ [dq])
                 ++ TAG_TAIL url ++ ">"%char :: y).
  { subst w. rewrite canonical_tag_parts. rewrite <- !app_assoc. reflexivity. }
  assert (Hs : skipn 5 w = skipn 5 (pre ++ T "<link ")
                 ++ (T "rel=" ++ [dq] ++ T "canonical" ++ [dq])
                 ++ TAG_TAIL url ++ ">"%char :: y).
  { rewrite Hw. rewrite skipn_app. rewrite length_app.
    change (length (T "<link ")) with 6.
    replace (5 - (length pre + 6)) with 0 by lia.
    reflexivity. }
  assert (Hu : forallb not_gt (skipn 5 (pre ++ T "<link ")) = true).
  { apply forallb_skipn. rewrite forallb_app, Hpre. reflexivity. }
  rewrite Hs. rewrite rel_within_intro.
  - rewrite !app_assoc. rewrite after_gt_app.
    + simpl after_gt. simpl option_map. cbn [andb]. f_equal.
      subst w. rewrite !length_app. lia.
    + rewrite !forallb_app. rewrite Hu. unfold TAG_TAIL.
      rewrite !forallb_app. rewrite Hurl. reflexivity.
  - exact Hu.
  - rewrite length_skipn, length_app. change (length (T "<link ")) with 6. lia.
  - reflexivity.
Qed.

Lemma link_straddle (a z : text) :
  a <> [] -> fixed LINK a = false -> fixed LINK (a ++ "<"%char :: z) = false.
Proof.
  intros Ha Hf.
  destruct a as [|c1 [|c2 [|c3 [|c4 [|c5 a]]]]]; [contradiction| | | | |].
  5:{ rewrite fixed_long; [exact Hf|simpl; lia]. }
  all: unfold LINK; cbn -[ci_eqb];
    repeat match goal with
           | |- context [ci_eqb ?p ?c] => is_var c; destruct (ci_eqb p c)
           end; reflexivity.
Qed.

Lemma split_at_gt (s : text) :
  forallb not_gt s = false ->
  exists s1 s2, s = s1 ++ ">"%char :: s2 /\ forallb not_gt s1 = true.
Proof.
  induction s as [|c s IH]; intros H; [discriminate|].
  simpl in H. destruct (not_gt c) eqn:E.
  - destruct (IH H) as (s1 & s2 & -> & H1).
    exists (c :: s1), s2. split; [reflexivity|]. simpl. now rewrite E.
  - apply not_gt_false in E. subst c. exists [], s. split; reflexivity.
Qed.

End CanonicalPatternFacts.

(** ** One canonical link after the injection *)

Module SingleTagFacts.
Import Py PyFacts Re ReFacts CanonicalPattern CanonicalPatternFacts Samples.
Import FixCanonical.

Lemma re_findall_from_skip (m : matcher) (k : nat) (t : text) :
  re_findall_from m k t = re_findall m (skipn k t).
Proof.
  revert k. induction t as [|c t IH]; intros [|k]; try reflexivity.
  simpl. apply IH.
Qed.

Lemma re_findall_some (m : matcher) (t : text) (n : nat) :
  m t = Some n -> 1 <= n -> t <> [] ->
  re_findall m t = firstn n t :: re_findall m (skipn n t).
Proof.
  intros H Hn Ht. destruct t as [|c t]; [contradiction|].
  unfold re_findall at 1. simpl. rewrite H.
  rewrite re_findall_from_skip. destruct n as [|n]; [lia|].
  simpl. now rewrite Nat.sub_0_r.
Qed.

Lemma re_findall_step (m : matcher) (c : ascii) (t : text) :
  m (c :: t) = None -> re_findall m (c :: t) = re_findall m t.
Proof. intros H. unfold re_findall. simpl. now rewrite H. Qed.

Lemma re_findall_nothing (m : matcher) (t : text) :
  (forall q, m (skipn q t) = None) -> re_findall m t = [].
Proof.
  induction t as [|c t IH]; intros H; [reflexivity|].
  rewrite re_findall_step by apply (H 0).
  apply IH. intros q. apply (H (S q)).
Qed.

Lemma re_sub_nothing (m : matcher) (repl : text -> text) (t : text) :
  (forall q, m (skipn q t) = None) -> re_sub m repl t = t.
Proof.
  unfold re_sub. induction t as [|c t IH]; intros H; [reflexivity|].
  simpl. pose proof (H 0) as H0. simpl skipn in H0. rewrite H0.
  f_equal. apply IH. intros q. apply (H (S q)).
Qed.

(** The text after the inserted tag holds no match. *)
Lemma nothing_after_tag (b : text) :
  (forall q, RE_CANONICAL (skipn q b) = None) ->
  re_findall RE_CANONICAL (nl :: b) = [].
Proof.
  intros H. rewrite re_findall_step.
  - now apply re_findall_nothing.
  - rewrite canonical_direct_eq. reflexivity.
Qed.

Lemma tag_and_prefix_found (pre url b : text) :
  forallb not_gt pre = true -> forallb not_gt url = true ->
  pre = [] \/ fixed LINK pre = true ->
  (forall q, RE_CANONICAL (skipn q b) = None) ->
  re_findall RE_CANONICAL (pre ++ canonical_tag url ++ [nl] ++ b)
  = [pre ++ canonical_tag url].
Proof.
  intros Hpre Hurl Hlink Hb.
  pose proof (@canonical_tag_match pre url ([nl] ++ b) Hpre Hurl Hlink) as Hm.
  rewrite <- canonical_direct_eq in Hm.
  rewrite (@re_findall_some RE_CANONICAL _ _ Hm).
  - rewrite <- length_app. rewrite app_assoc.
    rewrite firstn_app, firstn_all, Nat.sub_diag, firstn_O, app_nil_r.
    rewrite skipn_app, skipn_all, Nat.sub_diag, skipn_O. simpl app.
    now rewrite nothing_after_tag.
  - rewrite canonical_tag_parts. rewrite !length_app. simpl. lia.
  - rewrite canonical_tag_parts. destruct pre; discriminate.
Qed.

(** The matches of the text with the tag inserted between [a] and [b],
    when the text [a ++ b] holds no match. *)
Lemma findall_inserted (a b url : text) :
  forallb not_gt url = true ->
  (forall q, RE_CANONICAL (skipn q (a ++ b)) = None) ->
  exists x pre,
    a = x ++ pre
    /\ forallb not_gt pre = true
    /\ (pre = [] \/ fixed LINK pre = true)
    /\ re_findall RE_CANONICAL (a ++ canonical_tag url ++ [nl] ++ b)
       = [pre ++ canonical_tag url].
Proof.
  intros Hurl. induction a as [|c a IH]; intros H.
  - exists [], []. repeat split; [now left|].
    apply (@tag_and_prefix_found [] url b); auto.
  - assert (Hb : forall q, RE_CANONICAL (skipn q b) = None).
    { intros q. specialize (H (length (c :: a) + q)).
      rewrite skipn_app in H.
      rewrite skipn_all2 in H by lia.
      replace (length (c :: a) + q - length (c :: a)) with q in H by lia.
      exact H. }
    assert (Hrec : forall q, RE_CANONICAL (skipn q (a ++ b)) = None).
    { intros q. apply (H (S q)). }
    destruct (IH Hrec) as (x & pre & Ha & Hpre & Hlink & Hfind).
    assert (Hskip : RE_CANONICAL ((c :: a) ++ canonical_tag url ++ [nl] ++ b) = None ->
                    exists x0 pre0,
                      c :: a = x0 ++ pre0
                      /\ forallb not_gt pre0 = true
                      /\ (pre0 = [] \/ fixed LINK pre0 = true)
                      /\ re_findall RE_CANONICAL
                           ((c :: a) ++ canonical_tag url ++ [nl] ++ b)
                         = [pre0 ++ canonical_tag url]).
    { intros Hn. exists (c :: x), pre.
      split; [rewrite Ha; reflexivity|].
      split; [assumption|]. split; [assumption|].
      change ((c :: a) ++ canonical_tag url ++ [nl] ++ b)
        with (c :: (a ++ canonical_tag url ++ [nl] ++ b)).
      rewrite (@re_findall_step RE_CANONICAL c
                 (a ++ canonical_tag url ++ [nl] ++ b) Hn).
      exact Hfind. }
    destruct (forallb not_gt (c :: a)) eqn:G.
    + destruct (fixed LINK (c :: a)) eqn:F.
      * exists [], (c :: a). repeat split; [assumption|now right|].
        apply tag_and_prefix_found; [assumption|assumption|now right|assumption].
      * apply Hskip. rewrite canonical_direct_eq. unfold canonical_direct.
        rewrite canonical_tag_parts.
        change (T "<link " ++ ?z) with ("<"%char :: (T "link " ++ z)).
        change (("<"%char :: ?z1) ++ ?z2) with ("<"%char :: (z1 ++ z2)).
        rewrite link_straddle; [reflexivity|discriminate|exact F].
    + apply Hskip. destruct (split_at_gt _ G) as (s1 & s2 & E & Hs1).
      rewrite E. rewrite <- app_assoc. simpl app.
      rewrite canonical_direct_eq.
      apply (@canonical_local s1 (s2 ++ b)); [exact Hs1|].
      rewrite <- canonical_direct_eq. pose proof (H 0) as H0.
      change (RE_CANONICAL ((c :: a) ++ b) = None) in H0.
      rewrite E in H0. rewrite <- app_assoc in H0. exact H0.
Qed.

(** A sufficient condition for a single match.  When the text left by
    the removal pass holds no match of the canonical-link pattern, the
    URL holds no [>] and the robots repair finds nothing in the text
    after the insertion, the result is that text with the tag and a
    line feed inserted, and it holds exactly one match of the pattern.
    The match ends with the tag for the URL; it is the tag itself
    unless a [<link] without its [>] stands before the insertion
    point. *)
Theorem one_canonical_link (html url : text) :
  let cleaned := remove_canonical html in
  let tag := canonical_tag url in
  re_search RE_CANONICAL cleaned = None ->
  forallb not_gt url = true ->
  re_search RE_ROBOTS_URL (fst (insert_before_head cleaned tag)) = None ->
  exists x pre b,
    x ++ pre ++ b = cleaned
    /\ ensure_canonical html url = x ++ pre ++ tag ++ [nl] ++ b
    /\ forallb not_gt pre = true
    /\ (pre = [] \/ fixed LINK pre = true)
    /\ re_findall RE_CANONICAL (ensure_canonical html url) = [pre ++ tag].
Proof.
  intros cleaned tag Hclean Hurl Hrobots.
  pose proof (AnchorFacts.re_search_none _ _ Hclean) as Hnone.
  pose proof (AnchorFacts.re_search_none _ _ Hrobots) as Hrob.
  assert (Hsplit : exists a b, a ++ b = cleaned
            /\ ensure_canonical html url = a ++ tag ++ [nl] ++ b).
  { unfold ensure_canonical. fold cleaned. fold tag.
    unfold insert_before_head in *.
    destruct (re_search RE_HEAD_CLOSE cleaned) as [[pos n]|].
    - exists (firstn pos cleaned), (skipn pos cleaned).
      split; [apply firstn_skipn|].
      cbn [fst] in Hrob. unfold fix_robots.
      now rewrite (re_sub_nothing _ _ _ Hrob).
    - exists [], cleaned. split; [reflexivity|].
      cbn [fst] in Hrob. unfold fix_robots.
      now rewrite (re_sub_nothing _ _ _ Hrob). }
  destruct Hsplit as (a & b & Hab & Hout).
  rewrite <- Hab in Hnone.
  destruct (@findall_inserted a b url Hurl Hnone) as (x & pre & Ha & Hpre & Hlink & Hfind).
  exists x, pre, b. rewrite Hout. subst a.
  rewrite <- !app_assoc in *. repeat split; try assumption.
Qed.

Lemma one_canonical_link_witness :
  exists x pre b,
    x ++ pre ++ b = remove_canonical PAGE_THREE_LINKS
    /\ ensure_canonical PAGE_THREE_LINKS ACME_ROOT
       = x ++ pre ++ canonical_tag ACME_ROOT ++ [nl] ++ b
    /\ forallb not_gt pre = true
    /\ (pre = [] \/ fixed LINK pre = true)
    /\ re_findall RE_CANONICAL (ensure_canonical PAGE_THREE_LINKS ACME_ROOT)
       = [pre ++ canonical_tag ACME_ROOT].
Proof.
  apply (@one_canonical_link PAGE_THREE_LINKS ACME_ROOT);
    vm_compute; reflexivity.
Defined.

(** C2. A canonical link whose [rel] value is written without quotes,
    as HTML allows, is not recognised by the removal pass: nothing is
    removed, and the result holds two canonical links, the old one for
    another address and the new one. *)
Theorem unquoted_canonical_link_is_kept :
  PAGE_UNQUOTED
    = T "<html><head><title>t</title><link rel=canonical href=https://old.example/page></head><body></body></html>"
  /\ remove_canonical PAGE_UNQUOTED = PAGE_UNQUOTED
  /\ ensure_canonical PAGE_UNQUOTED ACME_ROOT
     = T "<html><head><title>t</title><link rel=canonical href=https://old.example/page>"
       ++ InjectMetrika.TQ "<link rel=`canonical` href=`https://acme.github.io/`>"
       ++ [nl] ++ T "</head><body></body></html>".
Proof.
  split; [reflexivity|].
  split; vm_compute; reflexivity.
Qed.

(** On a page in which a canonical link stands inside the text of an
    unfinished tag, the removal pass splices a new canonical link
    together, and the result holds two as well. *)
Lemma spliced_page_has_two_links :
  re_findall RE_CANONICAL (ensure_canonical PAGE_SPLICED ACME_ROOT)
  = [T "<link rel='canonical' href='b'>"; canonical_tag ACME_ROOT]
  /\ length (re_findall RE_CANONICAL (ensure_canonical PAGE_SPLICED ACME_ROOT)) <> 1.
Proof.
  split; [vm_compute; reflexivity|]. vm_compute. discriminate.
Qed.

End SingleTagFacts.

(* ================================================================== *)
(** * Further properties of the scripts *)
(* ================================================================== *)

(** ** Substring search *)

Module SearchFacts.
Import Py PyFacts ReFacts.

Lemma startswith_weaken (p x b : text) :
  startswith p x = true -> startswith p (x ++ b) = true.
Proof.
  intros H. apply startswith_iff in H. destruct H as [r ->].
  rewrite <- app_assoc. apply startswith_app.
Qed.

Lemma occurs_contains (p t : text) (i : nat) :
  startswith p (skipn i t) = true -> contains p t = true.
Proof.
  unfold contains. revert i. induction t as [|c t IH]; intros i H.
  - rewrite skipn_nil in H. simpl. now rewrite H.
  - simpl. destruct (startswith p (c :: t)) eqn:E; [reflexivity|].
    destruct i as [|i]; [simpl in H; congruence|].
    simpl in H. specialize (IH _ H).
    now destruct (find p t).
Qed.

Lemma contains_occurs (p t : text) :
  contains p t = true -> exists i, startswith p (skipn i t) = true.
Proof.
  unfold contains. induction t as [|c t IH]; intros H.
  - simpl in H. destruct (startswith p []) eqn:E; [|discriminate].
    exists 0. exact E.
  - simpl in H. destruct (startswith p (c :: t)) eqn:E.
    + exists 0. exact E.
    + destruct (find p t); [|discriminate].
      destruct (IH eq_refl) as [i Hi]. exists (S i). exact Hi.
Qed.

(** A text that occurs in [s] occurs in every text around [s]. *)
Lemma contains_middle (p a s b : text) :
  contains p s = true -> contains p (a ++ s ++ b) = true.
Proof.
  intros H. apply contains_occurs in H. destruct H as [i Hi].
  apply (occurs_contains p (a ++ s ++ b) (length a + i)).
  rewrite skipn_app. rewrite skipn_all2 by lia.
  replace (length a + i - length a) with i by lia. simpl app.
  rewrite skipn_app. now apply startswith_weaken.
Qed.

End SearchFacts.

(** ** The Metrika injector: insertion, dry run and counters *)

Module InjectMetrikaMore.
Import Py PyFacts SearchFacts InjectMetrika Samples.

Lemma has_target_id_around (a b : text) :
  has_target_id (a ++ SNIPPET ++ b) = true.
Proof.
  unfold has_target_id.
  rewrite (contains_middle _ a SNIPPET b); [reflexivity|].
  vm_compute. reflexivity.
Qed.

Lemma inject_shape (txt : text) :
  exists a b,
    txt = a ++ b
    /\ inject txt = (a ++ [nl] ++ SNIPPET ++ [nl] ++ b, true)
    /\ length (fst (inject txt)) = length txt + length SNIPPET + 2
    /\ has_target_id (fst (inject txt)) = true.
Proof.
  assert (H : exists a b, txt = a ++ b
              /\ inject txt = (a ++ [nl] ++ SNIPPET ++ [nl] ++ b, true)).
  { unfold inject.
    destruct (rfind (T "</head>") (lower txt)) as [i|].
    - exists (firstn i txt), (skipn i txt). split; [|reflexivity].
      symmetry. apply firstn_skipn.
    - destruct (rfind (T "</body>") (lower txt)) as [i|].
      + exists (firstn i txt), (skipn i txt). split; [|reflexivity].
        symmetry. apply firstn_skipn.
      + exists txt, []. split; [now rewrite app_nil_r|].
        now rewrite app_nil_r. }
  destruct H as (a & b & Hab & Hin). exists a, b.
  split; [exact Hab|]. split; [exact Hin|]. rewrite Hin. cbn [fst]. split.
  - subst txt. rewrite !length_app. simpl length. lia.
  - rewrite (app_assoc a [nl]).
    apply (has_target_id_around (a ++ [nl]) ([nl] ++ b)).
Qed.

(** X1. [inject] always reports an insertion; its result is the page
    cut in two with a line feed, the snippet and a line feed in
    between, nothing of the page is lost, and the result is recognised
    by [has_target_id]. *)
Theorem inject_inserts_snippet (txt : text) :
  exists a b,
    txt = a ++ b
    /\ inject txt = (a ++ [nl] ++ SNIPPET ++ [nl] ++ b, true)
    /\ length (fst (inject txt)) = length txt + length SNIPPET + 2
    /\ has_target_id (fst (inject txt)) = true.
Proof. exact (inject_shape txt). Qed.

(** X2. A page without any Metrika marker gets the snippet added, and
    the page as written is skipped by the next iteration over it: the
    add path is idempotent. *)
Theorem added_page_is_skipped_next (st st' : tally) (p : list text) (txt : text) :
  has_target_id txt = false ->
  snd (replace_other_id txt) = false ->
  step false st (p, txt)
    = ({| added := S (added st); updated := updated st;
          skipped := skipped st; touched := touched st ++ [(KAdd, p)] |},
       Some (fst (inject txt)))
  /\ step false st' (written (p, txt) (snd (step false st (p, txt))))
     = ({| added := added st'; updated := updated st';
           skipped := S (skipped st'); touched := touched st' |}, None).
Proof.
  intros Hno Hch.
  assert (Hs : step false st (p, txt)
               = ({| added := S (added st); updated := updated st;
                     skipped := skipped st;
                     touched := touched st ++ [(KAdd, p)] |},
                  Some (fst (inject txt)))).
  { unfold step. rewrite Hno.
    destruct (replace_other_id txt) as [t2 c]. simpl in Hch. subst c.
    destruct (inject_shape txt) as (a & b & _ & Hin & _).
    rewrite Hin. reflexivity. }
  split; [exact Hs|]. rewrite Hs. cbn [snd written fst].
  unfold step.
  destruct (inject_shape txt) as (_ & _ & _ & _ & _ & Hid).
  now rewrite Hid.
Qed.

Lemma added_page_is_skipped_next_witness :
  step false tally0 ([T "index.html"], PAGE_PLAIN)
    = ({| added := 1; updated := 0; skipped := 0;
          touched := [(KAdd, [T "index.html"])] |},
       Some (fst (inject PAGE_PLAIN)))
  /\ step false tally0
       (written ([T "index.html"], PAGE_PLAIN)
          (snd (step false tally0 ([T "index.html"], PAGE_PLAIN))))
     = ({| added := 0; updated := 0; skipped := 1; touched := [] |}, None).
Proof.
  apply (@added_page_is_skipped_next tally0 tally0 [T "index.html"] PAGE_PLAIN);
    vm_compute; reflexivity.
Defined.

Lemma step_dry_run (st : tally) (f : file) :
  snd (step true st f) = None /\ fst (step true st f) = fst (step false st f).
Proof.
  destruct f as [p txt]. unfold step.
  destruct (has_target_id txt); [split; reflexivity|].
  destruct (replace_other_id txt) as [t2 [|]]; [split; reflexivity|].
  destruct (inject txt) as [t3 [|]]; split; reflexivity.
Qed.

Lemma visit_dry_run (st : tally) (f : entry) :
  visit true st f
  = match e_content f with
    | None => None
    | Some txt => Some (fst (step false st (e_path f, txt)), f)
    end.
Proof.
  unfold visit. destruct (e_content f) as [txt|]; [|reflexivity].
  destruct (step_dry_run st (e_path f, txt)) as [Hw Hst].
  destruct (step true st (e_path f, txt)) as [st1 w].
  cbn [fst snd] in Hw, Hst. now subst.
Qed.





Lemma step_counts (d : bool) (st : tally) (f : file) :
  let st1 := fst (step d st f) in
  added st1 + updated st1 + skipped st1
    = S (added st + updated st + skipped st)
  /\ length (touched st1) + skipped st1
     = S (length (touched st) + skipped st)
  /\ fst (written f (snd (step d st f))) = fst f.
Proof.
  destruct f as [p txt]. unfold step.
  destruct (has_target_id txt).
  { cbn. repeat split; lia. }
  destruct (replace_other_id txt) as [t2 [|]].
  { cbn. rewrite length_app. cbn. repeat split; try lia. now destruct d. }
  destruct (inject_shape txt) as (a & b & _ & Hin & _).
  rewrite Hin. cbn. rewrite length_app. cbn.
  repeat split; try lia. now destruct d.
Qed.

Lemma visit_counts (d : bool) (st st1 : tally) (f f' : entry) :
  visit d st f = Some (st1, f') ->
  added st1 + updated st1 + skipped st1
    = S (added st + updated st + skipped st)
  /\ length (touched st1) + skipped st1
     = S (length (touched st) + skipped st)
  /\ e_path f' = e_path f
  /\ e_content f <> None.
Proof.
  unfold visit. destruct (e_content f) as [txt|] eqn:Ec; [|discriminate].
  destruct (step_counts d st (e_path f, txt)) as (H1 & H2 & _).
  destruct (step d st (e_path f, txt)) as [s1 w]. cbn [fst] in H1, H2.
  intros H.
  assert (E : s1 = st1 /\ e_path f' = e_path f).
  { destruct w as [t|].
    - destruct (e_writable f); [|discriminate]. now injection H as <- <-.
    - now injection H as <- <-. }
  destruct E as [<- E]. repeat split; try assumption; discriminate.
Qed.

Lemma visit_fails (d : bool) (st : tally) (f : entry) :
  visit d st f = None ->
  e_content f = None \/ (d = false /\ e_writable f = false).
Proof.
  destruct d.
  - rewrite visit_dry_run. destruct (e_content f); [discriminate|now left].
  - unfold visit. destruct (e_content f) as [txt|]; [|now left].
    destruct (step false st (e_path f, txt)) as [s1 [t|]]; [|discriminate].
    destruct (e_writable f); [discriminate|]. right. now split.
Qed.

(** X4. The run never changes a path or the order of the files.  When
    it ends normally, every visited file could be read and has been
    counted exactly once, as added, updated or skipped, and the list of
    touched files has one entry per added or updated file.  When it
    ends with an exception, this is at a file that cannot be read, or
    in a real run at a page that cannot be written; the files before it
    have been processed as in a run over them alone, and that file and
    the files after it are left as they were. *)
Theorem every_file_counted_once (d : bool) (st : tally) (files : list entry) :
  map e_path (snd (run d st files)) = map e_path files
  /\ (forall st', fst (run d st files) = Finished st' ->
      added st' + updated st' + skipped st'
        = added st + updated st + skipped st + length files
      /\ length (touched st') + skipped st'
         = length (touched st) + skipped st + length files
      /\ Forall (fun f => e_content f <> None) files)
  /\ (forall p, fst (run d st files) = Crashed p ->
      exists pre f post st1,
        files = pre ++ f :: post
        /\ e_path f = p
        /\ (e_content f = None \/ (d = false /\ e_writable f = false))
        /\ fst (run d st pre) = Finished st1
        /\ snd (run d st files) = snd (run d st pre) ++ f :: post).
Proof.
  revert st. induction files as [|f files IH]; intros st.
  - cbn. split; [reflexivity|]. split.
    + intros st' [= <-]. repeat split; try lia. constructor.
    + intros p H. discriminate.
  - cbn [run]. destruct (visit d st f) as [[st1 f']|] eqn:E.
    + destruct (@visit_counts _ _ _ _ _ E) as (H1 & H2 & H3 & H4).
      destruct (IH st1) as (I1 & I2 & I3).
      destruct (run d st1 files) as [r out] eqn:Er. cbn [fst snd] in *.
      split; [cbn [map]; now rewrite H3, I1|]. split.
      * intros st' ->. destruct (I2 st' eq_refl) as (J1 & J2 & J3).
        cbn [length]. repeat split; try lia. now constructor.
      * intros p ->. destruct (I3 p eq_refl) as (pre & g & post & s2 & J).
        destruct J as (J1 & J2 & J3 & J4 & J5).
        exists (f :: pre), g, post, s2. cbn [run]. rewrite E.
        destruct (run d st1 pre) as [r' out'] eqn:Er'. cbn [fst snd] in *.
        subst files r'. repeat split; try assumption.
        now rewrite J5.
    + cbn [fst snd]. split; [reflexivity|]. split; [discriminate|].
      intros p [= <-]. exists [], f, files, st.
      repeat split. now apply (@visit_fails _ _ _ E).
Qed.

Lemma every_file_counted_once_witness :
  exists pre f post st1,
    METRIKA_TREE = pre ++ f :: post
    /\ e_path f = [T "old.html"]
    /\ (e_content f = None \/ (false = false /\ e_writable f = false))
    /\ fst (run false tally0 pre) = Finished st1
    /\ snd (run false tally0 METRIKA_TREE)
       = snd (run false tally0 pre) ++ f :: post.
Proof.
  apply (every_file_counted_once false tally0 METRIKA_TREE).
  vm_compute. reflexivity.
Defined.

End InjectMetrikaMore.

(** ** Substitution *)

Module SubFacts.
Import Py PyFacts.

Lemma re_sub_from_skip (m : matcher) (repl : text -> text) (k : nat) (t : text) :
  re_sub_from m repl k t = re_sub m repl (skipn k t).
Proof.
  revert k. induction t as [|c t IH]; intros [|k]; try reflexivity.
  simpl. apply IH.
Qed.

Lemma re_sub_match (m : matcher) (repl : text -> text) (t : text) (n : nat) :
  m t = Some n -> 1 <= n -> t <> [] ->
  re_sub m repl t = repl (firstn n t) ++ re_sub m repl (skipn n t).
Proof.
  intros H Hn Ht. destruct t as [|c t]; [contradiction|].
  unfold re_sub at 1. simpl. rewrite H. rewrite re_sub_from_skip.
  destruct n as [|n]; [lia|]. simpl. now rewrite Nat.sub_0_r.
Qed.

Lemma re_sub_step (m : matcher) (repl : text -> text) (c : ascii) (t : text) :
  m (c :: t) = None -> re_sub m repl (c :: t) = c :: re_sub m repl t.
Proof. intros H. unfold re_sub. simpl. now rewrite H. Qed.

Lemma re_sub_nil (m : matcher) (repl : text -> text) : re_sub m repl [] = [].
Proof. reflexivity. Qed.

(** [s.replace(old, new)] on a text [a ++ old] in which [old] cannot
    start inside [a]. *)
Lemma str_replace_at_end (old new a : text) (d : ascii) (old' : text) :
  old = d :: old' ->
  forallb (fun c => negb (Ascii.eqb d c)) a = true ->
  str_replace old new (a ++ old) = a ++ new.
Proof.
  intros Hold Ha. unfold str_replace. induction a as [|c a IH].
  - simpl app. rewrite (@re_sub_match _ _ old (length old)).
    + cbv beta. rewrite skipn_all. now rewrite re_sub_nil, app_nil_r.
    + now rewrite startswith_refl.
    + subst old. simpl. lia.
    + subst old. discriminate.
  - simpl in Ha. apply andb_true_iff in Ha. destruct Ha as [Hc Ha].
    simpl app. rewrite re_sub_step.
    + f_equal. now apply IH.
    + subst old. simpl. apply negb_true_iff in Hc. now rewrite Hc.
Qed.

End SubFacts.

(** ** The Metrika injector: rewriting another counter *)

Module ReplaceFacts.
Import Py PyFacts ReFacts SubFacts InjectMetrika Samples.

Lemma re_sub_flag_nothing (m : matcher) (repl : text -> text * bool) (t : text) :
  (forall q, m (skipn q t) = None) -> re_sub_flag m repl t = (t, false).
Proof.
  unfold re_sub_flag. induction t as [|c t IH]; intros H; [reflexivity|].
  simpl. pose proof (H 0) as H0. simpl skipn in H0. rewrite H0.
  rewrite IH; [reflexivity|]. intros q. apply (H (S q)).
Qed.

(** X5. On a page in which none of the three Metrika patterns matches,
    [replace_other_id] returns the page unchanged and reports no
    change. *)
Theorem replace_other_id_without_markers (txt : text) :
  re_search RE_TAG_JS txt = None ->
  re_search RE_WATCH txt = None ->
  re_search RE_YM_INIT txt = None ->
  replace_other_id txt = (txt, false).
Proof.
  intros H1 H2 H3. unfold replace_other_id.
  rewrite (re_sub_flag_nothing _ _ _ (AnchorFacts.re_search_none _ _ H1)).
  rewrite (re_sub_flag_nothing _ _ _ (AnchorFacts.re_search_none _ _ H2)).
  rewrite (SingleTagFacts.re_sub_nothing _ _ _ (AnchorFacts.re_search_none _ _ H3)).
  reflexivity.
Qed.

Lemma replace_other_id_without_markers_witness :
  replace_other_id PAGE_PLAIN = (PAGE_PLAIN, false).
Proof.
  apply (@replace_other_id_without_markers PAGE_PLAIN); vm_compute; reflexivity.
Defined.

Lemma digit_not_in_prefix (d : ascii) (prefix : text) :
  is_digit d = true ->
  forallb (fun c => negb (is_digit c)) prefix = true ->
  forallb (fun c => negb (Ascii.eqb d c)) prefix = true.
Proof.
  intros Hd H. induction prefix as [|c p IH]; [reflexivity|].
  simpl in *. apply andb_true_iff in H. destruct H as [Hc H].
  rewrite (IH H), andb_true_r.
  destruct (Ascii.eqb d c) eqn:E; [|reflexivity].
  apply Ascii.eqb_eq in E. subst c. rewrite Hd in Hc. discriminate.
Qed.

(** X6. The callbacks [repl_tag] and [repl_watch] rewrite exactly the
    identifier of the matched URL: a match made of the URL prefix and
    the digits of another counter becomes the prefix followed by the
    target identifier, with the change flag set; a match that already
    carries the target identifier is returned as it is, flag not set. *)
Theorem repl_rewrites_only_the_id (old : text) :
  old <> [] ->
  forallb is_digit old = true ->
  (old <> TARGET_ID ->
     repl_tag (TAG_JS_PREFIX ++ old) = (TAG_JS_PREFIX ++ TARGET_ID, true)
     /\ repl_watch (WATCH_PREFIX ++ old) = (WATCH_PREFIX ++ TARGET_ID, true))
  /\ (old = TARGET_ID ->
     repl_tag (TAG_JS_PREFIX ++ old) = (TAG_JS_PREFIX ++ old, false)
     /\ repl_watch (WATCH_PREFIX ++ old) = (WATCH_PREFIX ++ old, false)).
Proof.
  intros Hne Hd.
  assert (Hg : forall prefix,
             skipn (length prefix) (prefix ++ old) = old).
  { intros prefix. rewrite skipn_app, skipn_all, Nat.sub_diag. reflexivity. }
  destruct old as [|d old'] eqn:Eo; [contradiction|]. rewrite <- Eo in *.
  assert (Hdd : is_digit d = true).
  { rewrite Eo in Hd. simpl in Hd. now apply andb_true_iff in Hd. }
  split.
  - intros Hneq. apply text_eqb_neq in Hneq.
    unfold repl_tag, repl_watch, repl_id. rewrite !Hg, Hneq. cbn [negb].
    split; f_equal.
    + apply (@str_replace_at_end old TARGET_ID TAG_JS_PREFIX d old' Eo).
      apply digit_not_in_prefix; [exact Hdd|reflexivity].
    + apply (@str_replace_at_end old TARGET_ID WATCH_PREFIX d old' Eo).
      apply digit_not_in_prefix; [exact Hdd|reflexivity].
  - intros Heq. apply text_eqb_eq in Heq.
    unfold repl_tag, repl_watch, repl_id. rewrite !Hg, Heq.
    split; reflexivity.
Qed.

Lemma repl_rewrites_only_the_id_witness :
  repl_tag (TAG_JS_PREFIX ++ T "12345") = (TAG_JS_PREFIX ++ TARGET_ID, true)
  /\ repl_watch (WATCH_PREFIX ++ T "12345") = (WATCH_PREFIX ++ TARGET_ID, true).
Proof.
  apply (@repl_rewrites_only_the_id (T "12345")); try reflexivity; discriminate.
Defined.

End ReplaceFacts.

(** ** fix_canonical.py: the marker file and the loop of [main] *)

Module FixCanonicalMore.
Import Py PyFacts ReFacts FixCanonical Trace Samples.

Lemma rstrip_by_cons (f : ascii -> bool) (c : ascii) (x : text) :
  f c = false -> exists y, rstrip_by f (c :: x) = c :: y.
Proof.
  intros Hc. unfold rstrip_by. simpl.
  destruct (fold_right _ [] x) as [|y ys].
  - rewrite Hc. now exists [].
  - now exists (y :: ys).
Qed.

Lemma rstrip_by_head (f : ascii -> bool) (t : text) (c : ascii) (r : text) :
  rstrip_by f t = c :: r -> exists x, t = c :: x.
Proof.
  destruct t as [|c' x]; [discriminate|]. unfold rstrip_by. simpl.
  destruct (fold_right _ [] x) as [|y ys].
  - destruct (f c'); [discriminate|]. intros H. injection H as <- _. now exists x.
  - intros H. injection H as <- _. now exists x.
Qed.

Lemma lstrip_by_head (f : ascii -> bool) (t : text) (c : ascii) (x : text) :
  lstrip_by f t = c :: x -> f c = false.
Proof.
  induction t as [|c' t IH]; [discriminate|]. simpl.
  destruct (f c') eqn:E; [exact IH|]. intros H. injection H as <- _. exact E.
Qed.

Lemma strip_head (t : text) (c : ascii) (r : text) :
  strip t = c :: r -> is_space c = false.
Proof.
  unfold strip. intros H. destruct (rstrip_by_head _ _ H) as [x Hx].
  now apply lstrip_by_head in Hx.
Qed.

Lemma linebreak_is_space (c : ascii) : is_linebreak c = true -> is_space c = true.
Proof.
  destruct c as [[] [] [] [] [] [] [] []]; vm_compute; intros H;
    first [reflexivity | discriminate H].
Qed.

(** The first line of a stripped, non-blank text is not blank. *)
Lemma first_line_not_blank (content : text) :
  strip content <> [] ->
  exists l, first_line (strip content) = Some l /\ strip l <> [].
Proof.
  intros H. destruct (strip content) as [|c r] eqn:E; [contradiction|].
  pose proof (strip_head _ E) as Hc.
  exists (take_line (c :: r)). split; [reflexivity|].
  simpl take_line. destruct (is_linebreak c) eqn:El.
  - apply linebreak_is_space in El. congruence.
  - unfold strip. simpl lstrip_by. rewrite Hc.
    destruct (@rstrip_by_cons is_space c (take_line r) Hc) as [y Hy].
    rewrite Hy. discriminate.
Qed.

(** X7. A marker file CNAME that exists but is blank makes
    fix_canonical.py end with [IndexError] before any file is touched,
    unless BASE_URL is set, in which case the marker file is not
    consulted at all; generate_pages.py fails on it in the same way. *)
Theorem blank_cname_crashes (e : environ) (g : GeneratePages.environ)
        (content : text) (root : string) (tree : option (list entry)) :
  strip content = [] ->
  (BASE_URL e = [] -> main e (Some content) root tree = (Raise IndexError, []))
  /\ (BASE_URL e <> [] -> resolve_base e (Some content) = Return (BASE_URL e))
  /\ GeneratePages.detect_base_url g (Some content) = None.
Proof.
  intros Hs. split; [|split].
  - intros Hb. unfold main, resolve_base, detect_base_url. rewrite Hb, Hs.
    reflexivity.
  - intros Hb. unfold resolve_base. apply text_eqb_neq in Hb. now rewrite Hb.
  - unfold GeneratePages.detect_base_url. now rewrite Hs.
Qed.

Lemma blank_cname_crashes_witness :
  main (env_of "acme/widgets") (Some (T "  ")) "/srv/site" (Some SMALL_TREE)
  = (Raise IndexError, []).
Proof.
  apply (@blank_cname_crashes (env_of "acme/widgets") (genv_of "acme/widgets")
           (T "  ") "/srv/site" (Some SMALL_TREE)); reflexivity.
Defined.

(** X8. A marker file that is not blank decides the base URL whatever
    the repository identifier is: its first line, stripped, is not
    empty; fix_canonical.py uses it as it is when it starts with [http]
    and prefixes it with [https://] otherwise, while generate_pages.py
    always prefixes it and drops trailing slashes. *)
Theorem cname_decides (e : environ) (g : GeneratePages.environ) (content : text) :
  strip content <> [] ->
  BASE_URL e = [] ->
  let domain := strip (take_line (strip content)) in
  domain <> []
  /\ resolve_base e (Some content)
     = Return (if startswith (T "http") domain then domain
               else T "https://" ++ domain)
  /\ GeneratePages.detect_base_url g (Some content)
     = Some (rstrip_by is_slash (T "https://" ++ domain)).
Proof.
  intros Hc Hb domain.
  destruct (first_line_not_blank _ Hc) as (l & Hl & Hne).
  assert (El : l = take_line (strip content)).
  { destruct (strip content); [contradiction|].
    unfold first_line in Hl. now injection Hl as <-. }
  subst l. fold domain in Hne. split; [exact Hne|].
  apply text_eqb_neq in Hne.
  unfold resolve_base, detect_base_url, GeneratePages.detect_base_url.
  rewrite Hb, Hl. fold domain. rewrite Hne.
  change (negb (text_eqb [] [])) with false. cbn [negb].
  split; [|reflexivity]. now destruct (startswith (T "http") domain).
Qed.

Lemma cname_decides_witness :
  resolve_base (env_of "acme/widgets") (Some (T "www.example.org
"))
  = Return (T "https://www.example.org").
Proof.
  destruct (@cname_decides (env_of "acme/widgets") (genv_of "acme/widgets")
              (T "www.example.org
")) as (_ & H & _).
  - vm_compute. discriminate.
  - reflexivity.
  - exact H.
Defined.

Lemma step_accounting (base : text) (st : counts) (f : entry) :
  let st1 := fst (step base st f) in
  let evs := snd (step base st f) in
  reads evs = [fst f]
  /\ changed_files st1 = changed_files st + length (writes evs)
  /\ skipped_files st1 = skipped_files st + length (unreadable [f])
  /\ Forall (fun w => exists html,
               snd f = Some html /\ fst w = fst f
               /\ build_canonical_for (fst f) base <> []
               /\ snd w = ensure_canonical html (build_canonical_for (fst f) base)
               /\ snd w <> html) (writes evs).
Proof.
  destruct f as [p [html|]]; unfold step, unreadable; cbn [fst snd filter length].
  - destruct (text_eqb (build_canonical_for p base) []) eqn:Eb.
    + cbn. repeat split; try lia. constructor.
    + destruct (text_eqb (ensure_canonical html _) html) eqn:Ec; cbn.
      * repeat split; try lia. constructor.
      * repeat split; try lia. constructor; [|constructor].
        exists html. cbn. repeat split.
        -- now apply text_eqb_neq.
        -- now apply text_eqb_neq.
  - cbn. repeat split; try lia. constructor.
Qed.

Lemma reads_app (a b : list event) : reads (a ++ b) = reads a ++ reads b.
Proof.
  induction a as [|[p|p h] a IH]; simpl; [reflexivity| |]; now rewrite IH.
Qed.

Lemma writes_app (a b : list event) : writes (a ++ b) = writes a ++ writes b.
Proof.
  induction a as [|[p|p h] a IH]; simpl; [reflexivity| |]; now rewrite IH.
Qed.

Lemma unreadable_cons (f : entry) (fs : list entry) :
  unreadable (f :: fs) = unreadable [f] ++ unreadable fs.
Proof. unfold unreadable. simpl. now destruct (snd f). Qed.

Lemma loop_accounting (base : text) (st : counts) (fs : list entry) :
  let st' := fst (loop base st fs) in
  let evs := snd (loop base st fs) in
  reads evs = map fst fs
  /\ changed_files st' = changed_files st + length (writes evs)
  /\ skipped_files st' = skipped_files st + length (unreadable fs)
  /\ Forall (fun w => exists html,
               In (fst w, Some html) fs
               /\ build_canonical_for (fst w) base <> []
               /\ snd w = ensure_canonical html (build_canonical_for (fst w) base)
               /\ snd w <> html) (writes evs).
Proof.
  revert st. induction fs as [|f fs IH]; intros st.
  - cbn. repeat split; try lia. constructor.
  - simpl loop. destruct (step_accounting base st f) as (S1 & S2 & S3 & S4).
    destruct (step base st f) as [st1 ev]. cbn [fst snd] in S1, S2, S3, S4.
    destruct (IH st1) as (I1 & I2 & I3 & I4).
    destruct (loop base st1 fs) as [st2 evs]. cbn [fst snd] in *.
    rewrite reads_app, writes_app, length_app, S1, I1.
    rewrite (unreadable_cons f fs). rewrite length_app.
    split; [reflexivity|]. split; [lia|]. split; [lia|].
    apply Forall_app. split.
    + eapply Forall_impl; [|exact S4]. intros [wp wh] (html & A & B & C & D & E).
      cbn [fst snd] in *. subst wp. exists html.
      repeat split; try assumption. left. destruct f as [fp fc].
      cbn [fst snd] in *. now subst fc.
    + eapply Forall_impl; [|exact I4]. intros w (html & A & B).
      exists html. split; [now right|exact B].
Qed.

(** X9. When [main] of fix_canonical.py runs to the end, it has read
    the [*.html] entries of the tree once each, in order, and nothing
    else; [changed_files] is the number of files written and
    [skipped_files] the number of unreadable ones; and every file
    written is a readable [*.html] entry with a canonical URL whose new
    text differs from the old one. *)
Theorem main_accounting (e : environ) (cname : option text) (root : string)
        (tree : list entry) (st : counts) (evs : list event) :
  main e cname root (Some tree) = (Return st, evs) ->
  exists base,
    resolve_base e cname = Return base /\ base <> []
    /\ reads evs = map fst (rglob_html tree)
    /\ changed_files st = length (writes evs)
    /\ skipped_files st = length (unreadable (rglob_html tree))
    /\ Forall (fun w => exists html,
                 In (fst w, Some html) tree
                 /\ endswith (T ".html") (name (fst w)) = true
                 /\ build_canonical_for (fst w) base <> []
                 /\ snd w = ensure_canonical html (build_canonical_for (fst w) base)
                 /\ snd w <> html) (writes evs).
Proof.
  unfold main. destruct (resolve_base e cname) as [base|x]; [|discriminate].
  destruct (text_eqb base []) eqn:Eb; [discriminate|].
  pose proof (loop_accounting base {| changed_files := 0; skipped_files := 0 |}
                (rglob_html tree)) as (L1 & L2 & L3 & L4).
  destruct (loop base _ (rglob_html tree)) as [st' evs'].
  cbn [fst snd changed_files skipped_files] in *.
  intros H. injection H as <- <-.
  exists base. split; [reflexivity|]. split; [now apply text_eqb_neq|].
  repeat split; try assumption.
  eapply Forall_impl; [|exact L4]. intros w (html & A & B & C & D).
  exists html. unfold rglob_html in A. apply filter_In in A.
  destruct A as [A1 A2]. cbn [fst] in A2. repeat split; assumption.
Qed.

Lemma main_accounting_witness :
  exists base,
    resolve_base (env_of "acme/widgets") None = Return base /\ base <> []
    /\ reads (snd (main (env_of "acme/widgets") None "/srv/site" (Some SMALL_TREE)))
       = map fst (rglob_html SMALL_TREE).
Proof.
  destruct (@main_accounting (env_of "acme/widgets") None "/srv/site" SMALL_TREE
              {| changed_files := 1; skipped_files := 1 |}
              (snd (main (env_of "acme/widgets") None "/srv/site" (Some SMALL_TREE))))
    as (base & H1 & H2 & H3 & _).
  - vm_compute. reflexivity.
  - exists base. repeat split; assumption.
Defined.

End FixCanonicalMore.

(** ** fix_canonical.py: the URL path *)

Module UrlPathFacts.
Import Py PyFacts ReFacts Re SubFacts Runs FixCanonical Samples.

Lemma many_greedy (f : ascii -> bool) (lo : nat) (t : text) :
  many f lo t (fun r => Some r)
  = if lo <=? run f t then Some (skipn (run f t) t) else None.
Proof.
  revert lo. induction t as [|c t IH]; intros lo.
  - simpl. now destruct lo.
  - rewrite CanonicalPatternFacts.many_cons. simpl run.
    destruct (f c).
    + rewrite IH. destruct lo as [|lo].
      * simpl. reflexivity.
      * simpl pred. change (S lo <=? S (run f t)) with (lo <=? run f t).
        destruct (lo <=? run f t); reflexivity.
    + now destruct lo.
Qed.

Lemma run_le (f : ascii -> bool) (t : text) : run f t <= length t.
Proof. induction t as [|c t IH]; simpl; [lia|]. destruct (f c); lia. Qed.

Lemma RE_SLASHES_run (t : text) :
  RE_SLASHES t = if 2 <=? run is_slash t then Some (run is_slash t) else None.
Proof.
  unfold RE_SLASHES, compile. rewrite many_greedy.
  destruct (2 <=? run is_slash t); [|reflexivity]. f_equal.
  rewrite length_skipn. pose proof (run_le is_slash t). lia.
Qed.

Lemma head_after_run (t : text) : head_slash (skipn (run is_slash t) t) = false.
Proof.
  induction t as [|c t IH]; [reflexivity|]. simpl run.
  destruct (is_slash c) eqn:E; [exact IH|]. simpl. exact E.
Qed.

Lemma run_head (t : text) : 1 <= run is_slash t -> head_slash t = true.
Proof.
  destruct t as [|c t]; simpl; [lia|]. destruct (is_slash c); [reflexivity|lia].
Qed.

Lemma head_run (t : text) : head_slash t = false -> run is_slash t = 0.
Proof. destruct t as [|c t]; simpl; [reflexivity|]. now intros ->. Qed.

Lemma collapse_invariant (n : nat) :
  forall t, length t <= n ->
    no_double_slash (collapse t) = true
    /\ (head_slash t = false -> head_slash (collapse t) = false).
Proof.
  induction n as [|n IH]; intros t Hn.
  - destruct t; [|simpl in Hn; lia]. split; reflexivity.
  - destruct t as [|c t]; [split; reflexivity|]. simpl in Hn.
    pose proof (RE_SLASHES_run (c :: t)) as Hm.
    destruct (2 <=? run is_slash (c :: t)) eqn:Er.
    + apply Nat.leb_le in Er. unfold collapse.
      rewrite (@re_sub_match _ _ _ _ Hm); [|lia|discriminate].
      cbv beta. fold (collapse (skipn (run is_slash (c :: t)) (c :: t))).
      destruct (IH (skipn (run is_slash (c :: t)) (c :: t))) as [I1 I2].
      { rewrite length_skipn. simpl length. lia. }
      specialize (I2 (head_after_run (c :: t))).
      set (rest := collapse (skipn (run is_slash (c :: t)) (c :: t))) in *.
      split.
      * change (T "/" ++ rest) with ("/"%char :: rest).
        cbn [no_double_slash]. rewrite I2, I1. reflexivity.
      * intros Hh. rewrite (head_run _ Hh) in Er. lia.
    + unfold collapse. rewrite (@re_sub_step RE_SLASHES _ c t Hm).
      fold (collapse t).
      destruct (IH t) as [I1 I2]; [lia|].
      apply Nat.leb_gt in Er. simpl run in Er.
      split.
      * cbn [no_double_slash]. rewrite I1, andb_true_r.
        destruct (is_slash c) eqn:Ec; [|reflexivity].
        assert (Hz : run is_slash t = 0) by lia.
        rewrite I2; [reflexivity|].
        destruct t as [|c' t']; [reflexivity|]. simpl in Hz. simpl.
        destruct (is_slash c'); [discriminate|reflexivity].
      * cbn [head_slash]. auto.
Qed.

Lemma find_cons (p : text) (c : ascii) (t : text) :
  find p (c :: t)
  = if startswith p (c :: t) then Some 0 else option_map S (find p t).
Proof. reflexivity. Qed.

Lemma no_double_not_contains (t : text) :
  no_double_slash t = true -> contains (T "//") t = false.
Proof.
  unfold contains. induction t as [|c t IH]; intros H; [reflexivity|].
  cbn [no_double_slash] in H. apply andb_true_iff in H. destruct H as [H1 H2].
  specialize (IH H2). rewrite find_cons.
  assert (Hs : startswith (T "//") (c :: t) = false).
  { apply negb_true_iff in H1. unfold is_slash in H1.
    destruct t as [|c' t']; cbn [T list_ascii_of_string startswith head_slash] in *.
    - apply andb_false_r.
    - unfold is_slash in H1.
      rewrite (Ascii.eqb_sym "/" c), (Ascii.eqb_sym "/" c'), andb_true_r.
      exact H1. }
  rewrite Hs. now destruct (find (T "//") t).
Qed.

Lemma not_contains_no_double (t : text) :
  contains (T "//") t = false -> no_double_slash t = true.
Proof.
  unfold contains. induction t as [|c t IH]; intros H; [reflexivity|].
  rewrite find_cons in H.
  destruct (startswith (T "//") (c :: t)) eqn:Hs; [discriminate|].
  cbn [no_double_slash]. rewrite IH.
  - rewrite andb_true_r. apply negb_true_iff.
    destruct t as [|c' t']; cbn [T list_ascii_of_string startswith head_slash] in *.
    + apply andb_false_r.
    + unfold is_slash.
      rewrite (Ascii.eqb_sym "/" c), (Ascii.eqb_sym "/" c'), andb_true_r in Hs.
      exact Hs.
  - now destruct (find (T "//") t).
Qed.

(** Texts without two slashes in a row are left as they are. *)
Lemma collapse_id (t : text) : no_double_slash t = true -> collapse t = t.
Proof.
  intros H. apply SingleTagFacts.re_sub_nothing.
  intros q. rewrite RE_SLASHES_run.
  replace (2 <=? run is_slash (skipn q t)) with false; [reflexivity|].
  symmetry. apply Nat.leb_gt.
  revert q. induction t as [|c t IH]; intros q.
  - rewrite skipn_nil. simpl. lia.
  - simpl in H. apply andb_true_iff in H. destruct H as [H1 H2].
    destruct q as [|q]; [|simpl skipn; now apply IH].
    simpl skipn. simpl run. destruct (is_slash c); [|lia].
    simpl in H1. apply negb_true_iff in H1. rewrite (head_run _ H1). lia.
Qed.

(** X10. The normalisation step of [build_canonical_for] leaves no two
    slashes in a row, whatever the text; it keeps a text that has none
    as it is; and so the URL of a page that is not excluded is the base
    without its trailing slashes followed by a path that starts with a
    slash and in which [//] does not occur. *)
Theorem url_path_has_no_double_slash (t : text) (p : path) (base : text) :
  contains (T "//") (re_sub RE_SLASHES (fun _ => T "/") t) = false
  /\ (contains (T "//") t = false ->
      re_sub RE_SLASHES (fun _ => T "/") t = t)
  /\ (build_canonical_for p base <> [] ->
      exists u, build_canonical_for p base = rstrip_by is_slash base ++ T "/" ++ u
                /\ contains (T "//") (T "/" ++ u) = false).
Proof.
  split; [|split].
  - apply no_double_not_contains.
    apply (@collapse_invariant (length t) t). lia.
  - intros H. apply collapse_id. now apply not_contains_no_double.
  - intros Hne. unfold build_canonical_for in *.
    destruct (text_eqb (lower (name p)) (T "404.html")
              || startswith (T "yandex_") (lower (name p))
              || startswith (T "google") (lower (name p))); [contradiction|].
    set (x := if endswith (T "index.html") (as_posix p)
              then firstn (length (as_posix p) - 10) (as_posix p)
              else as_posix p).
    assert (Hx : (if endswith (T "index.html") (as_posix p)
                  then T "/" ++ firstn (length (as_posix p) - 10) (as_posix p)
                  else T "/" ++ as_posix p) = T "/" ++ x).
    { subst x. now destruct (endswith _ _). }
    rewrite Hx. fold (collapse (T "/" ++ x)).
    destruct (@collapse_invariant (length (T "/" ++ x)) (T "/" ++ x)) as [I1 _]; [lia|].
    pose proof (RE_SLASHES_run (T "/" ++ x)) as Hm.
    assert (Hs : exists u, collapse (T "/" ++ x) = T "/" ++ u).
    { destruct (2 <=? run is_slash (T "/" ++ x)) eqn:Er.
      - unfold collapse. rewrite (@re_sub_match _ _ _ _ Hm).
        + eexists. reflexivity.
        + apply Nat.leb_le in Er. lia.
        + discriminate.
      - unfold collapse. change (T "/" ++ x) with ("/"%char :: x) in *.
        rewrite (@re_sub_step RE_SLASHES _ "/"%char x Hm).
        eexists. reflexivity. }
    destruct Hs as [u Hu]. exists u. rewrite Hu. split; [reflexivity|].
    rewrite <- Hu. now apply no_double_not_contains.
Qed.

Lemma url_path_has_no_double_slash_witness :
  re_sub RE_SLASHES (fun _ => T "/") (T "/a/b.html") = T "/a/b.html"
  /\ exists u,
       build_canonical_for [T "a"; T "b.html"] (T "https://acme.github.io//")
         = rstrip_by is_slash (T "https://acme.github.io//") ++ T "/" ++ u
       /\ contains (T "//") (T "/" ++ u) = false.
Proof.
  destruct (url_path_has_no_double_slash (T "/a/b.html") [T "a"; T "b.html"]
              (T "https://acme.github.io//")) as (_ & H2 & H3).
  split.
  - apply H2. vm_compute. reflexivity.
  - apply H3. vm_compute. discriminate.
Defined.

Lemma as_posix_snoc (dir : path) (z : text) :
  dir <> [] -> as_posix (dir ++ [z]) = as_posix dir ++ T "/" ++ z.
Proof.
  induction dir as [|a dir IH]; intros H; [contradiction|].
  destruct dir as [|b r]; [reflexivity|].
  change (as_posix ((a :: b :: r) ++ [z]))
    with (a ++ T "/" ++ as_posix ((b :: r) ++ [z])).
  rewrite IH by discriminate.
  change (as_posix (a :: b :: r)) with (a ++ T "/" ++ as_posix (b :: r)).
  now rewrite <- !app_assoc.
Qed.

Lemma no_double_skip (a x : text) :
  no_slash a -> no_double_slash (a ++ x) = no_double_slash x.
Proof.
  unfold no_slash. induction a as [|c a IH]; intros H; [reflexivity|].
  simpl in H. apply andb_true_iff in H. destruct H as [Hc Ha].
  simpl app. cbn [no_double_slash]. apply negb_true_iff in Hc.
  rewrite Hc, (IH Ha). reflexivity.
Qed.

Lemma head_component (a x : text) :
  component a -> head_slash (a ++ x) = false.
Proof.
  intros [Hne Hs]. destruct a as [|c a]; [contradiction|].
  unfold no_slash in Hs. simpl in Hs. apply andb_true_iff in Hs.
  destruct Hs as [Hc _]. simpl. now apply negb_true_iff in Hc.
Qed.

Lemma no_slash_clean (z : text) :
  no_slash z -> no_double_slash z = true /\ head_slash z = false.
Proof.
  intros H. split.
  - rewrite <- (app_nil_r z). now rewrite no_double_skip.
  - destruct z as [|c z]; [reflexivity|].
    unfold no_slash in H. simpl in H. apply andb_true_iff in H.
    destruct H as [Hc _]. simpl. now apply negb_true_iff in Hc.
Qed.

Lemma posix_clean (dir : path) (z : text) :
  Forall component dir -> no_slash z ->
  no_double_slash (as_posix (dir ++ [z])) = true
  /\ head_slash (as_posix (dir ++ [z])) = false.
Proof.
  intros Hd Hz. induction Hd as [|a dir Ha Hd IH].
  - simpl. now apply no_slash_clean.
  - destruct IH as [I1 I2].
    assert (E : as_posix ((a :: dir) ++ [z]) = a ++ T "/" ++ as_posix (dir ++ [z])).
    { simpl app. destruct (dir ++ [z]) eqn:El; [|reflexivity].
      destruct dir; discriminate. }
    rewrite E. split.
    + rewrite no_double_skip by apply Ha.
      change (T "/" ++ ?x) with ("/"%char :: x). cbn [no_double_slash].
      rewrite I1, I2. reflexivity.
    + now apply head_component.
Qed.

Lemma slash_then_clean (x : text) :
  no_double_slash x = true -> head_slash x = false ->
  collapse (T "/" ++ x) = T "/" ++ x.
Proof.
  intros H1 H2. apply collapse_id.
  change (T "/" ++ x) with ("/"%char :: x). cbn [no_double_slash].
  rewrite H1, H2. reflexivity.
Qed.

(** X11. For a path made of proper components (not empty, without a
    slash): when the final component is [index.html] the URL is the
    base, without its trailing slashes, followed by the directory and a
    closing slash ([<base>/] for the root); when the page is not
    excluded and its path does not end with [index.html] the URL is the
    base followed by a slash and the path, unchanged. *)
Theorem url_of_clean_path (dir : path) (z base : text) :
  Forall component dir -> component z ->
  (z = T "index.html" ->
   build_canonical_for (dir ++ [z]) base
   = rstrip_by is_slash base ++ T "/"
       ++ match dir with [] => [] | _ => as_posix dir ++ T "/" end)
  /\ (text_eqb (lower z) (T "404.html")
      || startswith (T "yandex_") (lower z)
      || startswith (T "google") (lower z) = false ->
      endswith (T "index.html") (as_posix (dir ++ [z])) = false ->
      build_canonical_for (dir ++ [z]) base
      = rstrip_by is_slash base ++ T "/" ++ as_posix (dir ++ [z])).
Proof.
  intros Hd Hz.
  assert (Hn : name (dir ++ [z]) = z) by (unfold name; apply last_last).
  split.
  - intros ->. unfold build_canonical_for. rewrite Hn.
    replace (text_eqb (lower (T "index.html")) (T "404.html")
             || startswith (T "yandex_") (lower (T "index.html"))
             || startswith (T "google") (lower (T "index.html")))
      with false by reflexivity.
    destruct dir as [|a r] eqn:Ed.
    + reflexivity.
    + rewrite <- Ed in *. assert (Hne : dir <> []) by (rewrite Ed; discriminate).
      rewrite (as_posix_snoc _ Hne).
      rewrite (app_assoc (as_posix dir) (T "/") (T "index.html")).
      rewrite endswith_app. rewrite length_app.
      replace (length (as_posix dir ++ T "/") + length (T "index.html") - 10)
        with (length (as_posix dir ++ T "/")) by (simpl; lia).
      rewrite firstn_app, firstn_all, Nat.sub_diag, firstn_O, app_nil_r.
      f_equal. fold (collapse (T "/" ++ as_posix dir ++ T "/")).
      rewrite <- (app_nil_r (T "/")) at 2 4.
      rewrite <- (as_posix_snoc [] Hne).
      destruct (@posix_clean dir [] Hd eq_refl) as [P1 P2].
      now apply slash_then_clean.
  - intros Hex Hidx. unfold build_canonical_for. rewrite Hn, Hex, Hidx.
    f_equal. fold (collapse (T "/" ++ as_posix (dir ++ [z]))).
    destruct (@posix_clean dir z Hd (proj2 Hz)) as [P1 P2].
    now apply slash_then_clean.
Qed.

Lemma url_of_clean_path_witness :
  build_canonical_for ([T "foo"; T "bar"] ++ [T "index.html"]) ACME
  = rstrip_by is_slash ACME ++ T "/" ++ as_posix [T "foo"; T "bar"] ++ T "/".
Proof.
  apply (@url_of_clean_path [T "foo"; T "bar"] (T "index.html") ACME).
  - repeat constructor; discriminate.
  - split; [discriminate|reflexivity].
  - reflexivity.
Defined.

End UrlPathFacts.

(** ** generate_sitemap.py: escaping *)

Module EscapeFacts.
Import Py PyFacts SubFacts Escaping GenerateSitemap.

Lemma str_replace_char (c : ascii) (new t : text) :
  str_replace [c] new t
  = flat_map (fun x => if Ascii.eqb c x then new else [x]) t.
Proof.
  unfold str_replace. induction t as [|x t IH]; [reflexivity|].
  cbn [flat_map]. destruct (Ascii.eqb c x) eqn:E.
  - rewrite (@re_sub_match _ _ (x :: t) 1).
    + cbv beta. simpl skipn. now rewrite IH.
    + simpl. now rewrite E.
    + lia.
    + discriminate.
  - rewrite re_sub_step.
    + simpl app. now rewrite IH.
    + simpl. now rewrite E.
Qed.

Lemma flat_map_flat_map {A B C} (f : A -> list B) (g : B -> list C) (l : list A) :
  flat_map g (flat_map f l) = flat_map (fun x => flat_map g (f x)) l.
Proof.
  induction l as [|x l IH]; [reflexivity|].
  simpl. now rewrite flat_map_app, IH.
Qed.

Lemma escape_by_char (data : text) : escape data = flat_map escape_char data.
Proof.
  unfold escape.
  change (T "&") with ["&"%char]. change (T ">") with [">"%char].
  change (T "<") with ["<"%char].
  rewrite !str_replace_char. rewrite !flat_map_flat_map.
  apply flat_map_ext. intros x. unfold escape_char.
  rewrite (Ascii.eqb_sym x "&"), (Ascii.eqb_sym x ">"), (Ascii.eqb_sym x "<").
  destruct (Ascii.eqb "&" x) eqn:E1.
  - reflexivity.
  - cbn [flat_map app]. destruct (Ascii.eqb ">" x) eqn:E2.
    + reflexivity.
    + cbn [flat_map app]. rewrite app_nil_r. now destruct (Ascii.eqb "<" x).
Qed.

(** X12. [escape] works character by character: [&], [>] and [<]
    become [&amp;], [&gt;] and [&lt;] and every other character is
    kept, so an ampersand written by one replacement is never escaped
    again by the next; the result holds no [<] and no [>], and a text
    without the three characters is returned unchanged. *)
Theorem escape_is_characterwise (data : text) :
  escape data = flat_map escape_char data
  /\ forallb not_angle (escape data) = true
  /\ (forallb plain_char data = true -> escape data = data).
Proof.
  split; [apply escape_by_char|]. rewrite escape_by_char. split.
  - induction data as [|c data IH]; [reflexivity|].
    cbn [flat_map]. rewrite forallb_app, IH, andb_true_r.
    unfold escape_char, not_angle.
    destruct (Ascii.eqb c "&") eqn:E1; [reflexivity|].
    destruct (Ascii.eqb c ">") eqn:E2; [reflexivity|].
    destruct (Ascii.eqb c "<") eqn:E3; [reflexivity|].
    cbn [forallb]. now rewrite E2, E3.
  - intros H. induction data as [|c data IH]; [reflexivity|].
    cbn [forallb] in H. apply andb_true_iff in H. destruct H as [Hc H].
    cbn [flat_map]. rewrite (IH H).
    unfold plain_char, not_angle in Hc. unfold escape_char.
    destruct (Ascii.eqb c "&"); [discriminate|].
    destruct (Ascii.eqb c ">"); [now rewrite andb_false_r in Hc|].
    destruct (Ascii.eqb c "<"); [discriminate|]. reflexivity.
Qed.

Lemma escape_is_characterwise_witness :
  escape (T "https://acme.github.io/a.html") = T "https://acme.github.io/a.html".
Proof.
  apply (escape_is_characterwise (T "https://acme.github.io/a.html")).
  reflexivity.
Defined.

End EscapeFacts.

(** ** generate_sitemap.py: partitioning in general *)

Module PartitionFacts.
Import Py PyFacts GenerateSitemap Samples.

Lemma firstn_plus {A} (a b : nat) (l : list A) :
  firstn (a + b) l = firstn a l ++ firstn b (skipn a l).
Proof.
  revert l. induction a as [|a IH]; intros l; [reflexivity|].
  destruct l as [|x l]; [simpl; now rewrite firstn_nil|].
  simpl. now rewrite IH.
Qed.

Lemma concat_chunks {A} (m c : nat) (l : list A) :
  concat (map (fun k => firstn m (skipn (k * m) l)) (List.seq 0 c))
  = firstn (c * m) l.
Proof.
  induction c as [|c IH]; [reflexivity|].
  rewrite seq_S, map_app, concat_app, IH. simpl.
  rewrite app_nil_r. rewrite (Nat.add_comm m (c * m)). symmetry.
  apply firstn_plus.
Qed.

(** The partition as a list of chunk numbers. *)
Lemma partition_by_number (MAX_URLS : Z) (items : list item) :
  (0 < MAX_URLS)%Z ->
  partition MAX_URLS items
  = map (fun k => (T "sitemap-" ++ decimal (Z.of_nat k + 1) ++ T ".xml",
                   firstn (Z.to_nat MAX_URLS)
                          (skipn (k * Z.to_nat MAX_URLS) items)))
        (List.seq 0 (Z.to_nat ((Z.of_nat (length items) + MAX_URLS - 1) / MAX_URLS))).
Proof.
  intros Hm. unfold partition, range0. rewrite map_map.
  apply map_ext. intros k. unfold slice.
  rewrite Z.div_mul by lia. f_equal. f_equal. f_equal.
  rewrite Z2Nat.inj_mul by lia. now rewrite Nat2Z.id.
Qed.

(** X13. For every positive cap and every list of entries, the files
    of the partition are numbered [sitemap-1.xml], [sitemap-2.xml], ...
    without a gap, there are as many as the number of entries divided
    by the cap, rounded up, each holds at least one and at most [cap]
    entries, and put end to end they are the list of entries. *)
Theorem partition_covers (MAX_URLS : Z) (items : list item) :
  (0 < MAX_URLS)%Z ->
  let chunks := partition MAX_URLS items in
  let count := Z.to_nat ((Z.of_nat (length items) + MAX_URLS - 1) / MAX_URLS) in
  concat (map snd chunks) = items
  /\ length chunks = count
  /\ map fst chunks
     = map (fun k => T "sitemap-" ++ decimal (Z.of_nat k + 1) ++ T ".xml")
           (List.seq 0 count)
  /\ Forall (fun c => 1 <= length (snd c) /\ (Z.of_nat (length (snd c)) <= MAX_URLS)%Z)
            chunks.
Proof.
  intros Hm chunks count. subst chunks.
  rewrite (partition_by_number items Hm). fold count.
  set (m := Z.to_nat MAX_URLS).
  assert (Hq : (MAX_URLS * ((Z.of_nat (length items) + MAX_URLS - 1) / MAX_URLS)
                <= Z.of_nat (length items) + MAX_URLS - 1
                < MAX_URLS * ((Z.of_nat (length items) + MAX_URLS - 1) / MAX_URLS)
                  + MAX_URLS)%Z).
  { pose proof (Z.mul_div_le (Z.of_nat (length items) + MAX_URLS - 1) MAX_URLS Hm).
    pose proof (Z.mul_succ_div_gt (Z.of_nat (length items) + MAX_URLS - 1) MAX_URLS Hm).
    lia. }
  assert (Hq0 : (0 <= (Z.of_nat (length items) + MAX_URLS - 1) / MAX_URLS)%Z).
  { apply Z.div_pos; lia. }
  assert (Hcm : Z.of_nat (count * m)
                = (MAX_URLS * ((Z.of_nat (length items) + MAX_URLS - 1) / MAX_URLS))%Z).
  { subst count m. rewrite Nat2Z.inj_mul, !Z2Nat.id by lia. lia. }
  assert (Hm1 : 1 <= m) by (subst m; lia).
  assert (Hmz : Z.of_nat m = MAX_URLS) by (subst m; lia).
  split; [|split; [|split]].
  - rewrite map_map. cbn [snd]. rewrite concat_chunks.
    apply firstn_all2. lia.
  - now rewrite length_map, length_seq.
  - rewrite map_map. reflexivity.
  - apply Forall_forall. intros c Hc. apply in_map_iff in Hc.
    destruct Hc as (k & <- & Hk). apply in_seq in Hk. cbn [snd].
    rewrite length_firstn, length_skipn.
    assert (Hk1 : k * m + m <= count * m).
    { replace (k * m + m) with (S k * m) by lia. apply Nat.mul_le_mono_r. lia. }
    split; lia.
Qed.

Lemma partition_covers_witness :
  concat (map snd (partition 2 [AN_ITEM; AN_ITEM; AN_ITEM]))
  = [AN_ITEM; AN_ITEM; AN_ITEM].
Proof.
  apply (@partition_covers 2 [AN_ITEM; AN_ITEM; AN_ITEM]). reflexivity.
Defined.

End PartitionFacts.

(** ** Sorting by date, latest first *)

Module SortFacts.
Import Py PyFacts GenerateSitemap Orderings Crawl Samples.

Lemma lex_asym (a b : list Z) : lex_ltb a b = true -> lex_ltb b a = false.
Proof.
  revert b. induction a as [|x a IH]; intros [|y b] H; try reflexivity;
    try discriminate.
  simpl in *. apply orb_true_iff in H. apply orb_false_iff.
  destruct H as [H|H].
  - apply Z.ltb_lt in H. split.
    + apply Z.ltb_ge. lia.
    + replace (y =? x)%Z with false; [reflexivity|].
      symmetry. apply Z.eqb_neq. lia.
  - apply andb_true_iff in H. destruct H as [E H]. apply Z.eqb_eq in E. subst y.
    split.
    + apply Z.ltb_irrefl.
    + rewrite (IH _ H). apply andb_false_r.
Qed.

Lemma lex_ge_trans (a b c : list Z) :
  lex_ltb a b = false -> lex_ltb b c = false -> lex_ltb a c = false.
Proof.
  revert b c. induction a as [|x a IH]; intros [|y b] [|z c] H1 H2;
    try reflexivity; try discriminate.
  simpl in *. apply orb_false_iff in H1, H2. apply orb_false_iff.
  destruct H1 as [L1 E1], H2 as [L2 E2].
  apply Z.ltb_ge in L1, L2. split; [apply Z.ltb_ge; lia|].
  destruct (Z.eqb_spec x z) as [->|Hxz]; [|reflexivity].
  assert (y = z) by lia. subst y.
  rewrite Z.eqb_refl in E1, E2. simpl in *. now apply (IH b c).
Qed.

Section Insertion.

Variable A : Type.
Variable key : A -> list Z.
Variable ins : A -> list A -> list A.
Hypothesis ins_nil : forall x, ins x [] = [x].
Hypothesis ins_cons : forall x y l,
  ins x (y :: l) = if lex_ltb (key x) (key y) then y :: ins x l else x :: y :: l.

Lemma ins_perm (x : A) (l : list A) : Permutation (ins x l) (x :: l).
Proof.
  induction l as [|y l IH]; [rewrite ins_nil; apply Permutation_refl|].
  rewrite ins_cons. destruct (lex_ltb (key x) (key y)).
  - eapply Permutation_trans; [apply perm_skip, IH|apply perm_swap].
  - apply Permutation_refl.
Qed.

Lemma ins_sorted (x : A) (l : list A) :
  StronglySorted (not_older key) l -> StronglySorted (not_older key) (ins x l).
Proof.
  induction 1 as [|y l Hs IH Hy]; [rewrite ins_nil; repeat constructor|].
  rewrite ins_cons. destruct (lex_ltb (key x) (key y)) eqn:E.
  - constructor; [exact IH|].
    apply (Permutation_Forall (Permutation_sym (ins_perm x l))).
    constructor; [|exact Hy]. unfold not_older in *. now apply lex_asym.
  - constructor; [now constructor|]. constructor; [exact E|].
    eapply Forall_impl; [|exact Hy]. intros z Hz.
    unfold not_older in *. now apply (lex_ge_trans _ (key y)).
Qed.

Lemma sort_sorted (l : list A) : StronglySorted (not_older key) (fold_right ins [] l).
Proof.
  induction l as [|x l IH]; [constructor|]. simpl. now apply ins_sorted.
Qed.

Lemma sort_perm (l : list A) : Permutation (fold_right ins [] l) l.
Proof.
  induction l as [|x l IH]; [constructor|]. simpl.
  eapply Permutation_trans; [apply ins_perm|]. now constructor.
Qed.

Lemma sort_fixed (l : list A) :
  StronglySorted (not_older key) l -> fold_right ins [] l = l.
Proof.
  induction 1 as [|x l Hs IH Hx]; [reflexivity|]. simpl. rewrite IH.
  destruct l as [|y l]; [apply ins_nil|]. rewrite ins_cons.
  inversion Hx as [|? ? Hy _]; subst. unfold not_older in Hy. now rewrite Hy.
Qed.

(** Entries of the key [k] keep their order. *)
Lemma ins_stable (k : list Z) (x : A) (l : list A) :
  filter (fun a => lex_eqb k (key a)) (ins x l)
  = filter (fun a => lex_eqb k (key a)) (x :: l).
Proof.
  induction l as [|y l IH]; [now rewrite ins_nil|].
  rewrite ins_cons. destruct (lex_ltb (key x) (key y)) eqn:E; [|reflexivity].
  cbn [filter] in *. rewrite IH.
  destruct (lex_eqb k (key x)) eqn:Ex; [|reflexivity].
  destruct (lex_eqb k (key y)) eqn:Ey; [|reflexivity].
  exfalso. unfold lex_eqb in Ex, Ey.
  apply andb_true_iff in Ex, Ey. destruct Ex as [X1 X2], Ey as [Y1 Y2].
  apply negb_true_iff in X1, X2, Y1, Y2.
  pose proof (lex_ge_trans _ _ _ X2 Y1). congruence.
Qed.

Lemma sort_stable (k : list Z) (l : list A) :
  filter (fun a => lex_eqb k (key a)) (fold_right ins [] l)
  = filter (fun a => lex_eqb k (key a)) l.
Proof.
  induction l as [|x l IH]; [reflexivity|]. simpl fold_right.
  rewrite ins_stable. cbn [filter]. now rewrite IH.
Qed.

End Insertion.



(** X15. Sorting does not disturb a list that is already in order: a
    list of entries in which no entry is older than a later one is
    returned by [sort_desc] as it is. *)
Theorem sort_desc_keeps_sorted (l : list item) :
  StronglySorted (fun a b => dt_ltb (dt a) (dt b) = false) l ->
  sort_desc l = l.
Proof.
  intros H.
  apply (@sort_fixed item (fun a => dt_key (dt a)) insert_desc);
    try reflexivity. exact H.
Qed.

Lemma sort_desc_keeps_sorted_witness :
  sort_desc [AN_ITEM; AN_ITEM] = [AN_ITEM; AN_ITEM].
Proof.
  apply sort_desc_keeps_sorted. repeat constructor.
Defined.

End SortFacts.

(** ** generate_sitemap.py: robots.txt and the rendering *)

Module RenderFacts.
Import Py PyFacts SearchFacts GenerateSitemap Samples.

Lemma contains_directive (a rest : text) :
  contains (T "Sitemap:") (a ++ T "Sitemap: " ++ rest) = true.
Proof.
  apply (occurs_contains _ _ (length a)).
  rewrite skipn_app, skipn_all, Nat.sub_diag. reflexivity.
Qed.

(** X16. After [ensure_robots] the file holds a [Sitemap:] directive,
    and calling it again changes nothing; a file that already holds a
    directive, for whatever address, is left as it is, and otherwise
    the old content, without its trailing white space, is kept in front
    of the added line. *)
Theorem ensure_robots_is_idempotent (BASE_URL : text) (robots : option text) :
  contains (T "Sitemap:") (ensure_robots BASE_URL robots) = true
  /\ ensure_robots BASE_URL (Some (ensure_robots BASE_URL robots))
     = ensure_robots BASE_URL robots
  /\ (forall txt, robots = Some txt -> contains (T "Sitemap:") txt = true ->
        ensure_robots BASE_URL robots = txt)
  /\ (forall txt, robots = Some txt -> contains (T "Sitemap:") txt = false ->
        ensure_robots BASE_URL robots
        = rstrip_by is_space txt ++ [nl] ++ T "Sitemap: " ++ BASE_URL
            ++ T "/sitemap.xml" ++ [nl]).
Proof.
  assert (H : contains (T "Sitemap:") (ensure_robots BASE_URL robots) = true).
  { unfold ensure_robots. cbv zeta. destruct robots as [txt|].
    - destruct (contains (T "Sitemap:") txt) eqn:E; [exact E|]. cbn [negb].
      rewrite (app_assoc (rstrip_by is_space txt) [nl]).
      apply (contains_directive (rstrip_by is_space txt ++ [nl])).
    - rewrite (app_assoc (T "User-agent: *") [nl]).
      rewrite (app_assoc (T "User-agent: *" ++ [nl]) (T "Allow: /")).
      rewrite (app_assoc _ [nl]).
      apply (contains_directive (((T "User-agent: *" ++ [nl]) ++ T "Allow: /") ++ [nl])). }
  split; [exact H|]. split; [|split].
  - unfold ensure_robots at 1. now rewrite H.
  - intros txt -> E. unfold ensure_robots. now rewrite E.
  - intros txt -> E. unfold ensure_robots. rewrite E. cbn [negb].
    rewrite <- ?app_assoc. reflexivity.
Qed.

Lemma ensure_robots_is_idempotent_witness :
  ensure_robots ACME (Some (T "User-agent: *
Disallow: /private/

"))
  = rstrip_by is_space (T "User-agent: *
Disallow: /private/

") ++ [nl] ++ T "Sitemap: " ++ ACME ++ T "/sitemap.xml" ++ [nl].
Proof.
  destruct (ensure_robots_is_idempotent ACME (Some (T "User-agent: *
Disallow: /private/

"))) as (_ & _ & _ & H).
  apply H; reflexivity.
Defined.

Lemma join_lines (lines : list text) (tail : text) :
  join [nl] (lines ++ [tail]) = concat (map (fun l => l ++ [nl]) lines) ++ tail.
Proof.
  induction lines as [|l ls IH]; [reflexivity|].
  change ((l :: ls) ++ [tail]) with (l :: (ls ++ [tail])).
  assert (E : join [nl] (l :: (ls ++ [tail])) = l ++ [nl] ++ join [nl] (ls ++ [tail])).
  { simpl. destruct (ls ++ [tail]) eqn:El; [|reflexivity]. destruct ls; discriminate. }
  rewrite E, IH. simpl. now rewrite <- !app_assoc.
Qed.

Lemma flat_map_cons {A B} (f : A -> list B) (x : A) (l : list A) :
  flat_map f (x :: l) = f x ++ flat_map f l.
Proof. reflexivity. Qed.

Lemma blocks_of_lines (l : list item) :
  concat (map (fun x => x ++ [nl])
            (flat_map (fun it =>
               [T "  <url>";
                T "    <loc>" ++ loc it ++ T "</loc>";
                T "    <lastmod>" ++ lastmod it ++ T "</lastmod>";
                T "  </url>"]) l))
  = concat (map url_block l).
Proof.
  induction l as [|it l IH]; [reflexivity|].
  rewrite flat_map_cons. rewrite map_app, concat_app.
  change (concat (map url_block (it :: l)))
    with (url_block it ++ concat (map url_block l)).
  f_equal; [|exact IH].
  cbn [map concat]. unfold url_block.
  rewrite <- !app_assoc. rewrite app_nil_r. reflexivity.
Qed.

Lemma write_sitemap_text (l : list item) :
  write_sitemap l
  = XML_DECL ++ URLSET_OPEN ++ [nl]
    ++ concat (map url_block l) ++ T "</urlset>" ++ [nl].
Proof.
  unfold write_sitemap. cbv zeta. rewrite app_assoc.
  rewrite join_lines. rewrite map_app, concat_app. cbn [map concat].
  rewrite app_nil_r. rewrite blocks_of_lines.
  rewrite <- !app_assoc. reflexivity.
Qed.

(** X17. The sitemap document is the XML declaration and the opening
    tag, an empty line, one block of four lines for each entry in
    order, and the closing tag with its line feed; so the document of
    a list put together from two lists holds the blocks of the first
    followed by the blocks of the second, and the document of no entry
    holds no block. *)
Theorem write_sitemap_blocks (items more : list item) :
  write_sitemap items
    = XML_DECL ++ URLSET_OPEN ++ [nl]
      ++ concat (map url_block items) ++ T "</urlset>" ++ [nl]
  /\ concat (map url_block (items ++ more))
     = concat (map url_block items) ++ concat (map url_block more)
  /\ write_sitemap [] = XML_DECL ++ URLSET_OPEN ++ [nl] ++ T "</urlset>" ++ [nl].
Proof.
  split; [apply write_sitemap_text|]. split.
  - now rewrite map_app, concat_app.
  - now rewrite write_sitemap_text.
Qed.

End RenderFacts.

(** ** generate_rss.py: the items of the feed *)

Module RssFacts.
Import Py PyFacts GenerateRss Orderings Samples.

Section Feed.

Variable time : Type.
Variable instant : time -> list Z.
Variable get_title : text -> text.
Variable get_description : text -> text.
Variable to_rfc2822 : time -> text.
Variable BASE_URL : text.

Lemma fold_left_items (fs : list (file time)) (acc : list (feed_item time)) :
  fold_left (collect_step get_title get_description to_rfc2822 BASE_URL) fs acc
  = acc ++ map (item_of get_title get_description to_rfc2822 BASE_URL)
             (filter (has_item get_title) fs).
Proof.
  revert acc. induction fs as [|f fs IH]; intros acc.
  - now rewrite app_nil_r.
  - simpl fold_left. rewrite IH. unfold collect_step, has_item. cbn [filter].
    destruct (existsb _ (f_path f)); [reflexivity|]. cbn [negb andb].
    destruct (is_some (EXCLUDE_FILES_REGEX _)); [reflexivity|]. cbn [negb andb].
    destruct (text_eqb (get_title (f_text f)) []); [reflexivity|].
    cbn [negb map]. now rewrite <- app_assoc.
Qed.

Lemma firstn_In {A} (l : list A) (n : nat) (y : A) :
  In y (firstn n l) -> In y l.
Proof.
  intros H. rewrite <- (firstn_skipn n l). apply in_or_app. now left.
Qed.

Lemma item_of_has_item (f : file time) :
  has_item get_title f = true ->
  let it := item_of get_title get_description to_rfc2822 BASE_URL f in
  title it <> [] /\ description it <> [] /\ guid it = link it
  /\ is_some (EXCLUDE_FILES_REGEX (GenerateSitemap.name (f_path f))) = false.
Proof.
  unfold has_item. intros H.
  apply andb_true_iff in H. destruct H as [H Ht].
  apply andb_true_iff in H. destruct H as [_ Hx].
  apply negb_true_iff in Ht, Hx. apply text_eqb_neq in Ht.
  cbn. split; [exact Ht|]. split.
  - destruct (text_eqb (get_description (f_text f)) []) eqn:Ed; [exact Ht|].
    now apply text_eqb_neq.
  - split; [reflexivity|exact Hx].
Qed.

(** X18. The feed holds the items of the [*.html] files that lie in
    no excluded directory, have no excluded name and have a title, one
    item each: sorted latest first by the untruncated times of the
    files, items of the same instant in the order of the crawl, and cut
    to the first [MAX_ITEMS] when that is positive.  Every item has a
    title and a description that are not empty and a [guid] equal to
    its link. *)
Theorem feed_items_are_well_formed (MAX_ITEMS : Z) (tree : list (file time)) :
  let items :=
    collect_items instant get_title get_description to_rfc2822 BASE_URL
      MAX_ITEMS tree in
  let entries :=
    map (item_of get_title get_description to_rfc2822 BASE_URL)
        (filter (has_item get_title) (rglob_html tree)) in
  (exists sorted,
     Permutation sorted entries
     /\ StronglySorted (not_older (fun it => instant (dt_sort it))) sorted
     /\ (forall k, filter (fun it => lex_eqb k (instant (dt_sort it))) sorted
                   = filter (fun it => lex_eqb k (instant (dt_sort it))) entries)
     /\ items = if (0 <? MAX_ITEMS)%Z
                then firstn (Z.to_nat MAX_ITEMS) sorted else sorted)
  /\ Forall (fun it => title it <> [] /\ description it <> []
                       /\ guid it = link it) items
  /\ length items <= length (rglob_html tree)
  /\ ((0 < MAX_ITEMS)%Z -> (Z.of_nat (length items) <= MAX_ITEMS)%Z).
Proof.
  intros items entries. subst items. unfold collect_items.
  rewrite fold_left_items. cbn [app]. fold entries.
  set (key := fun it : feed_item time => instant (dt_sort it)).
  set (sorted := fold_right (insert_desc instant) [] entries).
  assert (P : Permutation sorted entries).
  { apply (@SortFacts.sort_perm _ key (insert_desc instant)); reflexivity. }
  assert (Ss : StronglySorted (not_older key) sorted).
  { apply (@SortFacts.sort_sorted _ key (insert_desc instant)); reflexivity. }
  assert (St : forall k, filter (fun it => lex_eqb k (key it)) sorted
                         = filter (fun it => lex_eqb k (key it)) entries).
  { intros k.
    exact (@SortFacts.sort_stable _ key (insert_desc instant)
             (fun _ => eq_refl) (fun _ _ _ => eq_refl) k entries). }
  assert (We : Forall (fun it => title it <> [] /\ description it <> []
                                 /\ guid it = link it) entries).
  { unfold entries. apply Forall_forall. intros it Hit.
    apply in_map_iff in Hit. destruct Hit as (f & <- & Hf).
    apply filter_In in Hf. destruct Hf as [_ Hf].
    destruct (item_of_has_item f Hf) as (A & B & C & _). repeat split; assumption. }
  assert (Ws : Forall (fun it => title it <> [] /\ description it <> []
                                 /\ guid it = link it) sorted).
  { apply (Permutation_Forall (Permutation_sym P)). exact We. }
  assert (Ls : length sorted <= length (rglob_html tree)).
  { rewrite (Permutation_length P). unfold entries. rewrite length_map.
    apply filter_length_le. }
  split.
  { exists sorted. repeat split; try assumption. }
  destruct (0 <? MAX_ITEMS)%Z eqn:Em.
  - split.
    + apply Forall_forall. intros y Hy. rewrite Forall_forall in Ws.
      apply Ws. now apply (@firstn_In _ sorted (Z.to_nat MAX_ITEMS)).
    + rewrite length_firstn. split; [lia|]. intros _. lia.
  - split; [exact Ws|]. split; [exact Ls|].
    intros Hm. apply Z.ltb_ge in Em. lia.
Qed.

End Feed.

Lemma feed_items_are_well_formed_witness :
  (Z.of_nat (length (collect_items utc_key (fun t => t) (fun _ => [])
                       (fun d => GenerateSitemap.fmt_w3c (utc d))
                       ACME 1 FEED_TREE)) <= 1)%Z.
Proof.
  apply (@feed_items_are_well_formed aware utc_key (fun t => t) (fun _ => [])
           (fun d => GenerateSitemap.fmt_w3c (utc d)) ACME 1 FEED_TREE).
  reflexivity.
Defined.

(** Of two pages of the same second, the one modified later within it
    comes first. *)
Lemma later_in_the_second_comes_first :
  map (@title aware)
      (collect_items utc_key (fun t => t) (fun _ => [])
         (fun d => GenerateSitemap.fmt_w3c (utc d)) ACME 0 FEED_TREE)
  = [T "Guide"; T "Home"].
Proof. vm_compute. reflexivity. Qed.

End RssFacts.

(** ** generate_pages.py: paths, the base URL and list fields *)

Module PagesFacts.
Import Py PyFacts ReFacts GeneratePages Samples.

Lemma rstrip_by_trailing (f : ascii -> bool) (t : text) (d : ascii) :
  rstrip_by f t = [] \/ f (last (rstrip_by f t) d) = false.
Proof.
  induction t as [|c t IH]; [now left|].
  unfold rstrip_by in *. simpl.
  destruct (fold_right _ [] t) as [|y ys] eqn:E.
  - destruct (f c) eqn:Ec; [now left|]. right. exact Ec.
  - right. destruct IH as [IH|IH]; [discriminate|]. exact IH.
Qed.

Lemma no_trailing_slash (t : text) :
  endswith (T "/") (rstrip_by is_slash t) = false.
Proof.
  destruct (endswith (T "/") (rstrip_by is_slash t)) eqn:E; [|reflexivity].
  apply endswith_iff in E. destruct E as [a Ha].
  destruct (rstrip_by_trailing is_slash t "/"%char) as [H|H].
  - rewrite H in Ha. destruct a; discriminate.
  - rewrite Ha in H. change (T "/") with ["/"%char] in H.
    rewrite last_last in H. discriminate.
Qed.

Lemma strip_id (t : text) (c : ascii) (x : text) :
  t = c :: x -> is_space c = false -> is_space (last t "/"%char) = false ->
  strip t = t.
Proof.
  intros -> Hc Hl. unfold strip. simpl lstrip_by. rewrite Hc.
  apply rstrip_by_last; [discriminate|exact Hl].
Qed.

Lemma strip_strip (x : text) : strip (strip x) = strip x.
Proof.
  destruct (strip x) as [|c r] eqn:E; [reflexivity|].
  pose proof (FixCanonicalMore.strip_head _ E) as Hc.
  apply (@strip_id (c :: r) c r eq_refl Hc).
  rewrite <- E. unfold strip.
  destruct (rstrip_by_trailing is_space (lstrip_by is_space x) "/"%char) as [H|H].
  - unfold strip in E. rewrite H in E. discriminate.
  - exact H.
Qed.

(** What follows the leading slash of a normalised path starts with a
    slash exactly when the stripped argument starts with two. *)
Lemma normalize_path_rest (url : text) :
  exists rest, normalize_path url = T "/" ++ rest
               /\ startswith (T "/") rest = startswith (T "//") (strip url).
Proof.
  unfold normalize_path. cbv zeta.
  destruct (strip url) as [|c r] eqn:Eu.
  - exists []. split; reflexivity.
  - change (startswith (T "/") (c :: r)) with (Ascii.eqb "/" c && true).
    change (startswith (T "//") (c :: r))
      with (Ascii.eqb "/" c && startswith (T "/") r).
    destruct (Ascii.eqb "/" c) eqn:Ec; cbn [andb negb].
    + apply Ascii.eqb_eq in Ec. subst c.
      destruct (endswith (T "/") ("/"%char :: r)) eqn:Ee; cbn [negb].
      * exists r. split; reflexivity.
      * exists (r ++ T "/"). split; [reflexivity|].
        destruct r as [|c' r']; [discriminate|reflexivity].
    + destruct (endswith (T "/") (T "/" ++ c :: r)); cbn [negb].
      * exists (c :: r). split; [reflexivity|]. cbn [startswith T].
        change (startswith (T "/") (c :: r)) with (Ascii.eqb "/" c && true).
        now rewrite Ec.
      * exists ((c :: r) ++ T "/"). split; [now rewrite <- app_assoc|].
        change (startswith (T "/") ((c :: r) ++ T "/"))
          with (Ascii.eqb "/" c && true).
        now rewrite Ec.
Qed.

(** X19. [normalize_path] returns a path that starts and ends with a
    slash, also for an empty or blank argument, and applying it to its
    own result changes nothing.  It adds slashes and collapses none:
    [absolutize] returns the base without its trailing slashes, a
    slash and the rest of the path, and the rest starts with another
    slash exactly when the stripped argument starts with two (so the
    base and the path are joined by exactly one slash otherwise). *)
Theorem normalize_path_is_idempotent (BASE_URL url : text) :
  startswith (T "/") (normalize_path url) = true
  /\ endswith (T "/") (normalize_path url) = true
  /\ normalize_path (normalize_path url) = normalize_path url
  /\ (strip url = [] -> normalize_path url = T "/")
  /\ endswith (T "/") (absolutize BASE_URL url) = true
  /\ exists rest, absolutize BASE_URL url
                  = rstrip_by is_slash BASE_URL ++ T "/" ++ rest
                  /\ endswith (T "/") (rstrip_by is_slash BASE_URL) = false
                  /\ startswith (T "/") rest = startswith (T "//") (strip url).
Proof.
  assert (Hs : startswith (T "/") (normalize_path url) = true).
  { unfold normalize_path. cbv zeta.
    destruct (startswith (T "/") (strip url)) eqn:E1; cbn [negb].
    - destruct (endswith (T "/") (strip url)); cbn [negb]; [exact E1|].
      now apply SearchFacts.startswith_weaken.
    - destruct (endswith (T "/") (T "/" ++ strip url)); reflexivity. }
  assert (He : endswith (T "/") (normalize_path url) = true).
  { unfold normalize_path. cbv zeta.
    match goal with
    | |- context [if negb (endswith (T "/") ?u) then _ else _] =>
        destruct (endswith (T "/") u) eqn:E2; cbn [negb];
        [exact E2|apply endswith_app]
    end. }
  split; [exact Hs|]. split; [exact He|]. split; [|split; [|split]].
  - set (r := normalize_path url) in *. pose proof Hs as Hs'.
    apply startswith_iff in Hs. destruct Hs as [rest Hr].
    pose proof He as He'. apply endswith_iff in He'. destruct He' as [a Ha].
    assert (Hid : strip r = r).
    { apply (@strip_id r "/"%char rest Hr); [reflexivity|].
      rewrite Ha. change (T "/") with ["/"%char]. now rewrite last_last. }
    unfold normalize_path at 1. cbv zeta. rewrite Hid.
    rewrite Hs'. cbn [negb]. now rewrite He.
  - intros H. unfold normalize_path. now rewrite H.
  - unfold absolutize. apply endswith_iff in He. destruct He as [a Ha].
    rewrite Ha, app_assoc. apply endswith_app.
  - destruct (normalize_path_rest url) as (rest & Hr & Hrest).
    exists rest. unfold absolutize. rewrite Hr. split; [reflexivity|].
    split; [apply no_trailing_slash|exact Hrest].
Qed.

Lemma normalize_path_is_idempotent_witness :
  normalize_path (T " guide/vpn ") = T "/guide/vpn/"
  /\ normalize_path (T "   ") = T "/".
Proof.
  split; [reflexivity|].
  apply (normalize_path_is_idempotent ACME (T "   ")). reflexivity.
Defined.

(** The slashes of the argument are kept. *)
Lemma double_slash_is_kept :
  normalize_path (T "//a") = T "//a/"
  /\ absolutize ACME_ROOT (T "//a") = T "https://acme.github.io//a/".
Proof. split; vm_compute; reflexivity. Qed.

(** X20. Whatever the marker file and the environment hold, the base
    URL that [detect_base_url] of generate_pages.py returns does not
    end with a slash. *)
Theorem base_url_has_no_trailing_slash (g : environ) (cname : option text)
        (u : text) :
  detect_base_url g cname = Some u -> endswith (T "/") u = false.
Proof.
  unfold detect_base_url.
  set (dom := rstrip_by is_slash (strip (FixCanonical.getenv (env_SITE_DOMAIN g) []))).
  assert (Hrest : forall u0,
    (if startswith (T "http") dom then Some dom
     else match split_first_slash (FixCanonical.getenv (env_GITHUB_REPOSITORY g) []) with
          | (owner, Some name) =>
              if endswith (T ".github.io") name
              then Some (rstrip_by is_slash (T "https://" ++ name))
              else Some (rstrip_by is_slash
                           (T "https://" ++ owner ++ T ".github.io/" ++ name))
          | (_, None) => Some FALLBACK
          end) = Some u0 -> endswith (T "/") u0 = false).
  { intros u0. destruct (startswith (T "http") dom).
    - intros H. replace u0 with dom by congruence. apply no_trailing_slash.
    - destruct (split_first_slash _) as [owner [name|]].
      + destruct (endswith (T ".github.io") name); intros H.
        * replace u0 with (rstrip_by is_slash (T "https://" ++ name))
            by congruence.
          apply no_trailing_slash.
        * replace u0 with (rstrip_by is_slash
                             (T "https://" ++ owner ++ T ".github.io/" ++ name))
            by congruence.
          apply no_trailing_slash.
      + intros H. replace u0 with FALLBACK by congruence. reflexivity. }
  destruct cname as [content|]; [|apply Hrest].
  destruct (FixCanonical.first_line (strip content)) as [l|]; [|discriminate].
  destruct (negb (text_eqb (strip l) [])); [|apply Hrest].
  intros H. replace u with (rstrip_by is_slash (T "https://" ++ strip l))
    by congruence.
  apply no_trailing_slash.
Qed.

Lemma base_url_has_no_trailing_slash_witness :
  endswith (T "/") (T "https://example.org") = false.
Proof.
  apply (@base_url_has_no_trailing_slash
           {| env_SITE_DOMAIN := Some (T "https://example.org///");
              env_GITHUB_REPOSITORY := None |} None (T "https://example.org")).
  reflexivity.
Defined.

Lemma split_from_piece (sep : ascii) (cur x rest : text) :
  forallb (fun c => negb (Ascii.eqb c sep)) x = true ->
  split_from sep cur (x ++ rest) = split_from sep (cur ++ x) rest.
Proof.
  revert cur. induction x as [|c x IH]; intros cur H.
  - now rewrite app_nil_r.
  - simpl in H. apply andb_true_iff in H. destruct H as [Hc H].
    apply negb_true_iff in Hc. simpl. rewrite Hc. rewrite (IH _ H).
    now rewrite <- app_assoc.
Qed.

Lemma join_cons (sep x : text) (l : list text) :
  l <> [] ->
  GenerateSitemap.join sep (x :: l) = x ++ sep ++ GenerateSitemap.join sep l.
Proof. destruct l; [contradiction|reflexivity]. Qed.

Lemma split_join (items : list text) (cur : text) (x : text) :
  Forall (fun y => forallb (fun c => negb (Ascii.eqb c "|")) y = true) (x :: items) ->
  split_from "|" cur (GenerateSitemap.join (T "|") (x :: items))
  = (cur ++ x) :: items.
Proof.
  revert cur x. induction items as [|y items IH]; intros cur x H.
  - inversion H as [|? ? Hx _]; subst. simpl GenerateSitemap.join.
    rewrite <- (app_nil_r x) at 1.
    rewrite (@split_from_piece "|"%char cur x [] Hx). reflexivity.
  - inversion H as [|? ? Hx Hrest]; subst.
    rewrite join_cons by discriminate.
    rewrite (@split_from_piece "|"%char cur x _ Hx).
    change (T "|" ++ ?z) with ("|"%char :: z). cbn [split_from].
    rewrite Ascii.eqb_refl. f_equal. now rewrite (IH [] y Hrest).
Qed.

Lemma field_ends (x : text) :
  x <> [] -> strip x = x ->
  exists c r, x = c :: r /\ is_space c = false /\ is_space (last x "/"%char) = false.
Proof.
  intros Hne Hs. destruct x as [|c r]; [contradiction|].
  exists c, r. split; [reflexivity|].
  split; [now apply (FixCanonicalMore.strip_head _ Hs)|].
  rewrite <- Hs at 1. unfold strip.
  destruct (rstrip_by_trailing is_space (lstrip_by is_space (c :: r)) "/"%char)
    as [H|H]; [|exact H].
  unfold strip in Hs. rewrite H in Hs. discriminate.
Qed.

Lemma last_of_app {A} (l1 l2 : list A) (d : A) :
  l2 <> [] -> last (l1 ++ l2) d = last l2 d.
Proof.
  intros H. induction l1 as [|a l1 IH]; [reflexivity|].
  simpl app. destruct (l1 ++ l2) eqn:E.
  - destruct l1; [simpl in E; contradiction|discriminate].
  - rewrite <- IH. reflexivity.
Qed.

Lemma join_last (items : list text) (x : text) :
  Forall (fun y => y <> []) (x :: items) ->
  GenerateSitemap.join (T "|") (x :: items) <> []
  /\ last (GenerateSitemap.join (T "|") (x :: items)) "/"%char
     = last (last (x :: items) []) "/"%char.
Proof.
  revert x. induction items as [|y items IH]; intros x H.
  - inversion H; subst. split; [assumption|reflexivity].
  - inversion H as [|? ? Hx Hrest]; subst.
    destruct (IH y Hrest) as [I1 I2].
    rewrite join_cons by discriminate. split.
    + destruct x; [contradiction|discriminate].
    + rewrite app_assoc. rewrite last_of_app by exact I1. rewrite I2.
      reflexivity.
Qed.

(** X21. The fields that [_split] returns are never empty and carry no
    white space around them; an empty or blank cell gives no field;
    and a cell written as fields joined with [|] is read back as
    exactly these fields, when each of them is not empty, has no white
    space around it and holds no [|]. *)
Theorem split_reads_fields (s : text) (items : list text) :
  Forall (fun x => x <> [] /\ strip x = x) (_split s)
  /\ (strip s = [] -> _split s = [])
  /\ (Forall list_field items ->
      _split (GenerateSitemap.join (T "|") items) = items).
Proof.
  split; [|split].
  - unfold _split. cbv zeta. destruct (text_eqb (strip s) []); [constructor|].
    apply Forall_forall. intros x Hx. apply filter_In in Hx.
    destruct Hx as [Hin Hne]. apply negb_true_iff in Hne.
    apply text_eqb_neq in Hne. split; [exact Hne|].
    apply in_map_iff in Hin. destruct Hin as (y & <- & _). apply strip_strip.
  - intros H. unfold _split. now rewrite H.
  - intros H. destruct items as [|x items]; [reflexivity|].
    assert (Hne : Forall (fun y => y <> []) (x :: items)).
    { eapply Forall_impl; [|exact H]. now intros y (A & _). }
    assert (Hsep : Forall (fun y => forallb (fun c => negb (Ascii.eqb c "|")) y = true)
                          (x :: items)).
    { eapply Forall_impl; [|exact H]. now intros y (_ & _ & A). }
    destruct (join_last Hne) as [J1 J2].
    set (j := GenerateSitemap.join (T "|") (x :: items)) in *.
    assert (Hj : strip j = j).
    { inversion H as [|? ? (Hx1 & Hx2 & _) Hrest]; subst.
      destruct (field_ends Hx1 Hx2) as (c & r & Hc & Hsp & _).
      assert (Hhead : exists r', j = c :: r').
      { subst j x. destruct items; [now exists r|].
        rewrite join_cons by discriminate. now eexists. }
      destruct Hhead as [r' Hr'].
      apply (@strip_id j c r' Hr' Hsp). rewrite J2.
      assert (Hl : In (last (x :: items) []) (x :: items)).
      { destruct (@exists_last _ (x :: items)) as (l' & z & E); [discriminate|].
        rewrite E. rewrite last_last. apply in_or_app. right. now left. }
      rewrite Forall_forall in H. destruct (H _ Hl) as (L1 & L2 & _).
      now destruct (field_ends L1 L2) as (? & ? & _ & _ & L). }
    unfold _split. cbv zeta. rewrite Hj.
    apply text_eqb_neq in J1. rewrite J1.
    unfold split. unfold j. rewrite (split_join [] Hsep). cbn [app].
    assert (Hm : map strip (x :: items) = x :: items).
    { rewrite <- (map_id (x :: items)) at 2. apply map_ext_in.
      intros y Hy. rewrite Forall_forall in H. now destruct (H _ Hy) as (_ & A & _). }
    transitivity (filter (fun x0 : text => negb (text_eqb x0 [])) (x :: items));
      [f_equal; exact Hm|].
    apply forallb_filter_id. apply forallb_forall.
    intros y Hy. rewrite Forall_forall in Hne. apply negb_true_iff.
    apply text_eqb_neq. now apply Hne.
Qed.

Lemma split_reads_fields_witness :
  _split (GenerateSitemap.join (T "|") [T "DNS block"; T "IP block"])
  = [T "DNS block"; T "IP block"].
Proof.
  apply (split_reads_fields [] [T "DNS block"; T "IP block"]).
  repeat constructor; discriminate.
Defined.

End PagesFacts.

(** ** generate_sitemap.py and generate_rss.py: [to_url] *)

Module ToUrlFacts.
Import Py PyFacts ReFacts SearchFacts SubFacts Runs Escaping Samples.

Lemma sr_skip (a : ascii) (old' new pre t : text) :
  forallb (fun c => negb (Ascii.eqb a c)) pre = true ->
  str_replace (a :: old') new (pre ++ t) = pre ++ str_replace (a :: old') new t.
Proof.
  intros H. unfold str_replace. induction pre as [|c pre IH]; [reflexivity|].
  simpl in H. apply andb_true_iff in H. destruct H as [Hc H].
  simpl app. rewrite re_sub_step.
  - f_equal. now apply IH.
  - simpl. apply negb_true_iff in Hc. now rewrite Hc.
Qed.

Lemma sr_hit (old new t : text) :
  old <> [] -> str_replace old new (old ++ t) = new ++ str_replace old new t.
Proof.
  intros H. unfold str_replace.
  rewrite (@re_sub_match _ _ (old ++ t) (length old)).
  - cbv beta. now rewrite skipn_app, skipn_all, Nat.sub_diag.
  - now rewrite startswith_app.
  - destruct old; [contradiction|simpl; lia].
  - destruct old; [contradiction|discriminate].
Qed.

Lemma sr_none (old new t : text) :
  (forall q, startswith old (skipn q t) = false) -> str_replace old new t = t.
Proof.
  intros H. unfold str_replace. apply SingleTagFacts.re_sub_nothing.
  intros q. now rewrite H.
Qed.

Lemma absent_char (a : ascii) (old' t : text) :
  forallb (fun c => negb (Ascii.eqb a c)) t = true ->
  forall q, startswith (a :: old') (skipn q t) = false.
Proof.
  intros H q. pose proof (CanonicalPatternFacts.forallb_skipn _ q _ H) as Hq.
  destruct (skipn q t) as [|c r]; [reflexivity|].
  simpl in Hq. apply andb_true_iff in Hq. destruct Hq as [Hc _].
  simpl. apply negb_true_iff in Hc. now rewrite Hc.
Qed.

Lemma absent_double (t : text) :
  no_double_slash t = true -> forall q, startswith (T "//") (skipn q t) = false.
Proof.
  intros H q. apply UrlPathFacts.no_double_not_contains in H.
  destruct (startswith (T "//") (skipn q t)) eqn:E; [|reflexivity].
  apply occurs_contains in E. congruence.
Qed.

Lemma url_char_parts (c : ascii) :
  url_char c = true ->
  is_slash c = false /\ Ascii.eqb ":" c = false /\ Ascii.eqb "/" c = false
  /\ plain_char c = true.
Proof.
  unfold url_char. intros H. apply andb_true_iff in H. destruct H as [H H3].
  apply andb_true_iff in H. destruct H as [H1 H2].
  apply negb_true_iff in H1, H2. rewrite Ascii.eqb_sym in H2.
  repeat split; try assumption.
  all: unfold is_slash in H1; now rewrite Ascii.eqb_sym.
Qed.

Lemma url_word_forall (P : ascii -> bool) (w : text) :
  (forall c, url_char c = true -> P c = true) ->
  forallb url_char w = true -> forallb P w = true.
Proof.
  intros HP H. induction w as [|c w IH]; [reflexivity|].
  simpl in *. apply andb_true_iff in H. destruct H as [Hc H].
  now rewrite (HP _ Hc), (IH H).
Qed.

Lemma posix_forallb (P : ascii -> bool) (p : list text) :
  P "/"%char = true -> P "."%char = true ->
  Forall (fun w => forallb P w = true) p ->
  forallb P (GenerateSitemap.as_posix p) = true.
Proof.
  intros Hs Hd H. induction H as [|w p Hw Hp IH].
  - simpl. now rewrite Hd.
  - destruct p as [|w' p']; [exact Hw|].
    change (GenerateSitemap.as_posix (w :: w' :: p'))
      with (w ++ T "/" ++ GenerateSitemap.as_posix (w' :: p')).
    rewrite !forallb_app, Hw, IH. simpl. now rewrite Hs.
Qed.

(** The two replacements of [to_url] on a clean address. *)
Lemma replacements_restore (scheme host x : text) :
  forallb url_char scheme = true -> url_word host ->
  no_double_slash x = true -> head_slash x = false ->
  forallb (fun c => negb (Ascii.eqb ":" c)) x = true ->
  str_replace (T ":/") (T "://")
    (str_replace (T "//") (T "/") ((scheme ++ T "://" ++ host) ++ T "/" ++ x))
  = (scheme ++ T "://" ++ host) ++ T "/" ++ x.
Proof.
  intros Hsch [Hne Hhost] Hx1 Hx2 Hx3.
  assert (Hh1 : forallb (fun c => negb (is_slash c)) host = true).
  { apply (url_word_forall _ host); [|exact Hhost].
    intros c Hc. destruct (url_char_parts _ Hc) as (A & _). cbv beta; now rewrite A. }
  assert (Htail : no_double_slash (host ++ T "/" ++ x) = true).
  { rewrite UrlPathFacts.no_double_skip by exact Hh1.
    change (T "/" ++ x) with ("/"%char :: x). cbn [no_double_slash].
    now rewrite Hx1, Hx2. }
  assert (Hcolon : forallb (fun c => negb (Ascii.eqb ":" c)) (host ++ T "/" ++ x) = true).
  { rewrite !forallb_app, Hx3.
    replace (forallb (fun c => negb (Ascii.eqb ":" c)) (T "/")) with true
      by reflexivity.
    cbn [andb]. rewrite andb_true_r.
    apply (url_word_forall _ host); [|exact Hhost].
    intros c Hc. destruct (url_char_parts _ Hc) as (_ & A & _). cbv beta; now rewrite A. }
  rewrite <- !app_assoc.
  change (T "://" ++ ?z) with (T ":" ++ T "//" ++ z).
  change (T "//") with ("/"%char :: T "/") at 1.
  rewrite sr_skip.
  2:{ apply (url_word_forall _ scheme); [|exact Hsch].
      intros c Hc. destruct (url_char_parts _ Hc) as (_ & _ & A & _). cbv beta; now rewrite A. }
  rewrite (@sr_skip "/" (T "/") (T "/") (T ":") _ eq_refl).
  change ("/"%char :: T "/") with (T "//").
  rewrite sr_hit by discriminate.
  rewrite (@sr_none (T "//") (T "/") _ (@absent_double _ Htail)).
  change (T ":" ++ T "/" ++ ?z) with (T ":/" ++ z).
  change (T ":/") with (":"%char :: T "/") at 1.
  rewrite sr_skip.
  2:{ apply (url_word_forall _ scheme); [|exact Hsch].
      intros c Hc. destruct (url_char_parts _ Hc) as (_ & A & _). cbv beta; now rewrite A. }
  change (":"%char :: T "/") with (T ":/").
  rewrite sr_hit by discriminate.
  change (T ":/") with (":"%char :: T "/").
  rewrite (@sr_none (":"%char :: T "/") (T "://") _
             (@absent_char ":"%char (T "/") _ Hcolon)).
  reflexivity.
Qed.

Lemma escape_plain (t : text) : forallb plain_char t = true -> GenerateSitemap.escape t = t.
Proof.
  intros H. rewrite EscapeFacts.escape_by_char.
  induction t as [|c t IH]; [reflexivity|].
  cbn [forallb] in H. apply andb_true_iff in H. destruct H as [Hc H].
  cbn [flat_map]. rewrite (IH H).
  unfold plain_char, not_angle in Hc. unfold escape_char.
  destruct (Ascii.eqb c "&"); [discriminate|].
  destruct (Ascii.eqb c ">"); [now rewrite andb_false_r in Hc|].
  destruct (Ascii.eqb c "<"); [discriminate|]. reflexivity.
Qed.

Lemma word_is_component (w : text) : url_word w -> component w.
Proof.
  intros [Hne H]. split; [exact Hne|]. unfold no_slash.
  apply (url_word_forall _ w); [|exact H].
  intros c Hc. destruct (url_char_parts _ Hc) as (A & _). cbv beta; now rewrite A.
Qed.

(** The path part of a URL made of clean components, the last of which
    may be empty. *)
Lemma clean_posix (dir : list text) (z : text) :
  Forall url_word dir -> forallb url_char z = true ->
  let x := GenerateSitemap.as_posix (dir ++ [z]) in
  no_double_slash x = true /\ head_slash x = false
  /\ forallb (fun c => negb (Ascii.eqb ":" c)) x = true
  /\ forallb plain_char x = true.
Proof.
  intros Hd Hz x.
  assert (Hc : Forall component dir).
  { eapply Forall_impl; [|exact Hd]. apply word_is_component. }
  assert (Hzs : no_slash z).
  { unfold no_slash. apply (url_word_forall _ z); [|exact Hz].
    intros c Hc'. destruct (url_char_parts _ Hc') as (A & _). cbv beta; now rewrite A. }
  destruct (@UrlPathFacts.posix_clean dir z Hc Hzs) as [P1 P2].
  split; [exact P1|]. split; [exact P2|]. split.
  - apply posix_forallb; [reflexivity|reflexivity|].
    apply Forall_app. split.
    + eapply Forall_impl; [|exact Hd]. intros w [_ Hw].
      apply (url_word_forall _ w); [|exact Hw].
      intros c Hc'. destruct (url_char_parts _ Hc') as (_ & A & _).
      cbv beta; now rewrite A.
    + constructor; [|constructor]. apply (url_word_forall _ z); [|exact Hz].
      intros c Hc'. destruct (url_char_parts _ Hc') as (_ & A & _).
      cbv beta; now rewrite A.
  - apply posix_forallb; [reflexivity|reflexivity|].
    apply Forall_app. split.
    + eapply Forall_impl; [|exact Hd]. intros w [_ Hw].
      apply (url_word_forall _ w); [|exact Hw].
      intros c Hc'. now destruct (url_char_parts _ Hc') as (_ & _ & _ & A).
    + constructor; [|constructor]. apply (url_word_forall _ z); [|exact Hz].
      intros c Hc'. now destruct (url_char_parts _ Hc') as (_ & _ & _ & A).
Qed.

Lemma address_is_plain (scheme host x : text) :
  forallb url_char scheme = true -> url_word host ->
  forallb plain_char x = true ->
  forallb plain_char ((scheme ++ T "://" ++ host) ++ T "/" ++ x) = true.
Proof.
  intros Hs [_ Hh] Hx. rewrite !forallb_app, Hx.
  rewrite (url_word_forall plain_char scheme), (url_word_forall plain_char host);
    try assumption; try reflexivity;
    intros c Hc; now destruct (url_char_parts _ Hc) as (_ & _ & _ & A).
Qed.

Lemma posix_rstrip (dir : list text) :
  Forall url_word dir ->
  rstrip_by is_slash (GenerateSitemap.as_posix dir) = GenerateSitemap.as_posix dir.
Proof.
  intros H. destruct dir as [|w0 dir0] eqn:E; [reflexivity|]. rewrite <- E in *.
  assert (Hne : dir <> []) by (rewrite E; discriminate).
  destruct (exists_last Hne) as (d' & w & ->).
  apply Forall_app in H. destruct H as [_ Hw].
  inversion Hw as [|? ? [Hwn Hwc] _]; subst.
  destruct (exists_last Hwn) as (w' & c & ->).
  rewrite forallb_app in Hwc. apply andb_true_iff in Hwc.
  destruct Hwc as [_ Hc]. simpl in Hc. rewrite andb_true_r in Hc.
  destruct (url_char_parts _ Hc) as (Hsl & _).
  change (GenerateSitemap.as_posix (d' ++ [w' ++ [c]]))
    with (FixCanonical.as_posix (d' ++ [w' ++ [c]])).
  destruct d' as [|a d''].
  - simpl. now apply rstrip_by_snoc.
  - rewrite UrlPathFacts.as_posix_snoc by discriminate.
    rewrite !app_assoc. now apply rstrip_by_snoc.
Qed.

(** X22. For a base [scheme://host] and a path whose components hold
    no slash, colon, [&], [<] or [>], [to_url] of the sitemap and of
    the RSS generator return the base followed by a slash and the path;
    when the final component is [index.html] they return the base, a
    slash, the directory and a slash, and for the page [index.html] at
    the root this is [<base>/./], since the parent of the path is
    written as a dot. *)
Theorem to_url_of_clean_path (scheme host : text) (dir : list text) (z : text) :
  forallb url_char scheme = true -> url_word host ->
  Forall url_word dir -> url_word z ->
  let BASE := scheme ++ T "://" ++ host in
  (z = T "index.html" ->
     GenerateSitemap.to_url BASE (dir ++ [z])
       = BASE ++ T "/" ++ GenerateSitemap.as_posix dir ++ T "/"
     /\ GenerateRss.to_url BASE (dir ++ [z])
       = BASE ++ T "/" ++ GenerateSitemap.as_posix dir ++ T "/")
  /\ (endswith (T "index.html") (GenerateSitemap.as_posix (dir ++ [z])) = false ->
     GenerateSitemap.to_url BASE (dir ++ [z])
       = BASE ++ T "/" ++ GenerateSitemap.as_posix (dir ++ [z])
     /\ GenerateRss.to_url BASE (dir ++ [z])
       = BASE ++ T "/" ++ GenerateSitemap.as_posix (dir ++ [z]))
  /\ GenerateSitemap.to_url BASE [T "index.html"] = BASE ++ T "/./".
Proof.
  intros Hs Hh Hd Hz BASE.
  assert (Hclean : forall x,
            no_double_slash x = true -> head_slash x = false ->
            forallb (fun c => negb (Ascii.eqb ":" c)) x = true ->
            forallb plain_char x = true ->
            GenerateSitemap.escape
              (str_replace (T ":/") (T "://")
                 (str_replace (T "//") (T "/") (BASE ++ T "/" ++ x)))
            = BASE ++ T "/" ++ x
            /\ str_replace (T ":/") (T "://")
                 (str_replace (T "//") (T "/") (BASE ++ T "/" ++ x))
               = BASE ++ T "/" ++ x).
  { intros x X1 X2 X3 X4. subst BASE.
    rewrite (@replacements_restore scheme host x Hs Hh X1 X2 X3). split; [|reflexivity].
    apply escape_plain. now apply address_is_plain. }
  assert (Hindex : forall d, Forall url_word d ->
            GenerateSitemap.to_url BASE (d ++ [T "index.html"])
              = BASE ++ T "/" ++ GenerateSitemap.as_posix d ++ T "/"
            /\ GenerateRss.to_url BASE (d ++ [T "index.html"])
              = BASE ++ T "/" ++ GenerateSitemap.as_posix d ++ T "/").
  { intros d Hdd. unfold GenerateSitemap.to_url, GenerateRss.to_url.
    unfold GenerateSitemap.parent. rewrite removelast_last.
    assert (He : endswith (T "index.html")
                   (GenerateSitemap.as_posix (d ++ [T "index.html"])) = true).
    { change (GenerateSitemap.as_posix (d ++ [T "index.html"]))
        with (FixCanonical.as_posix (d ++ [T "index.html"])).
      destruct d as [|a d']; [reflexivity|].
      rewrite UrlPathFacts.as_posix_snoc by discriminate.
      rewrite app_assoc. apply endswith_app. }
    rewrite He. rewrite (posix_rstrip Hdd).
    assert (Hx : no_double_slash (GenerateSitemap.as_posix d ++ T "/") = true
                 /\ head_slash (GenerateSitemap.as_posix d ++ T "/") = false
                 /\ forallb (fun c => negb (Ascii.eqb ":" c))
                      (GenerateSitemap.as_posix d ++ T "/") = true
                 /\ forallb plain_char (GenerateSitemap.as_posix d ++ T "/") = true).
    { destruct d as [|a d'] eqn:Ed; [repeat split; reflexivity|].
      rewrite <- Ed in *.
      assert (Hne : d <> []) by (rewrite Ed; discriminate).
      pose proof (@clean_posix d [] Hdd eq_refl) as Hc. cbv zeta in Hc.
      pose proof (@UrlPathFacts.as_posix_snoc d [] Hne) as Es.
      exact (eq_ind _
               (fun x => no_double_slash x = true /\ head_slash x = false
                  /\ forallb (fun c => negb (Ascii.eqb ":" c)) x = true
                  /\ forallb plain_char x = true) Hc _ Es). }
    destruct Hx as (X1 & X2 & X3 & X4).
    destruct (Hclean _ X1 X2 X3 X4) as [C1 C2].
    split; assumption. }
  split; [|split].
  - intros ->. now apply Hindex.
  - intros Hni. unfold GenerateSitemap.to_url, GenerateRss.to_url. rewrite Hni.
    destruct (@clean_posix dir z Hd (proj2 Hz)) as (X1 & X2 & X3 & X4).
    destruct (Hclean _ X1 X2 X3 X4) as [C1 C2]. split; assumption.
  - destruct (Hindex [] (Forall_nil _)) as [H _]. exact H.
Qed.

Lemma to_url_of_clean_path_witness :
  GenerateSitemap.to_url ACME ([T "guide"] ++ [T "index.html"])
  = ACME ++ T "/" ++ GenerateSitemap.as_posix [T "guide"] ++ T "/".
Proof.
  apply (@to_url_of_clean_path (T "https") (T "acme.github.io")
           [T "guide"] (T "index.html")).
  - reflexivity.
  - split; [discriminate|reflexivity].
  - repeat constructor; discriminate.
  - split; [discriminate|reflexivity].
  - reflexivity.
Defined.

End ToUrlFacts.

(** ** Related pages *)

Module RelatedFacts.
Import Py PyFacts GeneratePages Orderings Samples.

Lemma text_lt_irrefl (a : text) : text_ltb a a = false.
Proof.
  induction a as [|x a IH]; [reflexivity|].
  simpl. now rewrite Nat.ltb_irrefl, Nat.eqb_refl, IH.
Qed.

Lemma text_lt_asym (a b : text) : text_ltb a b = true -> text_ltb b a = false.
Proof.
  revert b. induction a as [|x a IH]; intros [|y b] H; try reflexivity;
    try discriminate.
  simpl in *. apply orb_true_iff in H. apply orb_false_iff.
  destruct H as [H|H].
  - apply Nat.ltb_lt in H. split.
    + apply Nat.ltb_ge. lia.
    + replace (nat_of_ascii y =? nat_of_ascii x) with false; [reflexivity|].
      symmetry. apply Nat.eqb_neq. lia.
  - apply andb_true_iff in H. destruct H as [E H]. apply Nat.eqb_eq in E.
    rewrite E. split.
    + apply Nat.ltb_irrefl.
    + rewrite (IH _ H). apply andb_false_r.
Qed.

Lemma text_ge_trans (a b c : text) :
  text_ltb a b = false -> text_ltb b c = false -> text_ltb a c = false.
Proof.
  revert b c. induction a as [|x a IH]; intros [|y b] [|z c] H1 H2;
    try reflexivity; try discriminate.
  simpl in *. apply orb_false_iff in H1, H2. apply orb_false_iff.
  destruct H1 as [L1 E1], H2 as [L2 E2].
  apply Nat.ltb_ge in L1, L2. split; [apply Nat.ltb_ge; lia|].
  destruct (Nat.eqb_spec (nat_of_ascii x) (nat_of_ascii z)) as [E|Hxz];
    [|reflexivity].
  assert (Ey : nat_of_ascii y = nat_of_ascii z) by lia.
  rewrite E, Ey, Nat.eqb_refl in E1. rewrite Ey, Nat.eqb_refl in E2.
  simpl in *. now apply (IH b c).
Qed.

(** Two texts neither of which is before the other are the same. *)
Lemma text_ge_antisym (a b : text) :
  text_ltb a b = false -> text_ltb b a = false -> a = b.
Proof.
  revert b. induction a as [|x a IH]; intros [|y b] H1 H2;
    try reflexivity; try discriminate.
  simpl in *. apply orb_false_iff in H1, H2.
  destruct H1 as [L1 E1], H2 as [L2 E2].
  apply Nat.ltb_ge in L1, L2.
  assert (E : nat_of_ascii x = nat_of_ascii y) by lia.
  rewrite E, Nat.eqb_refl in E1. simpl in E1.
  rewrite E, Nat.eqb_refl in E2. simpl in E2.
  f_equal; [|now apply IH].
  rewrite <- (ascii_nat_embedding x), <- (ascii_nat_embedding y). now rewrite E.
Qed.

Lemma key_ge_trans (a b c : text * text) :
  key_ltb a b = false -> key_ltb b c = false -> key_ltb a c = false.
Proof.
  destruct a as [s1 u1], b as [s2 u2], c as [s3 u3]. unfold key_ltb. simpl.
  destruct (text_eqb s1 s2) eqn:E12.
  - apply text_eqb_eq in E12. subst s2.
    destruct (text_eqb s1 s3) eqn:E13; [|tauto].
    apply text_ge_trans.
  - destruct (text_eqb s2 s3) eqn:E23.
    + apply text_eqb_eq in E23. subst s3. rewrite E12. tauto.
    + intros H1 H2. pose proof (text_ge_trans _ _ _ H1 H2) as H3.
      destruct (text_eqb s1 s3) eqn:E13; [|exact H3].
      apply text_eqb_eq in E13. subst s3.
      apply text_eqb_neq in E12. exfalso. apply E12.
      now apply text_ge_antisym.
Qed.

Lemma key_lt_asym (a b : text * text) :
  key_ltb a b = true -> key_ltb b a = false.
Proof.
  destruct a as [s1 u1], b as [s2 u2]. unfold key_ltb. simpl.
  destruct (text_eqb s1 s2) eqn:E12.
  - apply text_eqb_eq in E12. subst s2. rewrite text_eqb_refl.
    apply text_lt_asym.
  - replace (text_eqb s2 s1) with false.
    + apply text_lt_asym.
    + symmetry. apply text_eqb_neq. apply text_eqb_neq in E12. congruence.
Qed.

Lemma insert_asc_in (x r : row) (l : list row) :
  In r (insert_asc x l) <-> r = x \/ In r l.
Proof.
  induction l as [|y l IH]; simpl.
  - intuition.
  - destruct (key_ltb (key y) (key x)); simpl; rewrite ?IH; intuition.
Qed.

Lemma sort_asc_in (r : row) (l : list row) : In r (sort_asc l) <-> In r l.
Proof.
  induction l as [|x l IH]; simpl; [tauto|].
  rewrite insert_asc_in, IH. intuition.
Qed.

Lemma insert_asc_length (x : row) (l : list row) :
  length (insert_asc x l) = S (length l).
Proof.
  induction l as [|y l IH]; simpl; [reflexivity|].
  destruct (key_ltb (key y) (key x)); simpl; now rewrite ?IH.
Qed.

Lemma sort_asc_length (l : list row) : length (sort_asc l) = length l.
Proof.
  induction l as [|x l IH]; simpl; [reflexivity|].
  now rewrite insert_asc_length, IH.
Qed.

Lemma insert_asc_sorted (x : row) (l : list row) :
  StronglySorted in_order l -> StronglySorted in_order (insert_asc x l).
Proof.
  induction 1 as [|y l Hs IH Hy]; simpl.
  - constructor; constructor.
  - destruct (key_ltb (key y) (key x)) eqn:E.
    + constructor; [exact IH|].
      apply Forall_forall. intros r Hr. apply insert_asc_in in Hr.
      destruct Hr as [->|Hr].
      * unfold in_order. now apply key_lt_asym.
      * rewrite Forall_forall in Hy. now apply Hy.
    + constructor; [now constructor|].
      constructor; [exact E|].
      eapply Forall_impl; [|exact Hy]. intros r Hr. unfold in_order in *.
      now apply (key_ge_trans _ (key y)).
Qed.

Lemma sort_asc_sorted (l : list row) : StronglySorted in_order (sort_asc l).
Proof.
  induction l as [|x l IH]; simpl; [constructor|].
  now apply insert_asc_sorted.
Qed.

Lemma firstn_sorted (n : nat) (l : list row) :
  StronglySorted in_order l -> StronglySorted in_order (firstn n l).
Proof.
  intros H. revert n. induction H as [|y l Hs IH Hy]; intros [|n]; simpl;
    try constructor.
  - apply IH.
  - apply Forall_forall. intros r Hr. rewrite Forall_forall in Hy.
    apply Hy. revert Hr. clear. revert n.
    induction l as [|a l IHl]; intros [|n]; simpl; try tauto.
    intros [->|H]; [now left|right; now apply (IHl n)].
Qed.

Lemma firstn_in (n : nat) (r : row) (l : list row) :
  In r (firstn n l) -> In r l.
Proof.
  revert n. induction l as [|a l IH]; intros [|n]; simpl; try tauto.
  intros [->|H]; [now left|right; now apply (IH n)].
Qed.

(** X23. [make_related] returns at most [limit] rows, in ascending
    order of the pair (service, url); each of them is a row of the
    table whose category, stripped and in lower case, is that of the
    current row and whose normalised URL differs from the current
    row's; the current row itself is never among them.  When the table
    has no more than [limit] rows, every such row of the table is
    returned. *)
Theorem make_related_selects (all_rows : list row) (current_row : row) (limit : nat) :
  let related := make_related all_rows current_row limit in
  let eligible r :=
    lower (strip (row_category r)) = lower (strip (row_category current_row))
    /\ normalize_path (row_url r) <> normalize_path (row_url current_row) in
  length related <= limit
  /\ StronglySorted in_order related
  /\ ~ In current_row related
  /\ (forall r, In r related -> In r all_rows /\ eligible r)
  /\ (length all_rows <= limit ->
      forall r, In r all_rows -> eligible r -> In r related).
Proof.
  intros related eligible.
  assert (Hsound : forall r, In r related -> In r all_rows /\ eligible r).
  { intros r Hr. unfold related, make_related in Hr.
    apply firstn_in, sort_asc_in, filter_In in Hr.
    destruct Hr as [Hin Hp]. split; [exact Hin|].
    unfold in_pool in Hp. apply andb_true_iff in Hp. destruct Hp as [Hc Hu].
    apply text_eqb_eq in Hc. apply negb_true_iff, text_eqb_neq in Hu.
    split; assumption. }
  split; [|split; [|split; [|split]]].
  - unfold related, make_related. rewrite length_firstn. lia.
  - unfold related, make_related. apply firstn_sorted, sort_asc_sorted.
  - intros Hin. destruct (Hsound _ Hin) as [_ [_ Hu]]. now apply Hu.
  - exact Hsound.
  - intros Hlen r Hin [Hc Hu]. unfold related, make_related.
    rewrite firstn_all2.
    + apply sort_asc_in, filter_In. split; [exact Hin|].
      unfold in_pool. apply andb_true_iff. split.
      * now apply text_eqb_eq.
      * now apply negb_true_iff, text_eqb_neq.
    + rewrite sort_asc_length.
      pose proof (filter_length_le
                    (in_pool (lower (strip (row_category current_row)))
                       (normalize_path (row_url current_row))) all_rows).
      lia.
Qed.

Lemma make_related_selects_witness :
  length [ROW_VPN; ROW_HULU; ROW_BANK] <= 6
  /\ In ROW_HULU (make_related [ROW_VPN; ROW_HULU; ROW_BANK] ROW_VPN 6).
Proof.
  split; [simpl; lia|].
  apply (@make_related_selects [ROW_VPN; ROW_HULU; ROW_BANK] ROW_VPN 6).
  - simpl; lia.
  - right; left; reflexivity.
  - split; [reflexivity|discriminate].
Defined.

End RelatedFacts.

(** ** The partitioned sitemap and its index *)

Module IndexFacts.
Import Py PyFacts GenerateSitemap Escaping Samples.
Local Open Scope Z_scope.




End IndexFacts.
